(** * pill-reminder: the context-aware assistant

    A shallow embedding of the assistant subsystem of the application and
    the proofs of its specified properties.

    The code:
    - [Flow]: [src/ai/flows/global-assistant.ts], the schemas, the system
      prompts and [askGlobalAssistant] (credential check, provider call,
      validation and repair of the response);
    - [Actions]: [src/app/actions.ts], the server action
      [getGlobalAssistantResponse];
    - [Assistant]: the [GlobalAIAssistant] component, [pageContextMap],
      [pageInfo], [calculateAdherenceStats], [getTodayLogs], [handleSend],
      [handleSuggestionClick] and the reset effect on the pathname;
    - [Conversation]: the component as a state machine over its events;
    - [Prompt]: [buildUserPrompt] and the messages of the provider request;
    - [Snapshot]: the projections of the store's records that [handleSend]
      and [getTodayLogs] send;
    - [SmartSchedule]: the server action [getSmartScheduleSuggestions];
    - [Controls]: the send button, the text area, [handleKeyDown] and the
      suggestion chips of the component;
    - [Chart]: the data of the [AdherenceChart] component;
    - [Shape]: the loop of an object schema over its keys.

    The platform:
    - [JS]: values, binary64 numbers (the axiom-free specification of the
      standard library), strings as sequences of code units below 256,
      exceptions as an outcome type;
    - [Zod]: the schema combinators and [safeParse];
    - [Store]: the records of the medication store and the [Date]
      operations of the runtime, as a class;
    - [UTC], [Json]: a reference runtime and a reference [JSON.parse] for
      the concrete runs.

    [Spec] words the sentences of the specification, [Run] holds concrete
    inputs; the properties follow, one section per subject. *)

From Stdlib Require Import ZArith List String Ascii Bool Lia.
From Stdlib Require Import PeanoNat Permutation DecimalString.
From Stdlib Require Import Floats.SpecFloat.
Import ListNotations.

Set Warnings "-register-all".

Local Open Scope Z_scope.

(* ================================================================== *)
(** * JavaScript data *)
(* ================================================================== *)

Module JS.

(** ** Numbers: binary64 *)

Definition prec : Z := 53.
Definition emax : Z := 1024.

Definition number : Type := spec_float.

(** The Number that an integer literal or an array length denotes. *)
Definition num_of_Z (n : Z) : number := binary_normalize prec emax n 0 false.

Definition num_div (x y : number) : number := SFdiv prec emax x y.
Definition num_mul (x y : number) : number := SFmul prec emax x y.

Definition is_nan (x : number) : bool :=
  match x with S754_nan => true | _ => false end.

(** [Math.round]: the integral Number closest to [x], a tie going towards
    plus infinity; NaN, the infinities and the zeros are returned as they
    are, and a negative argument that rounds to zero gives minus zero. *)
Definition Math_round (x : number) : number :=
  match x with
  | S754_finite s m e =>
      if 0 <=? e then x
      else
        let d := Z.pow 2 (- e) in
        let n :=
          if s then (d - 2 * Zpos m) / (2 * d)   (* floor (-v + 1/2) *)
          else (2 * Zpos m + d) / (2 * d) in     (* floor (v + 1/2) *)
        binary_normalize prec emax n 0 s
  | _ => x
  end.

(** ** Strings *)

Definition code (c : ascii) : N := N_of_ascii c.

(** White space and line terminators, as [String.prototype.trim] sees
    them, among the code units below 256: TAB, LF, VT, FF, CR, SP, NBSP. *)
Definition is_whitespace (c : ascii) : bool :=
  existsb (N.eqb (code c)) [9; 10; 11; 12; 13; 32; 160]%N.

Definition is_empty (s : string) : bool :=
  match s with EmptyString => true | String _ _ => false end.

Fixpoint trimStart (s : string) : string :=
  match s with
  | EmptyString => EmptyString
  | String c r => if is_whitespace c then trimStart r else s
  end.

Fixpoint trimEnd (s : string) : string :=
  match s with
  | EmptyString => EmptyString
  | String c r =>
      let r' := trimEnd r in
      if is_whitespace c && is_empty r' then EmptyString else String c r'
  end.

Definition trim (s : string) : string := trimEnd (trimStart s).

Fixpoint all_whitespace (s : string) : bool :=
  match s with
  | EmptyString => true
  | String c r => is_whitespace c && all_whitespace r
  end.

(** Truthiness of a string: every string but the empty one. *)
Definition truthy_string (s : string) : bool := negb (is_empty s).

(** ** Values *)

Inductive value : Type :=
| VUndefined
| VNull
| VBool (b : bool)
| VNum (n : number)
| VStr (s : string)
| VArr (items : list value)
| VObj (fields : list (string * value)).

(** Own property of an object given by its entries. *)
Fixpoint lookup (k : string) (fields : list (string * value)) : option value :=
  match fields with
  | [] => None
  | (k', v) :: rest => if String.eqb k k' then Some v else lookup k rest
  end.

(** ** Exceptions *)

Inductive outcome (A : Type) : Type :=
| Return (a : A)
| Throw (message : string).
Arguments Return {A} a.
Arguments Throw {A} message.

Definition bind {A B} (m : outcome A) (k : A -> outcome B) : outcome B :=
  match m with
  | Return a => k a
  | Throw e => Throw e
  end.

(** [try { body } catch { handler }] *)
Definition try_catch {A} (body : outcome A) (handler : outcome A) : outcome A :=
  match body with
  | Return a => Return a
  | Throw _ => handler
  end.

(** Property read [v.k] for a key that no built-in prototype defines
    (here: [response], [answer], [suggestions], [error]): reading from
    [null] or [undefined] throws a TypeError, a missing property reads as
    [undefined]. *)
Definition get_prop (v : value) (k : string) : outcome value :=
  match v with
  | VUndefined | VNull => Throw "TypeError"
  | VObj fields =>
      match lookup k fields with
      | Some x => Return x
      | None => Return VUndefined
      end
  | _ => Return VUndefined
  end.

End JS.

Export JS.

Declare Scope js_scope.
Notation "x <- m ;; k" := (JS.bind m (fun x => k))
  (at level 61, m at next level, right associativity) : js_scope.

Local Open Scope js_scope.

(* ================================================================== *)
(** * zod schemas *)
(* ================================================================== *)

Module Zod.

(** The schema combinators that the repository uses. [z.string()] is
    [z_string 0] and [z.string().min(1)] is [z_string 1]. *)
Inductive schema : Type :=
| z_string (min : nat)
| z_number
| z_enum (options : list string)
| z_array (item : schema)
| z_object (shape : list (string * schema))
| z_optional (inner : schema).

Definition is_undefined (v : value) : bool :=
  match v with VUndefined => true | _ => false end.

Definition has_key (k : string) (fields : list (string * value)) : bool :=
  match lookup k fields with Some _ => true | None => false end.

Definition read (k : string) (fields : list (string * value)) : value :=
  match lookup k fields with Some v => v | None => VUndefined end.

Fixpoint traverse {A B} (f : A -> option B) (l : list A) : option (list B) :=
  match l with
  | [] => Some []
  | a :: rest =>
      match f a, traverse f rest with
      | Some b, Some bs => Some (b :: bs)
      | _, _ => None
      end
  end.

(** [schema.safeParse(v)]: [None] when [success] is false, otherwise the
    parsed [data]. An object schema accepts objects only (not arrays, not
    [null]), checks every key of its shape (a missing key reads as
    [undefined]) and drops the keys it does not know; a key that is absent
    from the input and parses to [undefined] stays absent. [z.number()]
    refuses NaN. *)
Fixpoint safeParse (sc : schema) (v : value) {struct sc} : option value :=
  match sc with
  | z_string min =>
      match v with
      | VStr s => if (min <=? String.length s)%nat then Some v else None
      | _ => None
      end
  | z_number =>
      match v with
      | VNum n => if is_nan n then None else Some v
      | _ => None
      end
  | z_enum options =>
      match v with
      | VStr s => if existsb (String.eqb s) options then Some v else None
      | _ => None
      end
  | z_array item =>
      match v with
      | VArr items => option_map VArr (traverse (safeParse item) items)
      | _ => None
      end
  | z_object shape =>
      match v with
      | VObj fields =>
          option_map VObj
            ((fix parse_shape (sh : list (string * schema))
                : option (list (string * value)) :=
                match sh with
                | [] => Some []
                | (k, sck) :: rest =>
                    match safeParse sck (read k fields), parse_shape rest with
                    | Some x, Some r =>
                        if is_undefined x && negb (has_key k fields)
                        then Some r
                        else Some ((k, x) :: r)
                    | _, _ => None
                    end
                end) shape)
      | _ => None
      end
  | z_optional inner =>
      match v with
      | VUndefined => Some VUndefined
      | _ => safeParse inner v
      end
  end.

(** [schema.safeParse(v).success] *)
Definition accepts (sc : schema) (v : value) : bool :=
  match safeParse sc v with Some _ => true | None => false end.

End Zod.

Export Zod.

(* ================================================================== *)
(** * The flow: src/ai/flows/global-assistant.ts *)
(* ================================================================== *)

Module Flow.

Local Open Scope string_scope.

Inductive PageContext : Type := dashboard | medications | reports.

Definition PageContext_name (c : PageContext) : string :=
  match c with
  | dashboard => "dashboard"
  | medications => "medications"
  | reports => "reports"
  end.

Definition PageContext_of_name (s : string) : option PageContext :=
  if String.eqb s "dashboard" then Some dashboard
  else if String.eqb s "medications" then Some medications
  else if String.eqb s "reports" then Some reports
  else None.

Definition medication_shape : schema :=
  z_object
    [ ("name", z_string 0);
      ("dosage", z_string 0);
      ("schedule",
        z_object [ ("frequency", z_string 0); ("times", z_array (z_string 0)) ]) ].

Definition log_shape : schema :=
  z_object
    [ ("medicationName", z_string 0);
      ("time", z_string 0);
      ("status", z_enum ["taken"; "missed"; "skipped"]) ].

Definition stats_shape : schema :=
  z_object
    [ ("totalScheduled", z_number);
      ("totalTaken", z_number);
      ("adherenceRate", z_number) ].

Definition GlobalAssistantInputSchema : schema :=
  z_object
    [ ("pageContext", z_enum ["dashboard"; "medications"; "reports"]);
      ("userMessage", z_string 0);
      ("medications", z_array medication_shape);
      ("todayLogs", z_optional (z_array log_shape));
      ("adherenceStats", z_optional stats_shape) ].

Definition GlobalAssistantOutputSchema : schema :=
  z_object
    [ ("response", z_string 0);
      ("suggestions", z_optional (z_array (z_string 0))) ].

(** [GlobalAssistantOutput], the type inferred from the output schema. *)
Record GlobalAssistantOutput : Type := mkOutput {
  response : string;
  suggestions : option (list string)
}.

Definition string_entries (items : list value) : list string :=
  flat_map (fun v => match v with VStr s => [s] | _ => [] end) items.

(** [result.data] of the output schema, read at its inferred type. On data
    that the schema accepted both reads are exact (lemma
    [output_of_data_exact] below). *)
Definition output_of_data (data : value) : GlobalAssistantOutput :=
  match data with
  | VObj fields =>
      mkOutput
        (match read "response" fields with VStr r => r | _ => EmptyString end)
        (match read "suggestions" fields with
         | VArr items => Some (string_entries items)
         | _ => None
         end)
  | _ => mkOutput EmptyString None
  end.

Definition dq : string := String (ascii_of_nat 34) EmptyString.
Definition quoted (s : string) : string := dq ++ s ++ dq.

Definition jsonInstructions : string :=
"

IMPORTANT: You must respond in JSON format with this structure:
{
  " ++ quoted "response" ++ ": " ++ quoted "Your helpful response here" ++ ",
  " ++ quoted "suggestions" ++ ": [" ++ quoted "Follow-up question 1?" ++ ", "
    ++ quoted "Follow-up question 2?" ++ "]
}

The " ++ quoted "suggestions" ++ " array should contain 2-3 short follow-up questions the user might want to ask next.".

Definition systemPrompts (c : PageContext) : string :=
  match c with
  | dashboard =>
"You are PillPal AI, a friendly medication assistant helping users with their daily medication routine.

You're currently on the DASHBOARD page where users see:
- Today's medication schedule
- Quick adherence overview

Your role:
1. Answer questions about today's medications and schedule
2. Provide reminders and encouragement for medication adherence
3. Offer general health tips related to their medications
4. Help users understand their daily routine

Keep responses concise, friendly, and actionable. Use bullet points for clarity when listing multiple items."
    ++ jsonInstructions
  | medications =>
"You are PillPal AI, a knowledgeable medication assistant helping users manage their medications.

You're currently on the MEDICATIONS page where users can:
- View and manage all their medications
- See dosages and schedules
- Access smart schedule suggestions

Your role:
1. Answer questions about specific medications (side effects, interactions, timing)
2. Explain pharmacological best practices for medication timing
3. Help users understand their medication regimen
4. Provide guidance on medication management

Always emphasize that users should consult their healthcare provider for medical advice.
Keep responses informative but accessible."
    ++ jsonInstructions
  | reports =>
"You are PillPal AI, an insightful medication adherence analyst helping users understand their patterns.

You're currently on the REPORTS page where users see:
- Monthly adherence charts
- Calendar view of logged doses
- Historical medication data

Your role:
1. Explain adherence patterns and trends
2. Provide insights on medication-taking behavior
3. Suggest ways to improve adherence
4. Help users understand the importance of consistency

Be encouraging and constructive. Focus on progress and actionable improvements.
Keep responses motivating and data-driven."
    ++ jsonInstructions
  end.

(** [systemPrompts[input.pageContext]] on the untyped input. *)
Definition systemPrompt_for (input : value) : value :=
  match input with
  | VObj fields =>
      match read "pageContext" fields with
      | VStr s =>
          match PageContext_of_name s with
          | Some c => VStr (systemPrompts c)
          | None => VUndefined
          end
      | _ => VUndefined
      end
  | _ => VUndefined
  end.

(** The request handed to [openai.chat.completions.create]. The user
    message of the request is [buildUserPrompt(input)], a function of
    [input] alone; the request records [input] itself. *)
Record ChatRequest : Type := mkRequest {
  model : string;
  system_content : value;
  user_input : value;
  response_format : string
}.

(** What the provider call does: it throws, or it resolves to a completion
    whose [choices[0]?.message?.content] is a string or is missing. *)
Inductive provider_reply : Type :=
| ProviderThrows (message : string)
| Completion (content : option string).

(** What a server function does besides returning. *)
Inductive effect : Type :=
| ProviderCall (request : ChatRequest)
| ConsoleError (label : string) (detail : string).

(** The server's environment: [process.env.OPENAI_API_KEY], the provider
    behind the client library, and [JSON.parse] ([None] when it throws). *)
Record Server : Type := mkServer {
  OPENAI_API_KEY : option string;
  provider : ChatRequest -> provider_reply;
  JSON_parse : string -> option value
}.

Definition truthy_opt (s : option string) : bool :=
  match s with Some s => truthy_string s | None => false end.

(** The body of the [try] block that ends [askGlobalAssistant]. *)
Definition validate_body (srv : Server) (content : string)
  : outcome GlobalAssistantOutput :=
  match JSON_parse srv content with
  | None => Throw "SyntaxError"
  | Some parsed =>
      match safeParse GlobalAssistantOutputSchema parsed with
      | Some data => Return (output_of_data data)
      | None =>
          r <- get_prop parsed "response" ;;
          resp <- match r with
                  | VStr s => Return s
                  | _ =>
                      a <- get_prop parsed "answer" ;;
                      Return (match a with VStr s => s | _ => content end)
                  end ;;
          sg <- get_prop parsed "suggestions" ;;
          Return (mkOutput resp
                    (match sg with
                     | VArr items => Some (string_entries items)
                     | _ => None
                     end))
      end
  end.

(** The response validation and repair: the [try] / [catch] that ends
    [askGlobalAssistant]. *)
Definition validate (srv : Server) (content : string)
  : outcome GlobalAssistantOutput :=
  try_catch (validate_body srv content) (Return (mkOutput content None)).

Definition askGlobalAssistant (srv : Server) (input : value)
  : outcome GlobalAssistantOutput * list effect :=
  if negb (truthy_opt (OPENAI_API_KEY srv)) then
    (Throw "OPENAI_API_KEY is not set.", [])
  else
    match safeParse GlobalAssistantInputSchema input with
    | None => (Throw "Invalid input for global assistant.", [])
    | Some _ =>
        let request :=
          mkRequest "gpt-4o-mini" (systemPrompt_for input) input "json_object" in
        match provider srv request with
        | ProviderThrows e => (Throw e, [ProviderCall request])
        | Completion content =>
            if negb (truthy_opt content) then
              (Throw "No response from OpenAI.", [ProviderCall request])
            else
              (validate srv (match content with Some c => c | None => EmptyString end),
               [ProviderCall request])
        end
    end.

End Flow.

Export Flow.

(* ================================================================== *)
(** * The server action: src/app/actions.ts *)
(* ================================================================== *)

Module Actions.

Local Open Scope string_scope.

Definition GlobalAssistantActionInput : schema :=
  z_object
    [ ("pageContext", z_enum ["dashboard"; "medications"; "reports"]);
      ("userMessage", z_string 1);
      ("medications", z_array medication_shape);
      ("todayLogs", z_optional (z_array log_shape));
      ("adherenceStats", z_optional stats_shape) ].

(** The schema of the action and the schema of the flow differ in the
    least length of the message: [input_schema 1] and [input_schema 0]. *)
Definition input_schema (n : nat) : schema :=
  z_object
    [ ("pageContext", z_enum ["dashboard"; "medications"; "reports"]);
      ("userMessage", z_string n);
      ("medications", z_array medication_shape);
      ("todayLogs", z_optional (z_array log_shape));
      ("adherenceStats", z_optional stats_shape) ].

(** What the action resolves to: the assistant's output, or [{error}]. *)
Inductive action_result : Type :=
| Output (o : GlobalAssistantOutput)
| ErrorResult (error : string).

Definition getGlobalAssistantResponse (srv : Server) (input : value)
  : outcome action_result * list effect :=
  match safeParse GlobalAssistantActionInput input with
  | None =>
      (Throw "Invalid input.",
       [ConsoleError "Invalid input for global assistant:" "ZodError"])
  | Some data =>
      match askGlobalAssistant srv data with
      | (Return result, effects) => (Return (Output result), effects)
      | (Throw e, effects) =>
          (Return (ErrorResult "Failed to get response. Please try again."),
           (effects ++ [ConsoleError "Error getting global assistant response:" e])%list)
      end
  end.

End Actions.

Export Actions.

(* ================================================================== *)
(** * The data store and the clock *)
(* ================================================================== *)

Module Store.

(** Modelled from the spec: the status of an intake log entry; the store's
    types live in [@/context/medication-context], which is not among the
    sources. The spec gives [status: enum{taken, missed, skipped}]. *)
Inductive LogStatus : Type := taken | missed | skipped.

(** Modelled from the spec: the part of a medication's schedule that the
    assistant reads, [{frequency: string, times: sequence of strings}]. *)
Record Schedule : Type := mkSchedule {
  frequency : string;
  times : list string
}.

(** Modelled from the spec: a medication of the store,
    [{name: string, dosage: string, schedule}]. *)
Record Medication : Type := mkMedication {
  name : string;
  dosage : string;
  schedule : Schedule
}.

(** Modelled from the spec: an intake log entry of the store,
    [{medicationName: string, time: timestamp, status}]; the time is the
    string that [new Date(log.time)] parses. *)
Record Log : Type := mkLog {
  medicationName : string;
  time : string;
  status : LogStatus
}.

(** What [useMedication()] hands to the component. *)
Record MedicationContext : Type := mkContext {
  ctx_medications : list Medication;
  ctx_logs : list Log
}.

Definition LogStatus_name (s : LogStatus) : string :=
  match s with
  | taken => "taken"
  | missed => "missed"
  | skipped => "skipped"
  end.

Definition is_taken (s : LogStatus) : bool :=
  match s with taken => true | _ => false end.

(** The [Date] operations of the runtime that the component uses. A valid
    date is its time value, in milliseconds since the epoch; the results of
    [getDate], [setDate] and [toDateString] depend on the local time zone.

    - [Date_parse s] is the time value of [new Date(s)], [None] for an
      invalid date;
    - [Date_getDate t] is the local day of the month of [t];
    - [Date_setDate t d] is the time value of [t] after [setDate(d)];
    - [Date_toDateString d] is [d.toDateString()]. *)
Class DateRuntime : Type := {
  Date_parse : string -> option Z;
  Date_getDate : Z -> Z;
  Date_setDate : Z -> Z -> Z;
  Date_toDateString : option Z -> string
}.

End Store.

Export Store.

(* ================================================================== *)
(** * The component: GlobalAIAssistant *)
(* ================================================================== *)

Module Assistant.

Local Open Scope string_scope.

Inductive Role : Type := user | assistant.

Record Message : Type := mkMessage {
  role : Role;
  content : string;
  suggestions : option (list string)
}.

(** [pageContextMap[pathname]] on the map's own keys. [usePathname] yields
    paths that begin with a slash, and no member that an object literal
    inherits has such a name. *)
Definition pageContextMap (pathname : string) : option PageContext :=
  if String.eqb pathname "/dashboard" then Some dashboard
  else if String.eqb pathname "/medications" then Some medications
  else if String.eqb pathname "/reports" then Some reports
  else None.

Record PageInfo : Type := mkPageInfo {
  label : string;
  icon : string;
  description : string;
  placeholder : string
}.

Definition pageInfo (c : PageContext) : PageInfo :=
  match c with
  | dashboard =>
      mkPageInfo "Dashboard" "LayoutDashboard"
        "I can help you with today's schedule and medications."
        "Ask about today's medications, reminders, or health tips..."
  | medications =>
      mkPageInfo "Medications" "Pill"
        "I can answer questions about your medications."
        "Ask about side effects, timing, interactions..."
  | reports =>
      mkPageInfo "Reports" "BarChart3"
        "I can help you understand your adherence patterns."
        "Ask about your adherence trends or how to improve..."
  end.

(** [const pageContext = pageContextMap[pathname] || 'dashboard'] *)
Definition pageContext (pathname : string) : PageContext :=
  match pageContextMap pathname with
  | Some c => c
  | None => dashboard
  end.

Definition currentPageInfo (pathname : string) : PageInfo :=
  pageInfo (pageContext pathname).

(** The suggestion chips that the empty transcript shows. *)
Definition defaultSuggestions (c : PageContext) : list string :=
  match c with
  | dashboard =>
      [ "What medications do I have today?";
        "How am I doing with my adherence?" ]
  | medications =>
      [ "What are common medication interactions?";
        "Tips for remembering to take my pills" ]
  | reports =>
      [ "How can I improve my adherence?";
        "Why is medication adherence important?" ]
  end.

Record AdherenceStats : Type := mkStats {
  totalScheduled : Z;
  totalTaken : Z;
  adherenceRate : number
}.

Section WithRuntime.

Context {RT : DateRuntime}.

(** [logDate >= thirtyDaysAgo] on a parsed log time; an invalid date
    compares false. *)
Definition is_recent (thirtyDaysAgo : Z) (log : Log) : bool :=
  match Date_parse (time log) with
  | Some logDate => (thirtyDaysAgo <=? logDate)%Z
  | None => false
  end.

(** [now] is the time value of [new Date()]. *)
Definition calculateAdherenceStats (now : Z) (logs : list Log) : AdherenceStats :=
  let today := now in
  let thirtyDaysAgo := Date_setDate today (Date_getDate today - 30) in
  let recentLogs := filter (is_recent thirtyDaysAgo) logs in
  let totalTaken :=
    Z.of_nat (List.length (filter (fun log => is_taken (status log)) recentLogs)) in
  let totalScheduled :=
    if (Z.of_nat (List.length recentLogs) =? 0)%Z then 1 else Z.of_nat (List.length recentLogs) in
  let adherenceRate :=
    Math_round
      (num_mul (num_div (num_of_Z totalTaken) (num_of_Z totalScheduled))
         (num_of_Z 100)) in
  mkStats totalScheduled totalTaken adherenceRate.

Definition log_value (log : Log) : value :=
  VObj [ ("medicationName", VStr (medicationName log));
         ("time", VStr (time log));
         ("status", VStr (LogStatus_name (status log))) ].

Definition getTodayLogs (now : Z) (logs : list Log) : list value :=
  let today := Date_toDateString (Some now) in
  map log_value
    (filter
       (fun log => String.eqb (Date_toDateString (Date_parse (time log))) today)
       logs).

Definition medication_value (m : Medication) : value :=
  VObj [ ("name", VStr (name m));
         ("dosage", VStr (dosage m));
         ("schedule",
           VObj [ ("frequency", VStr (frequency (schedule m)));
                  ("times", VArr (map VStr (times (schedule m)))) ]) ].

Definition stats_value (s : AdherenceStats) : value :=
  VObj [ ("totalScheduled", VNum (num_of_Z (totalScheduled s)));
         ("totalTaken", VNum (num_of_Z (totalTaken s)));
         ("adherenceRate", VNum (adherenceRate s)) ].

(** The React state of the component, with the pathname of the router. *)
Record State : Type := mkState {
  pathname : string;
  messages : list Message;
  input : string;
  isPending : bool
}.

(** The argument of [getGlobalAssistantResponse] that [handleSend] builds. *)
Definition request_of (store : MedicationContext) (now : Z)
    (s : State) (text : string) : value :=
  VObj [ ("pageContext", VStr (PageContext_name (pageContext (pathname s))));
         ("userMessage", VStr text);
         ("medications", VArr (map medication_value (ctx_medications store)));
         ("todayLogs", VArr (getTodayLogs now (ctx_logs store)));
         ("adherenceStats", stats_value (calculateAdherenceStats now (ctx_logs store))) ].

(** [handleSend(messageText?)], up to the call of the server action: the
    next state, and the request that the transition dispatches, if any. *)
Definition handleSend (store : MedicationContext) (now : Z)
    (s : State) (messageText : option string) : State * option value :=
  let text :=
    match messageText with
    | Some m => if truthy_string m then m else trim (input s)
    | None => trim (input s)
    end in
  if negb (truthy_string text) || isPending s then (s, None)
  else
    let userMessage := mkMessage user text None in
    (mkState (pathname s) (messages s ++ [userMessage])%list EmptyString true,
     Some (request_of store now s text)).

Definition handleSuggestionClick (store : MedicationContext) (now : Z)
    (s : State) (suggestion : string) : State * option value :=
  handleSend store now s (Some suggestion).

End WithRuntime.

(** The assistant turn that the transition appends once the awaited call
    has settled: [Throw] stands for a rejected call. *)
Definition reply_message (r : outcome action_result) : Message :=
  match r with
  | Return (ErrorResult _) =>
      mkMessage assistant "Sorry, I encountered an error. Please try again." None
  | Return (Output result) =>
      mkMessage assistant (response result) (Flow.suggestions result)
  | Throw _ =>
      mkMessage assistant "Sorry, something went wrong. Please try again." None
  end.

(** The effect on [pathname]: [setMessages([]); setInput('')]. *)
Definition reset (s : State) : State :=
  mkState (pathname s) [] EmptyString (isPending s).

End Assistant.

Export Assistant.

(* ================================================================== *)
(** * The conversation as a state machine *)
(* ================================================================== *)

Module Conversation.

(** How the awaited server action answers: it is served by a server in
    some environment, or the call itself is rejected (the action cannot be
    reached). *)
Inductive server_reply : Type :=
| Served (srv : Server)
| CallRejected (reason : string).

(** What [await getGlobalAssistantResponse(request)] gives. *)
Definition call (reply : server_reply) (request : value) : outcome action_result :=
  match reply with
  | Served srv => fst (getGlobalAssistantResponse srv request)
  | CallRejected reason => Throw reason
  end.

(** The component together with the requests of its transitions that have
    not settled yet, oldest first. *)
Record Session : Type := mkSession {
  ui : State;
  in_flight : list value
}.

Inductive event : Type :=
| Change (text : string)                       (* onChange of the textarea *)
| Send (now : Z)                               (* Enter, or the send button *)
| SuggestionClick (suggestion : string) (now : Z)
| Navigate (path : string)                     (* the router's pathname changes *)
| Settle (reply : server_reply).               (* the oldest pending call settles *)

Definition is_nil {A} (l : list A) : bool :=
  match l with [] => true | _ :: _ => false end.

Definition dispatched (request : option value) : list value :=
  match request with Some r => [r] | None => [] end.

Section WithRuntime.

Context {RT : DateRuntime}.
Variable store : MedicationContext.

(** One event of the user interface. [isPending] of [useTransition] is true
    from [startTransition] until the asynchronous callbacks of all pending
    transitions have settled; the textarea is disabled while it is true.

    [Navigate] is the effect on [pathname]. The source does not decide
    whether the router's change of path can be committed while a transition
    is pending, or is held back until it has settled: that is the
    scheduling of the framework. The relation allows the change in every
    state, so it has the runs of both behaviours, and a property of all its
    runs holds under either; a run with [Navigate] between a dispatch and
    its [Settle] need not be a run of the application. *)
Definition step (e : event) (x : Session) : Session :=
  let s := ui x in
  match e with
  | Change text =>
      if isPending s then x
      else mkSession (mkState (pathname s) (messages s) text (isPending s)) (in_flight x)
  | Send now =>
      let '(s', request) := handleSend store now s None in
      mkSession s' (in_flight x ++ dispatched request)
  | SuggestionClick suggestion now =>
      let '(s', request) := handleSuggestionClick store now s suggestion in
      mkSession s' (in_flight x ++ dispatched request)
  | Navigate path =>
      if String.eqb path (pathname s) then x
      else
        mkSession
          (reset (mkState path (messages s) (input s) (isPending s)))
          (in_flight x)
  | Settle reply =>
      match in_flight x with
      | [] => x
      | request :: rest =>
          mkSession
            (mkState (pathname s)
               (messages s ++ [reply_message (call reply request)])
               (input s)
               (negb (is_nil rest)))
            rest
      end
  end.

Fixpoint run (es : list event) (x : Session) : Session :=
  match es with
  | [] => x
  | e :: rest => run rest (step e x)
  end.

(** The component as it mounts on [path]. *)
Definition init (path : string) : Session :=
  mkSession (mkState path [] EmptyString false) [].

Definition reachable (x : Session) : Prop :=
  exists path es, x = run es (init path).

End WithRuntime.

Definition is_settle (e : event) : bool :=
  match e with Settle _ => true | _ => false end.

Definition is_submit (e : event) : bool :=
  match e with Send _ | SuggestionClick _ _ => true | _ => false end.

(** At most one request is in flight, and [isPending] tells whether one is. *)
Definition single_flight (x : Session) : Prop :=
  (List.length (in_flight x) <= 1)%nat
  /\ isPending (ui x) = negb (is_nil (in_flight x)).

Definition count_role (r : Role) (ms : list Message) : nat :=
  List.length (filter (fun m => match role m, r with
                                | user, user | assistant, assistant => true
                                | _, _ => false
                                end) ms).

End Conversation.

Export Conversation.

(* ================================================================== *)
(** * A reference runtime: UTC *)
(* ================================================================== *)

(** The [Date] operations for a runtime whose local time zone is UTC, on
    years 0 to 9999. [Date_parse] reads the format that [toISOString]
    writes, [YYYY-MM-DDTHH:mm:ss.sssZ], and takes every other string for an
    invalid date. The concrete runs below use it. *)
Module UTC.

Local Open Scope string_scope.

Definition msPerDay : Z := 86400000.

Definition Day (t : Z) : Z := t / msPerDay.
Definition TimeWithinDay (t : Z) : Z := t mod msPerDay.

(** Day number of a date of the proleptic Gregorian calendar. *)
Definition days_from_civil (y m d : Z) : Z :=
  let y' := if (m <=? 2)%Z then y - 1 else y in
  let era := y' / 400 in
  let yoe := y' - era * 400 in
  let mp := if (2 <? m)%Z then m - 3 else m + 9 in
  let doy := (153 * mp + 2) / 5 + d - 1 in
  let doe := yoe * 365 + yoe / 4 - yoe / 100 + doy in
  era * 146097 + doe - 719468.

(** Year, month (1 to 12) and day of the month of a day number. *)
Definition civil_from_days (z : Z) : Z * Z * Z :=
  let z := z + 719468 in
  let era := z / 146097 in
  let doe := z - era * 146097 in
  let yoe := (doe - doe / 1460 + doe / 36524 - doe / 146096) / 365 in
  let y := yoe + era * 400 in
  let doy := doe - (365 * yoe + yoe / 4 - yoe / 100) in
  let mp := (5 * doy + 2) / 153 in
  let d := doy - (153 * mp + 2) / 5 + 1 in
  let m := if (mp <? 10)%Z then mp + 3 else mp - 9 in
  (if (m <=? 2)%Z then y + 1 else y, m, d).

Definition getDate (t : Z) : Z :=
  let '(_, _, d) := civil_from_days (Day t) in d.

(** [setDate(dt)]: the day [dt] of the month of [t], counted from the first
    of that month also when [dt] is not a day of it, at the time of day of
    [t]. *)
Definition setDate (t dt : Z) : Z :=
  let '(y, m, _) := civil_from_days (Day t) in
  (days_from_civil y m 1 + dt - 1) * msPerDay + TimeWithinDay t.

Definition digit_value (c : ascii) : option Z :=
  let n := Z.of_N (code c) in
  if ((48 <=? n) && (n <=? 57))%Z then Some (n - 48) else None.

(** [n] decimal digits at the head of [s]. *)
Fixpoint digits (n : nat) (acc : Z) (s : string) : option (Z * string) :=
  match n with
  | O => Some (acc, s)
  | S n' =>
      match s with
      | String c r =>
          match digit_value c with
          | Some d => digits n' (10 * acc + d) r
          | None => None
          end
      | EmptyString => None
      end
  end.

Definition expect (c : string) (s : string) : option string :=
  match c, s with
  | String c0 EmptyString, String c1 r =>
      if Ascii.eqb c0 c1 then Some r else None
  | _, _ => None
  end.

Definition days_in_month (y m : Z) : Z :=
  days_from_civil (if (m =? 12)%Z then y + 1 else y)
                  (if (m =? 12)%Z then 1 else m + 1) 1
  - days_from_civil y m 1.

Definition opt_bind {A B} (o : option A) (k : A -> option B) : option B :=
  match o with Some a => k a | None => None end.

Definition parse (s : string) : option Z :=
  opt_bind (digits 4 0 s) (fun '(y, s) =>
  opt_bind (expect "-" s) (fun s =>
  opt_bind (digits 2 0 s) (fun '(mo, s) =>
  opt_bind (expect "-" s) (fun s =>
  opt_bind (digits 2 0 s) (fun '(d, s) =>
  opt_bind (expect "T" s) (fun s =>
  opt_bind (digits 2 0 s) (fun '(h, s) =>
  opt_bind (expect ":" s) (fun s =>
  opt_bind (digits 2 0 s) (fun '(mi, s) =>
  opt_bind (expect ":" s) (fun s =>
  opt_bind (digits 2 0 s) (fun '(sec, s) =>
  opt_bind (expect "." s) (fun s =>
  opt_bind (digits 3 0 s) (fun '(ms, s) =>
  opt_bind (expect "Z" s) (fun s =>
  if (is_empty s
      && (1 <=? mo) && (mo <=? 12) && (1 <=? d) && (d <=? days_in_month y mo)
      && (h <? 24) && (mi <? 60) && (sec <? 60))%Z
  then Some (days_from_civil y mo d * msPerDay
             + ((h * 60 + mi) * 60 + sec) * 1000 + ms)
  else None)))))))))))))).

Definition digit (n : Z) : string :=
  String (ascii_of_N (Z.to_N (48 + n mod 10))) EmptyString.

Definition pad2 (n : Z) : string := digit (n / 10) ++ digit n.
Definition pad4 (n : Z) : string := pad2 (n / 100) ++ pad2 (n mod 100).

Definition weekday_name (day : Z) : string :=
  nth (Z.to_nat ((day + 4) mod 7))
    ["Sun"; "Mon"; "Tue"; "Wed"; "Thu"; "Fri"; "Sat"] EmptyString.

Definition month_name (m : Z) : string :=
  nth (Z.to_nat (m - 1))
    ["Jan"; "Feb"; "Mar"; "Apr"; "May"; "Jun";
     "Jul"; "Aug"; "Sep"; "Oct"; "Nov"; "Dec"] EmptyString.

Definition toDateString (d : option Z) : string :=
  match d with
  | None => "Invalid Date"
  | Some t =>
      let '(y, m, dd) := civil_from_days (Day t) in
      weekday_name (Day t) ++ " " ++ month_name m ++ " " ++ pad2 dd ++ " " ++ pad4 y
  end.

#[export] Instance runtime : DateRuntime := {
  Date_parse := parse;
  Date_getDate := getDate;
  Date_setDate := setDate;
  Date_toDateString := toDateString
}.

End UTC.

(* ================================================================== *)
(** * A reference JSON.parse *)
(* ================================================================== *)

(** [JSON.parse] on texts whose strings stay among the code units below
    256: the JSON grammar, numbers rounded to the nearest binary64, a
    repeated key keeping its last value. The concrete runs below use it;
    the theorems on the validator hold for every [JSON_parse]. *)
Module Json.

Local Open Scope char_scope.

Definition quote : ascii := ascii_of_nat 34.

Definition is_json_space (c : ascii) : bool :=
  existsb (N.eqb (code c)) [9; 10; 13; 32]%N.

Fixpoint skip_space (s : string) : string :=
  match s with
  | String c r => if is_json_space c then skip_space r else s
  | EmptyString => s
  end.

Fixpoint strip_prefix (p s : string) : option string :=
  match p, s with
  | EmptyString, _ => Some s
  | String a p', String b s' => if Ascii.eqb a b then strip_prefix p' s' else None
  | String _ _, EmptyString => None
  end.

Definition hex_value (c : ascii) : option N :=
  let n := code c in
  if ((48 <=? n) && (n <=? 57))%N then Some (n - 48)%N
  else if ((65 <=? n) && (n <=? 70))%N then Some (n - 55)%N
  else if ((97 <=? n) && (n <=? 102))%N then Some (n - 87)%N
  else None.

Definition simple_escape (c : ascii) : option ascii :=
  if Ascii.eqb c quote then Some quote
  else if Ascii.eqb c "\" then Some "\"
  else if Ascii.eqb c "/" then Some "/"
  else if Ascii.eqb c "b" then Some (ascii_of_nat 8)
  else if Ascii.eqb c "f" then Some (ascii_of_nat 12)
  else if Ascii.eqb c "n" then Some (ascii_of_nat 10)
  else if Ascii.eqb c "r" then Some (ascii_of_nat 13)
  else if Ascii.eqb c "t" then Some (ascii_of_nat 9)
  else None.

Definition push (c : ascii) (r : option (string * string)) : option (string * string) :=
  match r with
  | Some (t, rest) => Some (String c t, rest)
  | None => None
  end.

(** The characters of a string literal after its opening quote, and what
    follows the closing quote. *)
Fixpoint string_body (s : string) : option (string * string) :=
  match s with
  | EmptyString => None
  | String c r =>
      if Ascii.eqb c quote then Some (EmptyString, r)
      else if Ascii.eqb c "\" then
        match r with
        | String e r' =>
            match simple_escape e with
            | Some c' => push c' (string_body r')
            | None =>
                match r' with
                | String h1 (String h2 (String h3 (String h4 r''))) =>
                    if Ascii.eqb e "u" then
                      match hex_value h1, hex_value h2, hex_value h3, hex_value h4 with
                      | Some a, Some b, Some c3, Some d =>
                          let n := (((a * 16 + b) * 16 + c3) * 16 + d)%N in
                          if (n <? 256)%N then push (ascii_of_N n) (string_body r'')
                          else None
                      | _, _, _, _ => None
                      end
                    else None
                | _ => None
                end
            end
        | EmptyString => None
        end
      else if (code c <? 32)%N then None
      else push c (string_body r)
  end.

(** The decimal digits at the head of [s]: their value after [acc], their
    number, and the rest. *)
Fixpoint digits_while (acc : Z) (n : Z) (s : string) : Z * Z * string :=
  match s with
  | String c r =>
      match UTC.digit_value c with
      | Some d => digits_while (10 * acc + d) (n + 1) r
      | None => (acc, n, s)
      end
  | EmptyString => (acc, n, s)
  end.

Definition leading_zero (s : string) : bool :=
  match s with
  | String c (String c' _) =>
      Ascii.eqb c "0" && match UTC.digit_value c' with Some _ => true | None => false end
  | _ => false
  end.

(** The binary64 nearest to [(-1)^neg * m * 10^e10]. *)
Definition decimal (neg : bool) (m e10 : Z) : number :=
  match m with
  | Z0 => S754_zero neg
  | _ =>
      if (0 <=? e10)%Z then
        binary_normalize prec emax ((if neg then - m else m) * 10 ^ e10) 0 neg
      else
        let '(q, e, l) := SFdiv_core_binary prec emax m 0 (10 ^ (- e10)) 0 in
        binary_round_aux prec emax neg q e l
  end.

Definition number_literal (s : string) : option (number * string) :=
  let '(neg, s) :=
    match s with
    | String c r => if Ascii.eqb c "-" then (true, r) else (false, s)
    | EmptyString => (false, s)
    end in
  if leading_zero s then None
  else
    let '(int, n_int, s) := digits_while 0 0 s in
    if (n_int =? 0)%Z then None
    else
      let frac :=
        match s with
        | String c r =>
            if Ascii.eqb c "." then
              let '(m, n, s') := digits_while int 0 r in
              if (n =? 0)%Z then None else Some (m, n, s')
            else Some (int, 0%Z, s)
        | EmptyString => Some (int, 0%Z, s)
        end in
      match frac with
      | None => None
      | Some (m, n_frac, s) =>
          let expo :=
            match s with
            | String c r =>
                if Ascii.eqb c "e" || Ascii.eqb c "E" then
                  let '(eneg, r) :=
                    match r with
                    | String c' r' =>
                        if Ascii.eqb c' "-" then (true, r')
                        else if Ascii.eqb c' "+" then (false, r')
                        else (false, r)
                    | EmptyString => (false, r)
                    end in
                  let '(e, n, s') := digits_while 0 0 r in
                  if (n =? 0)%Z then None
                  else Some ((if eneg then - e else e)%Z, s')
                else Some (0%Z, s)
            | EmptyString => Some (0%Z, s)
            end in
          match expo with
          | None => None
          | Some (e, s) => Some (decimal neg m (e - n_frac), s)
          end
      end.

(** A member replaces an earlier member of the same key. *)
Definition set_member (k : string) (v : value) (fields : list (string * value))
  : list (string * value) :=
  filter (fun '(k', _) => negb (String.eqb k k')) fields ++ [(k, v)].

Fixpoint parse_value (fuel : nat) (s : string) {struct fuel} : option (value * string) :=
  match fuel with
  | O => None
  | S fuel =>
      let elements :=
        fix elements (fuel : nat) (acc : list value) (s : string) {struct fuel}
          : option (value * string) :=
          match fuel with
          | O => None
          | S fuel =>
              match parse_value fuel s with
              | Some (v, rest) =>
                  match skip_space rest with
                  | String c r =>
                      if Ascii.eqb c "," then elements fuel (acc ++ [v]) r
                      else if Ascii.eqb c "]" then Some (VArr (acc ++ [v]), r)
                      else None
                  | EmptyString => None
                  end
              | None => None
              end
          end in
      let members :=
        fix members (fuel : nat) (acc : list (string * value)) (s : string) {struct fuel}
          : option (value * string) :=
          match fuel with
          | O => None
          | S fuel =>
              match skip_space s with
              | String c r =>
                  if Ascii.eqb c quote then
                    match string_body r with
                    | Some (k, rest) =>
                        match skip_space rest with
                        | String c' r' =>
                            if Ascii.eqb c' ":" then
                              match parse_value fuel r' with
                              | Some (v, rest) =>
                                  match skip_space rest with
                                  | String c'' r'' =>
                                      if Ascii.eqb c'' "," then members fuel (set_member k v acc) r''
                                      else if Ascii.eqb c'' "}" then Some (VObj (set_member k v acc), r'')
                                      else None
                                  | EmptyString => None
                                  end
                              | None => None
                              end
                            else None
                        | EmptyString => None
                        end
                    | None => None
                    end
                  else None
              | EmptyString => None
              end
          end in
      match skip_space s with
      | EmptyString => None
      | String c r =>
          if Ascii.eqb c "{" then
            match skip_space r with
            | String c' r' =>
                if Ascii.eqb c' "}" then Some (VObj [], r') else members fuel [] r
            | EmptyString => None
            end
          else if Ascii.eqb c "[" then
            match skip_space r with
            | String c' r' =>
                if Ascii.eqb c' "]" then Some (VArr [], r') else elements fuel [] r
            | EmptyString => None
            end
          else if Ascii.eqb c quote then
            match string_body r with
            | Some (t, rest) => Some (VStr t, rest)
            | None => None
            end
          else if Ascii.eqb c "t" then option_map (pair (VBool true)) (strip_prefix "rue" r)
          else if Ascii.eqb c "f" then option_map (pair (VBool false)) (strip_prefix "alse" r)
          else if Ascii.eqb c "n" then option_map (pair VNull) (strip_prefix "ull" r)
          else
            match number_literal (String c r) with
            | Some (n, rest) => Some (VNum n, rest)
            | None => None
            end
      end
  end.

(** [JSON.parse(text)], [None] when it throws. *)
Definition parse (text : string) : option value :=
  match parse_value (2 * String.length text + 2) text with
  | Some (v, rest) => if is_empty (skip_space rest) then Some v else None
  | None => None
  end.

End Json.

(* ================================================================== *)
(** * The specification's wording *)
(* ================================================================== *)

(** Definitions that follow the sentences of the specification, to be
    compared with the code above. *)
Module Spec.

Local Open Scope string_scope.

(** The field [k] of a parsed value; a value without that field has none. *)
Definition field (k : string) (v : value) : value :=
  match v with
  | VObj fields => read k fields
  | _ => VUndefined
  end.

Definition is_string (v : value) : bool :=
  match v with VStr _ => true | _ => false end.

Definition is_nonempty_string (v : value) : bool :=
  match v with VStr s => truthy_string s | _ => false end.

Definition is_number (v : value) : bool :=
  match v with VNum _ => true | _ => false end.

Definition is_object (v : value) : bool :=
  match v with VObj _ => true | _ => false end.

Definition is_list_of (p : value -> bool) (v : value) : bool :=
  match v with VArr items => forallb p items | _ => false end.

Definition is_one_of (names : list string) (v : value) : bool :=
  match v with VStr s => existsb (String.eqb s) names | _ => false end.

Definition optional (p : value -> bool) (v : value) : bool :=
  is_undefined v || p v.

(** The output shape [{response: string, suggestions?: array of strings}]. *)
Definition has_output_shape (v : value) : bool :=
  is_object v
  && is_string (field "response" v)
  && optional (is_list_of is_string) (field "suggestions" v).

(** The string entries of an array, in order. *)
Definition strings_of (items : list value) : list string :=
  map (fun v => match v with VStr s => s | _ => EmptyString end)
      (filter is_string items).

(** The suggestions of an output as a field: absent, or an array. *)
Definition suggestions_field (o : option (list string)) : value :=
  match o with
  | Some l => VArr (map VStr l)
  | None => VUndefined
  end.

(** The salvage of a parsed value that fails the output shape: [response],
    else [answer], else the raw text; the string entries of [suggestions]
    when it is an array. *)
Definition salvaged (content : string) (parsed : value) : GlobalAssistantOutput :=
  mkOutput
    (match field "response" parsed with
     | VStr s => s
     | _ => match field "answer" parsed with
            | VStr s => s
            | _ => content
            end
     end)
    (match field "suggestions" parsed with
     | VArr items => Some (strings_of items)
     | _ => None
     end).

(** The documented shapes of the inbound call: a page context among the
    three, a non-empty message, medication snapshots, optional log entries
    of today and optional adherence statistics. *)
Definition conforms_medication (m : value) : bool :=
  is_object m
  && is_string (field "name" m)
  && is_string (field "dosage" m)
  && is_object (field "schedule" m)
  && is_string (field "frequency" (field "schedule" m))
  && is_list_of is_string (field "times" (field "schedule" m)).

Definition conforms_log (l : value) : bool :=
  is_object l
  && is_string (field "medicationName" l)
  && is_string (field "time" l)
  && is_one_of ["taken"; "missed"; "skipped"] (field "status" l).

Definition conforms_stats (s : value) : bool :=
  is_object s
  && is_number (field "totalScheduled" s)
  && is_number (field "totalTaken" s)
  && is_number (field "adherenceRate" s).

Definition conforms (input : value) : bool :=
  is_object input
  && is_one_of ["dashboard"; "medications"; "reports"] (field "pageContext" input)
  && is_nonempty_string (field "userMessage" input)
  && is_list_of conforms_medication (field "medications" input)
  && optional (is_list_of conforms_log) (field "todayLogs" input)
  && optional conforms_stats (field "adherenceStats" input).

Fixpoint count {A} (p : A -> bool) (l : list A) : Z :=
  match l with
  | [] => 0
  | a :: rest => (if p a then 1 else 0) + count p rest
  end.

(** [round(taken / scheduled * 100)] in exact arithmetic, a half going up. *)
Definition round_percent (taken scheduled : Z) : Z :=
  (2 * (100 * taken) + scheduled) / (2 * scheduled).

Section WithRuntime.

Context {RT : DateRuntime}.

Definition thirtyDaysBefore (now : Z) : Z :=
  Date_setDate now (Date_getDate now - 30).

(** The entry lies in the trailing 30-day window that ends today. *)
Definition in_trailing_window (now : Z) (log : Log) : bool :=
  match Date_parse (time log) with
  | Some t => ((thirtyDaysBefore now <=? t) && (t <=? now))%Z
  | None => false
  end.

(** The entry is not older than 30 days; it may lie in the future. *)
Definition not_older_than_30_days (now : Z) (log : Log) : bool :=
  match Date_parse (time log) with
  | Some t => (thirtyDaysBefore now <=? t)%Z
  | None => false
  end.

(** The adherence statistics as the specification words them. *)
Definition adherence_stats (now : Z) (logs : list Log) : AdherenceStats :=
  let taken :=
    count (fun log => in_trailing_window now log && is_taken (status log)) logs in
  let scheduled := Z.max 1 (count (in_trailing_window now) logs) in
  mkStats scheduled taken (num_of_Z (round_percent taken scheduled)).

(** Typing [text] into the textarea. *)
Definition typed (s : State) (text : string) : State :=
  mkState (pathname s) (messages s) text (isPending s).

(** Two submissions have the same effect on the transcript and dispatch
    the same request. *)
Definition same_effect (a b : State * option value) : Prop :=
  messages (fst a) = messages (fst b) /\ snd a = snd b.

(** Selecting the suggestion [text] has the effect of typing [text] and
    submitting it. *)
Definition click_is_typing (store : MedicationContext) (now : Z)
    (s : State) (text : string) : Prop :=
  same_effect (handleSuggestionClick store now s text)
              (handleSend store now (typed s text) None).

(** A submit of [messageText] does nothing: the state stays and no request
    is dispatched. *)
Definition is_noop (store : MedicationContext) (now : Z)
    (s : State) (messageText : option string) : Prop :=
  handleSend store now s messageText = (s, None).

End WithRuntime.

(** The absence of the credential shows in what the action gives back:
    the result differs from the result of a failing provider. *)
Definition missing_key_distinct (without_key failing : Server) (input : value) : Prop :=
  fst (getGlobalAssistantResponse without_key input)
  <> fst (getGlobalAssistantResponse failing input).

Definition is_provider_call (e : effect) : bool :=
  match e with ProviderCall _ => true | ConsoleError _ _ => false end.

End Spec.

(* ================================================================== *)
(** * Concrete runs *)
(* ================================================================== *)

Module Run.

Local Open Scope string_scope.

(** 2026-11-03T08:47:00.000Z *)
Definition now : Z := 1793695620000.

Definition meds : list Medication :=
  [ mkMedication "Metformin" "500mg" (mkSchedule "daily" ["08:00"; "20:00"]);
    mkMedication "Lisinopril" "10mg" (mkSchedule "daily" ["09:00"]) ].

(** Eight entries of the last 30 days, six of them taken, after two older
    entries and an entry whose time does not parse. *)
Definition logs : list Log :=
  [ mkLog "Metformin" "2026-09-01T08:00:00.000Z" taken;
    mkLog "Metformin" "2026-10-04T08:46:59.999Z" taken;
    mkLog "Lisinopril" "yesterday" taken;
    mkLog "Metformin" "2026-10-04T08:47:00.000Z" taken;
    mkLog "Metformin" "2026-10-10T08:03:00.000Z" taken;
    mkLog "Metformin" "2026-10-10T20:10:00.000Z" missed;
    mkLog "Lisinopril" "2026-10-21T09:00:00.000Z" taken;
    mkLog "Metformin" "2026-11-01T08:00:00.000Z" taken;
    mkLog "Lisinopril" "2026-11-02T09:15:00.000Z" skipped;
    mkLog "Lisinopril" "2026-11-03T08:30:00.000Z" taken;
    mkLog "Metformin" "2026-11-03T08:01:00.000Z" taken ].

Definition store : MedicationContext := mkContext meds logs.

(** A single entry, taken, dated a year after [now]. *)
Definition future_logs : list Log :=
  [ mkLog "Metformin" "2027-11-03T08:00:00.000Z" taken ].

(** 23 entries taken out of 40, all of today. *)
Definition logs_23_of_40 : list Log :=
  repeat (mkLog "Metformin" "2026-11-03T08:00:00.000Z" taken) 23
  ++ repeat (mkLog "Metformin" "2026-11-03T08:00:00.000Z" missed) 17.

Definition member (k v : string) : string := quoted k ++ ":" ++ v.

(** [{"response":"You took 6 of 8 doses.","suggestions":["How can I improve?"]}] *)
Definition content : string :=
  "{" ++ member "response" (quoted "You took 6 of 8 doses.") ++ ","
      ++ member "suggestions" ("[" ++ quoted "How can I improve?" ++ "]") ++ "}".

(** [{"answer":"Take with food"}] *)
Definition content_answer : string :=
  "{" ++ member "answer" (quoted "Take with food") ++ "}".

(** [{"response":"ok","suggestions":["a", 5, "b"]}] *)
Definition content_mixed : string :=
  "{" ++ member "response" (quoted "ok") ++ ","
      ++ member "suggestions" ("[" ++ quoted "a" ++ ", 5, " ++ quoted "b" ++ "]") ++ "}".

Definition server : Server :=
  mkServer (Some "sk-test") (fun _ => Completion (Some content)) Json.parse.

Definition server_without_key : Server :=
  mkServer None (fun _ => Completion (Some content)) Json.parse.

Definition server_provider_down : Server :=
  mkServer (Some "sk-test") (fun _ => ProviderThrows "Connection error.") Json.parse.

(** Inputs of the action that do not have the documented shapes: a page
    context that is none of the three, an empty message, a log entry whose
    status is unknown. *)
Definition input_unknown_page : value :=
  VObj [ ("pageContext", VStr "settings");
         ("userMessage", VStr "Hello");
         ("medications", VArr []) ].

Definition input_empty_message : value :=
  VObj [ ("pageContext", VStr "dashboard");
         ("userMessage", VStr EmptyString);
         ("medications", VArr []) ].

Definition input_malformed_log : value :=
  VObj [ ("pageContext", VStr "reports");
         ("userMessage", VStr "Hello");
         ("medications", VArr []);
         ("todayLogs",
           VArr [ VObj [ ("medicationName", VStr "Metformin");
                         ("time", VStr "2026-11-03T08:01:00.000Z");
                         ("status", VStr "late") ] ]) ].

Definition dashboard_state : State :=
  mkState "/dashboard" [] EmptyString false.

(** The request that a click on a dashboard chip dispatches. *)
Definition request : value :=
  @request_of UTC.runtime store now dashboard_state
    "How am I doing with my adherence?".

(** The session after that click: the user turn is in the transcript and
    the request is in flight. *)
Definition asked : Session :=
  @run UTC.runtime store
    [SuggestionClick "How am I doing with my adherence?" now]
    (init "/dashboard").

End Run.

(* ================================================================== *)
(** * The user prompt: buildUserPrompt *)
(* ================================================================== *)

Module Prompt.

Local Open Scope string_scope.

(** The formatting operations of the runtime that [buildUserPrompt] uses:
    - [toLocaleTimeString s] is
      [new Date(s).toLocaleTimeString([], {hour: '2-digit', minute: '2-digit'})];
    - [Number_toString n] is the string that a template literal gives for
      the Number [n]. *)
Class FormatRuntime : Type := {
  toLocaleTimeString : string -> string;
  Number_toString : number -> string
}.

Record StatsInput : Type := mkStatsInput {
  totalScheduled : number;
  totalTaken : number;
  adherenceRate : number
}.

(** [GlobalAssistantInput], the type inferred from the input schema. Its
    medications and log entries have the shapes of the snapshots that the
    component builds from the store's records. *)
Record GlobalAssistantInput : Type := mkInput {
  pageContext : PageContext;
  userMessage : string;
  medications : list Medication;
  todayLogs : option (list Log);
  adherenceStats : option StatsInput
}.

Definition get (k : string) (v : value) : value :=
  match v with
  | VObj fields => read k fields
  | _ => VUndefined
  end.

Definition string_of (v : value) : string :=
  match v with VStr s => s | _ => EmptyString end.

Definition number_of (v : value) : number :=
  match v with VNum n => n | _ => S754_nan end.

Definition items_of (v : value) : list value :=
  match v with VArr items => items | _ => [] end.

Definition medication_of_data (v : value) : Medication :=
  mkMedication (string_of (get "name" v)) (string_of (get "dosage" v))
    (mkSchedule (string_of (get "frequency" (get "schedule" v)))
       (map string_of (items_of (get "times" (get "schedule" v))))).

Definition status_of_data (v : value) : LogStatus :=
  if String.eqb (string_of v) "missed" then missed
  else if String.eqb (string_of v) "skipped" then skipped
  else taken.

Definition log_of_data (v : value) : Log :=
  mkLog (string_of (get "medicationName" v)) (string_of (get "time" v))
    (status_of_data (get "status" v)).

Definition stats_of_data (v : value) : StatsInput :=
  mkStatsInput (number_of (get "totalScheduled" v))
    (number_of (get "totalTaken" v))
    (number_of (get "adherenceRate" v)).

(** The data that the input schema accepted, read at its inferred type. On
    such data every read is exact: no default of the readers below is ever
    used, as the section on the typed input proves. *)
Definition input_of_data (data : value) : GlobalAssistantInput :=
  mkInput
    (match PageContext_of_name (string_of (get "pageContext" data)) with
     | Some c => c
     | None => dashboard
     end)
    (string_of (get "userMessage" data))
    (map medication_of_data (items_of (get "medications" data)))
    (match get "todayLogs" data with
     | VArr items => Some (map log_of_data items)
     | _ => None
     end)
    (match get "adherenceStats" data with
     | VObj fields => Some (stats_of_data (VObj fields))
     | _ => None
     end).

Definition nl : string := String (ascii_of_nat 10) EmptyString.

(** [l.join(sep)] *)
Fixpoint join (sep : string) (l : list string) : string :=
  match l with
  | [] => EmptyString
  | a :: rest =>
      match rest with
      | [] => a
      | _ :: _ => a ++ sep ++ join sep rest
      end
  end.

Section WithFormat.

Context {FT : FormatRuntime}.

Definition medication_line (m : Medication) : string :=
  "- " ++ name m ++ " (" ++ dosage m ++ "): " ++ join ", " (times (schedule m)).

Definition log_line (l : Log) : string :=
  "- " ++ Store.medicationName l ++ ": " ++ LogStatus_name (Store.status l)
  ++ " at " ++ toLocaleTimeString (Store.time l).

Definition medicationsList (input : GlobalAssistantInput) : string :=
  if (0 <? List.length (medications input))%nat
  then join nl (map medication_line (medications input))
  else "No medications added yet.".

Definition activity (input : GlobalAssistantInput) : string :=
  match todayLogs input with
  | Some (l :: rest) =>
      "Today's Activity:" ++ nl ++ join nl (map log_line (l :: rest)) ++ nl ++ nl
  | _ => EmptyString
  end.

Definition stats_text (input : GlobalAssistantInput) : string :=
  match adherenceStats input with
  | Some st =>
      "Adherence Stats:" ++ nl
      ++ "- Total scheduled: " ++ Number_toString (totalScheduled st) ++ nl
      ++ "- Total taken: " ++ Number_toString (totalTaken st) ++ nl
      ++ "- Adherence rate: " ++ Number_toString (adherenceRate st) ++ "%"
      ++ nl ++ nl
  | None => EmptyString
  end.

Definition buildUserPrompt (input : GlobalAssistantInput) : string :=
  let contextInfo :=
    "Current Medications:" ++ nl ++ medicationsList input ++ nl ++ nl in
  let contextInfo := contextInfo ++ activity input in
  let contextInfo := contextInfo ++ stats_text input in
  contextInfo ++ "User Question: " ++ userMessage input.

(** The [messages] of the request to the provider: the system prompt, then
    the user prompt built from the request's input. *)
Definition chat_messages (request : ChatRequest) : list (string * value) :=
  [ ("system", system_content request);
    ("user", VStr (buildUserPrompt (input_of_data (user_input request)))) ].

End WithFormat.

(** The formats of a reference runtime, for the concrete runs: its time
    zone is UTC and its default locale prints a time as [08:30]; a Number
    is printed in decimal, which is what a template literal gives for the
    integers of magnitude up to [2^53], the only Numbers of the runs. *)
Definition utc_toLocaleTimeString (s : string) : string :=
  match UTC.parse s with
  | Some t =>
      let minutes := UTC.TimeWithinDay t / 60000 in
      UTC.pad2 (minutes / 60) ++ ":" ++ UTC.pad2 (minutes mod 60)
  | None => "Invalid Date"
  end.

Definition utc_Number_toString (n : number) : string :=
  match n with
  | S754_nan => "NaN"
  | S754_infinity s => (if s then "-" else EmptyString) ++ "Infinity"
  | S754_zero _ => "0"
  | S754_finite s m e =>
      (if s then "-" else EmptyString)
      ++ NilZero.string_of_int
           (Z.to_int (if (0 <=? e)%Z then Zpos m * 2 ^ e else Zpos m / 2 ^ (- e)))
  end.

Definition utc : FormatRuntime := {|
  toLocaleTimeString := utc_toLocaleTimeString;
  Number_toString := utc_Number_toString
|}.

End Prompt.

(* ================================================================== *)
(** * The snapshots that the component sends *)
(* ================================================================== *)

(** The records of the store are JavaScript objects with whatever fields
    the store gives them; the chart, for one, reads [schedule.days]. The
    component does not send them as they are: it builds a new object from
    some of their fields. Here the two projections are on untyped objects,
    as the source writes them. *)
Module Snapshot.

Local Open Scope string_scope.
Local Open Scope js_scope.

(** [medications.map(m => ({name: m.name, dosage: m.dosage,
       schedule: {frequency: m.schedule.frequency,
                  times: m.schedule.times}}))] of [handleSend] *)
Definition medication (m : value) : outcome value :=
  name <- get_prop m "name" ;;
  dosage <- get_prop m "dosage" ;;
  schedule <- get_prop m "schedule" ;;
  frequency <- get_prop schedule "frequency" ;;
  times <- get_prop schedule "times" ;;
  Return (VObj [ ("name", name);
                 ("dosage", dosage);
                 ("schedule",
                   VObj [ ("frequency", frequency); ("times", times) ]) ]).

(** [.map(log => ({medicationName: log.medicationName, time: log.time,
       status: log.status}))] of [getTodayLogs] *)
Definition log (l : value) : outcome value :=
  medicationName <- get_prop l "medicationName" ;;
  time <- get_prop l "time" ;;
  status <- get_prop l "status" ;;
  Return (VObj [ ("medicationName", medicationName);
                 ("time", time);
                 ("status", status) ]).

(** The object [o] of the store is seen by the component as the medication
    [m]: it has the fields of [m], and any others. *)
Definition has_medication (o : value) (m : Medication) : Prop :=
  exists fields sched,
    o = VObj fields
    /\ read "name" fields = VStr (name m)
    /\ read "dosage" fields = VStr (dosage m)
    /\ read "schedule" fields = VObj sched
    /\ read "frequency" sched = VStr (frequency (schedule m))
    /\ read "times" sched = VArr (map VStr (times (schedule m))).

(** Likewise for a log entry. *)
Definition has_log (o : value) (l : Log) : Prop :=
  exists fields,
    o = VObj fields
    /\ read "medicationName" fields = VStr (Store.medicationName l)
    /\ read "time" fields = VStr (Store.time l)
    /\ read "status" fields = VStr (LogStatus_name (Store.status l)).

(** [v] is an object with no key outside [keys]. *)
Definition only_keys (keys : list string) (v : value) : Prop :=
  exists fields,
    v = VObj fields /\ forall k, has_key k fields = true -> In k keys.

(** A store for the concrete runs: its records have an [id], the
    medication has the [days] of its schedule, the log entry the [id] of
    its medication. *)
Definition stored_medications : list value :=
  [ VObj [ ("id", VStr "m1");
           ("name", VStr "Metformin");
           ("dosage", VStr "500mg");
           ("schedule",
             VObj [ ("frequency", VStr "weekly");
                    ("times", VArr [VStr "08:00"]);
                    ("days", VArr [VNum (num_of_Z 1); VNum (num_of_Z 4)]) ]) ] ].

Definition stored_logs : list value :=
  [ VObj [ ("id", VStr "l1");
           ("medicationId", VStr "m1");
           ("medicationName", VStr "Metformin");
           ("time", VStr "2026-11-03T08:01:00.000Z");
           ("status", VStr "taken") ] ].

(** That store as the component sees it. *)
Definition seen : MedicationContext :=
  mkContext
    [ mkMedication "Metformin" "500mg" (mkSchedule "weekly" ["08:00"]) ]
    [ mkLog "Metformin" "2026-11-03T08:01:00.000Z" taken ].

End Snapshot.

(* ================================================================== *)
(** * The smart schedule action: getSmartScheduleSuggestions *)
(* ================================================================== *)

Module SmartSchedule.

Local Open Scope string_scope.

Definition SmartScheduleActionInput : schema :=
  z_object
    [ ("medicationName", z_string 0);
      ("dosage", z_string 0);
      ("currentSchedule", z_optional (z_array (z_string 0)));
      ("intakeLogs",
        z_array (z_object [ ("date", z_string 0); ("time", z_string 0) ]));
      ("userNeeds", z_string 0) ].

(** What the action resolves to: the result of the flow, or [{error}]. *)
Inductive schedule_result : Type :=
| Suggestions (result : value)
| ScheduleError (error : string).

(** What the action does besides returning: its calls of the flow and its
    lines on the console. *)
Record Trace : Type := mkTrace {
  flow_calls : list value;
  console : list effect
}.

(** [suggestOptimalSchedule], of [@/ai/flows/smart-schedule-suggestions], is
    not among the sources: the action is modelled for every such flow,
    given as what its awaited call does on each input. *)
Definition getSmartScheduleSuggestions
    (suggestOptimalSchedule : value -> outcome value) (input : value)
  : outcome schedule_result * Trace :=
  match safeParse SmartScheduleActionInput input with
  | None =>
      (Throw "Invalid input.",
       mkTrace [] [ConsoleError "Invalid input for smart schedule:" "ZodError"])
  | Some data =>
      match suggestOptimalSchedule data with
      | Return result => (Return (Suggestions result), mkTrace [data] [])
      | Throw e =>
          (Return (ScheduleError "Failed to generate suggestions. Please try again."),
           mkTrace [data]
             [ConsoleError "Error getting smart schedule suggestions:" e])
      end
  end.

End SmartSchedule.

(* ================================================================== *)
(** * The controls of the component *)
(* ================================================================== *)

Module Controls.

Local Open Scope string_scope.

(** [disabled={!input.trim() || isPending}] of the send button. *)
Definition sendDisabled (s : State) : bool :=
  negb (truthy_string (trim (input s))) || isPending s.

(** [disabled={isPending}] of the textarea. *)
Definition textareaDisabled (s : State) : bool := isPending s.

(** [handleKeyDown(e)]: the result of [handleSend()] when it is called, and
    whether [preventDefault] was called. *)
Definition handleKeyDown {RT : DateRuntime} (store : MedicationContext) (now : Z)
    (s : State) (key : string) (shiftKey : bool) : (State * option value) * bool :=
  if String.eqb key "Enter" && negb shiftKey
  then (handleSend store now s None, true)
  else ((s, None), false).

(** The chips under a message: [message.suggestions && length > 0]. *)
Definition message_chips (m : Message) : list string :=
  match Assistant.suggestions m with
  | Some l => l
  | None => []
  end.

(** The suggestion chips on the screen: the default chips of the page on
    an empty transcript, the chips of every message otherwise. *)
Definition visibleChips (s : State) : list string :=
  match messages s with
  | [] => defaultSuggestions (Assistant.pageContext (pathname s))
  | _ :: _ => flat_map message_chips (messages s)
  end.

Definition is_navigate (e : event) : bool :=
  match e with Navigate _ => true | _ => false end.

(** The turns of a user carry a text and no suggestions. *)
Definition user_turn_ok (m : Message) : bool :=
  match role m with
  | user =>
      truthy_string (content m)
      && match Assistant.suggestions m with None => true | Some _ => false end
  | assistant => true
  end.

(** The invariant of the transcript: the turns of the user carry a text and
    no suggestions, and the input is empty while a reply is awaited. *)
Definition tidy (x : Session) : Prop :=
  Forall (fun m => user_turn_ok m = true) (messages (ui x))
  /\ (isPending (ui x) = true -> input (ui x) = EmptyString).

(** Whose turn the message of index [i] is, in a transcript that the user
    opens. *)
Definition turn (i : nat) : Role := if Nat.even i then user else assistant.

(** The turns alternate, and a reply is awaited exactly when the last turn
    is the user's. *)
Definition in_turn (x : Session) : Prop :=
  isPending (ui x) = Nat.odd (List.length (messages (ui x)))
  /\ forall i m, nth_error (messages (ui x)) i = Some m -> role m = turn i.

End Controls.

(* ================================================================== *)
(** * The chart: AdherenceChart *)
(* ================================================================== *)

Module Chart.

Local Open Scope string_scope.

(** A medication of the store as the chart reads it. The store's types are
    not among the sources; the chart reads, besides [schedule.frequency] and
    [schedule.times], the field [schedule.days] through
    [med.schedule.days?.includes(date.getDay())]: a list of week days that
    may be absent. *)
Record ScheduledMedication : Type := mkScheduled {
  medication : Medication;
  days : option (list Z)
}.

(** The further [Date] operations that the chart uses, on valid dates.
    [Date_toLocaleDateString t] is
    [toLocaleDateString('en-US', {month: 'short', day: 'numeric'})]. *)
Class CalendarRuntime : Type := {
  Date_getMonth : Z -> Z;
  Date_getFullYear : Z -> Z;
  Date_getDay : Z -> Z;
  Date_toLocaleDateString : Z -> string
}.

Record Bar : Type := mkBar {
  day : string;
  taken : Z;
  scheduled : Z
}.

Section WithRuntime.

Context {RT : DateRuntime} {CT : CalendarRuntime}.

(** [med.schedule.frequency === 'daily' || med.schedule.days?.includes(date.getDay())] *)
Definition isScheduledToday (date : Z) (med : ScheduledMedication) : bool :=
  String.eqb (frequency (schedule (medication med))) "daily"
  || match days med with
     | Some ds => existsb (Z.eqb (Date_getDay date)) ds
     | None => false
     end.

Definition scheduledDoses (date : Z) (meds : list ScheduledMedication) : Z :=
  fold_left
    (fun total med =>
       if isScheduledToday date med
       then total + Z.of_nat (List.length (times (schedule (medication med))))
       else total)
    meds 0.

(** The filter of [takenDoses]; the getters of an invalid date give NaN,
    which equals nothing. *)
Definition taken_on (date : Z) (log : Log) : bool :=
  match Date_parse (Store.time log) with
  | Some logDate =>
      (Date_getDate logDate =? Date_getDate date)%Z
      && (Date_getMonth logDate =? Date_getMonth date)%Z
      && (Date_getFullYear logDate =? Date_getFullYear date)%Z
      && is_taken (Store.status log)
  | None => false
  end.

Definition takenDoses (date : Z) (logs : list Log) : Z :=
  Z.of_nat (List.length (filter (taken_on date) logs)).

(** The entry of index [i]: the day [i] days before today. *)
Definition entry (now : Z) (meds : list ScheduledMedication) (logs : list Log)
    (i : Z) : Bar :=
  let date := Date_setDate now (Date_getDate now - i) in
  mkBar (Date_toLocaleDateString date) (takenDoses date logs)
    (scheduledDoses date meds).

(** [Array.from({ length: 30 }).map((_, i) => ...).reverse()] *)
Definition data (now : Z) (meds : list ScheduledMedication) (logs : list Log)
  : list Bar :=
  rev (map (fun i => entry now meds logs (Z.of_nat i)) (seq 0 30)).

End WithRuntime.

(** [med.schedule.times.length] *)
Definition doses (med : ScheduledMedication) : Z :=
  Z.of_nat (List.length (times (schedule (medication med)))).

(** The calendar of a runtime whose local time zone is UTC, for the
    concrete runs: months count from 0, [getDay] gives 0 on a Sunday, and
    the short date reads like [Nov 3]. *)
Definition utc_getMonth (t : Z) : Z :=
  let '(_, m, _) := UTC.civil_from_days (UTC.Day t) in m - 1.

Definition utc_getFullYear (t : Z) : Z :=
  let '(y, _, _) := UTC.civil_from_days (UTC.Day t) in y.

Definition utc_getDay (t : Z) : Z := (UTC.Day t + 4) mod 7.

Definition utc_toLocaleDateString (t : Z) : string :=
  let '(_, m, d) := UTC.civil_from_days (UTC.Day t) in
  UTC.month_name m ++ " "
  ++ (if (d <? 10)%Z then EmptyString else UTC.digit (d / 10)) ++ UTC.digit d.

Definition utc : CalendarRuntime := {|
  Date_getMonth := utc_getMonth;
  Date_getFullYear := utc_getFullYear;
  Date_getDay := utc_getDay;
  Date_toLocaleDateString := utc_toLocaleDateString
|}.

End Chart.

(* ================================================================== *)
(** * Parsing a shape, key by key *)
(* ================================================================== *)

Module Shape.

(** The loop of an object schema over the keys of its shape, for a parser
    [p] of the values. *)
Fixpoint parse (p : schema -> value -> option value)
    (fields : list (string * value)) (shape : list (string * schema))
  : option (list (string * value)) :=
  match shape with
  | [] => Some []
  | (k, sc) :: rest =>
      match p sc (read k fields), parse p fields rest with
      | Some x, Some r =>
          if is_undefined x && negb (has_key k fields)
          then Some r
          else Some ((k, x) :: r)
      | _, _ => None
      end
  end.

(** The entries that the loop keeps when every value parses. *)
Definition kept (p : schema -> value -> option value)
    (fields : list (string * value)) (shape : list (string * schema))
  : list (string * value) :=
  flat_map
    (fun '(k, sc) =>
       match p sc (read k fields) with
       | Some x =>
           if is_undefined x && negb (has_key k fields) then [] else [(k, x)]
       | None => []
       end)
    shape.

Fixpoint distinct (l : list string) : bool :=
  match l with
  | [] => true
  | a :: rest => negb (existsb (String.eqb a) rest) && distinct rest
  end.

(** No object shape of the schema names a key twice. *)
Fixpoint well_formed (sc : schema) : bool :=
  match sc with
  | z_array item => well_formed item
  | z_optional inner => well_formed inner
  | z_object shape =>
      distinct (map fst shape)
      && (fix all (sh : list (string * schema)) : bool :=
            match sh with
            | [] => true
            | (_, s) :: rest => well_formed s && all rest
            end) shape
  | _ => true
  end.

(** The keys of the input of the assistant's action and flow. *)
Definition action_keys : list string :=
  ["pageContext"; "userMessage"; "medications"; "todayLogs"; "adherenceStats"]%string.

End Shape.

(* ================================================================== *)
(** * Properties of the schemas *)
(* ================================================================== *)

Section ZodFacts.

Lemma forallb_pointwise {A} (f g : A -> bool) (l : list A) :
  (forall a, f a = g a) -> forallb f l = forallb g l.
Proof.
  intros E; induction l as [|a l IH]; cbn; [reflexivity|].
  now rewrite E, IH.
Qed.

Lemma forallb_impl {A} (f g : A -> bool) (l : list A) :
  (forall a, f a = true -> g a = true) ->
  forallb f l = true -> forallb g l = true.
Proof.
  intros E; induction l as [|a l IH]; cbn; [reflexivity|].
  intros H; apply andb_true_iff in H as [Ha Hl].
  now rewrite (E a Ha), (IH Hl).
Qed.

Lemma accepts_string (n : nat) (v : value) :
  accepts (z_string n) v =
  match v with VStr s => (n <=? String.length s)%nat | _ => false end.
Proof.
  unfold accepts; destruct v; cbn; try reflexivity.
  now destruct (n <=? String.length s)%nat.
Qed.

Lemma accepts_number (v : value) :
  accepts z_number v =
  match v with VNum n => negb (is_nan n) | _ => false end.
Proof.
  unfold accepts; destruct v; cbn; try reflexivity.
  now destruct (is_nan n).
Qed.

Lemma accepts_enum (options : list string) (v : value) :
  accepts (z_enum options) v = Spec.is_one_of options v.
Proof.
  unfold accepts; destruct v; cbn; try reflexivity.
  now destruct (existsb (String.eqb s) options).
Qed.

Lemma traverse_forallb {A B} (f : A -> option B) (l : list A) :
  match traverse f l with Some _ => true | None => false end
  = forallb (fun a => match f a with Some _ => true | None => false end) l.
Proof.
  induction l as [|a l IH]; cbn; [reflexivity|].
  destruct (f a); cbn; [|reflexivity].
  rewrite <- IH. now destruct (traverse f l).
Qed.

Lemma accepts_array (item : schema) (v : value) :
  accepts (z_array item) v =
  match v with VArr items => forallb (accepts item) items | _ => false end.
Proof.
  unfold accepts; destruct v; cbn; try reflexivity.
  rewrite <- (traverse_forallb (safeParse item) items).
  now destruct (traverse (safeParse item) items).
Qed.

Lemma accepts_optional (inner : schema) (v : value) :
  accepts (z_optional inner) v = is_undefined v || accepts inner v.
Proof. unfold accepts; destruct v; reflexivity. Qed.

Lemma accepts_object (shape : list (string * schema)) (v : value) :
  accepts (z_object shape) v =
  match v with
  | VObj fields => forallb (fun '(k, sc) => accepts sc (read k fields)) shape
  | _ => false
  end.
Proof.
  unfold accepts; destruct v; cbn; try reflexivity.
  induction shape as [|[k sc] shape IH]; cbn; [reflexivity|].
  destruct (safeParse sc (read k fields)) as [x|]; cbn; [|reflexivity].
  rewrite <- IH; clear IH.
  match goal with
  | |- context [option_map VObj (match ?r with Some _ => _ | None => _ end)] =>
      destruct r as [r'|]
  end; cbn; [|reflexivity].
  now destruct (is_undefined x && negb (has_key k fields)).
Qed.

End ZodFacts.

Create Rewrite HintDb zod.
#[local] Hint Rewrite accepts_string accepts_number accepts_enum accepts_array
  accepts_optional accepts_object : zod.

(* ================================================================== *)
(** * The response validator (C1) *)
(* ================================================================== *)

Section Validator.

Local Open Scope string_scope.

Lemma string_entries_strings_of (items : list value) :
  string_entries items = Spec.strings_of items.
Proof.
  unfold string_entries, Spec.strings_of.
  induction items as [|v items IH]; cbn; [reflexivity|].
  destruct v; cbn; rewrite IH; reflexivity.
Qed.

Lemma traverse_strings (f : value -> option value) (items items' : list value) :
  (forall v, f v = match v with VStr _ => Some v | _ => None end) ->
  traverse f items = Some items' ->
  items' = items /\ map VStr (string_entries items) = items.
Proof.
  intros Hf. revert items'; induction items as [|v items IH]; intros items' H.
  - cbn in H. now inversion H.
  - cbn [traverse] in H. rewrite Hf in H.
    destruct (traverse f items) as [l|].
    + destruct (IH l eq_refl) as [-> E].
      destruct v; cbn in H; try discriminate.
      inversion H; subst. unfold string_entries in *; cbn. now rewrite E.
    + destruct v; discriminate.
Qed.

Lemma output_schema_accepts (v : value) :
  accepts GlobalAssistantOutputSchema v = Spec.has_output_shape v.
Proof.
  unfold GlobalAssistantOutputSchema, Spec.has_output_shape.
  autorewrite with zod.
  destruct v; try reflexivity. cbn [forallb Spec.is_object Spec.field andb].
  autorewrite with zod. rewrite andb_true_r. unfold Spec.optional.
  apply (f_equal2 andb); [now destruct (read "response" fields)|].
  apply (f_equal2 orb); [reflexivity|].
  destruct (read "suggestions" fields); try reflexivity.
  cbn. apply forallb_pointwise. intros a. autorewrite with zod. now destruct a.
Qed.

(** Data that the output schema accepted is read without loss. *)
Lemma output_of_data_exact (v data : value) :
  safeParse GlobalAssistantOutputSchema v = Some data ->
  VStr (response (output_of_data data)) = Spec.field "response" v
  /\ Spec.suggestions_field (Flow.suggestions (output_of_data data))
     = Spec.field "suggestions" v.
Proof.
  destruct v; try discriminate. cbn.
  destruct (read "response" fields) as [| | | |r| |]; try discriminate. cbn.
  destruct (read "suggestions" fields) as [| | | | |items|] eqn:Es;
    try discriminate; cbn.
  - destruct (negb (has_key "suggestions" fields)); cbn;
      intros H; inversion H; subst; cbn; auto.
  - match goal with
    | |- context [traverse ?f items] => destruct (traverse f items) as [l|] eqn:Et
    end; [|discriminate]. cbn.
    apply traverse_strings in Et as [-> E]; [|now intros []].
    intros H; inversion H; subst; cbn. now rewrite E.
Qed.

(** The salvage path of the code computes the salvage of the
    specification, or throws on [null], which the handler turns into the
    same output. *)
Lemma salvage_path (content : string) (parsed : value) :
  try_catch
    (r <- get_prop parsed "response" ;;
     resp <- match r with
             | VStr s => Return s
             | _ =>
                 a <- get_prop parsed "answer" ;;
                 Return (match a with VStr s => s | _ => content end)
             end ;;
     sg <- get_prop parsed "suggestions" ;;
     Return (mkOutput resp
               (match sg with
                | VArr items => Some (string_entries items)
                | _ => None
                end)))
    (Return (mkOutput content None))
  = Return (Spec.salvaged content parsed).
Proof.
  unfold Spec.salvaged.
  destruct parsed; cbn; try reflexivity.
  unfold read.
  destruct (lookup "response" fields) as [[]|]; cbn;
    destruct (lookup "answer" fields) as [[]|]; cbn;
    destruct (lookup "suggestions" fields) as [[]|]; cbn;
    rewrite ?string_entries_strings_of; reflexivity.
Qed.

(** C1. For every raw response text the validator and repairer returns an
    output and never throws. If [JSON.parse] throws, the output is the raw
    text with no suggestions. If the text parses and has the shape
    [{response: string, suggestions?: array of strings}], the output is
    that object: its response and its suggestions are the parsed fields,
    unchanged. If the text parses and fails the shape, the response is the
    parsed [response] if it is a string, else the parsed [answer] if it is
    a string, else the raw text, and the suggestions are the string entries
    of the parsed [suggestions], in order, when that is an array, and are
    absent otherwise. This holds for every [JSON.parse]. *)
Theorem validate_never_throws_three_tiers (srv : Server) (content : string) :
  exists out : GlobalAssistantOutput,
    validate srv content = Return out
    /\ match JSON_parse srv content with
       | None => out = mkOutput content None
       | Some parsed =>
           if Spec.has_output_shape parsed
           then VStr (response out) = Spec.field "response" parsed
                /\ Spec.suggestions_field (Flow.suggestions out)
                   = Spec.field "suggestions" parsed
           else out = Spec.salvaged content parsed
       end.
Proof.
  unfold validate, validate_body.
  destruct (JSON_parse srv content) as [parsed|]; cbn [try_catch].
  - rewrite <- output_schema_accepts. unfold accepts.
    destruct (safeParse GlobalAssistantOutputSchema parsed) as [data|] eqn:E.
    + exists (output_of_data data). split; [reflexivity|].
      now apply output_of_data_exact.
    + exists (Spec.salvaged content parsed). split; [|reflexivity].
      apply salvage_path.
  - exists (mkOutput content None). split; reflexivity.
Qed.

End Validator.

Section ValidatorRuns.

Local Open Scope string_scope.

(** The three tiers on texts, with the reference [JSON.parse]. *)
Lemma validate_well_formed :
  validate Run.server Run.content
  = Return (mkOutput "You took 6 of 8 doses." (Some ["How can I improve?"])).
Proof. vm_compute. reflexivity. Qed.

Lemma validate_answer_field :
  validate Run.server Run.content_answer
  = Return (mkOutput "Take with food" None).
Proof. vm_compute. reflexivity. Qed.

Lemma validate_not_json :
  validate Run.server "not json at all"
  = Return (mkOutput "not json at all" None).
Proof. vm_compute. reflexivity. Qed.

Lemma validate_mixed_suggestions :
  validate Run.server Run.content_mixed
  = Return (mkOutput "ok" (Some ["a"; "b"])).
Proof. vm_compute. reflexivity. Qed.

(** [null] parses, fails the shape, and reading a property of it throws
    inside the [try]: the handler returns the raw text. *)
Lemma validate_null :
  Json.parse "null" = Some VNull
  /\ validate_body Run.server "null" = Throw "TypeError"
  /\ validate Run.server "null" = Return (mkOutput "null" None).
Proof. repeat split. Qed.

End ValidatorRuns.

(* ================================================================== *)
(** * Properties of the numbers *)
(* ================================================================== *)

Section NumberFacts.

Lemma iter_pos_invariant {A} (P : A -> Prop) (f : A -> A) :
  (forall a, P a -> P (f a)) ->
  forall p a, P a -> P (iter_pos f p a).
Proof.
  intros Hf; induction p as [p IH|p IH|]; intros a Ha; cbn; auto.
Qed.

Lemma shr_1_nonneg (mrs : shr_record) :
  0 <= shr_m mrs -> 0 <= shr_m (shr_1 mrs).
Proof.
  destruct mrs as [m r s]; cbn.
  destruct m as [|[p|p|]|[p|p|]]; cbn; lia.
Qed.

Lemma shr_nonneg (mrs : shr_record) (e n : Z) :
  0 <= shr_m mrs -> 0 <= shr_m (fst (shr mrs e n)).
Proof.
  intros H; destruct n; cbn; auto.
  apply (iter_pos_invariant (fun r => 0 <= shr_m r)); auto using shr_1_nonneg.
Qed.

Lemma shr_fexp_nonneg (m e : Z) (l : location) :
  0 <= m -> 0 <= shr_m (fst (shr_fexp prec emax m e l)).
Proof.
  intros H; unfold shr_fexp; apply shr_nonneg.
  destruct l as [|[]]; exact H.
Qed.

Lemma round_nearest_even_nonneg (m : Z) (l : location) :
  0 <= m -> 0 <= round_nearest_even m l.
Proof.
  intros H; destruct l as [|[]]; cbn; try lia.
  destruct (Z.even m); lia.
Qed.

(** Rounding a non-negative mantissa never gives NaN. *)
Lemma binary_round_aux_not_nan (s : bool) (m e : Z) (l : location) :
  0 <= m -> is_nan (binary_round_aux prec emax s m e l) = false.
Proof.
  intros H; unfold binary_round_aux.
  pose proof (shr_fexp_nonneg m e l H) as H1.
  destruct (shr_fexp prec emax m e l) as [mrs' e']; cbn [fst] in H1.
  pose proof (shr_fexp_nonneg _ e' loc_Exact
                (round_nearest_even_nonneg _ (loc_of_shr_record mrs') H1)) as H2.
  destruct (shr_fexp prec emax _ e' loc_Exact) as [mrs'' e'']; cbn [fst] in H2.
  destruct (shr_m mrs''); [reflexivity| |lia].
  now destruct (e'' <=? emax - prec).
Qed.

Lemma binary_normalize_not_nan (m e : Z) (sz : bool) :
  is_nan (binary_normalize prec emax m e sz) = false.
Proof.
  destruct m; cbn; [reflexivity| |]; unfold binary_round;
    destruct (shl_align _ _ _); apply binary_round_aux_not_nan; lia.
Qed.

Lemma num_of_Z_not_nan (n : Z) : is_nan (num_of_Z n) = false.
Proof. apply binary_normalize_not_nan. Qed.

Lemma Math_round_not_nan (x : number) :
  is_nan x = false -> is_nan (Math_round x) = false.
Proof.
  destruct x; cbn; auto. intros _.
  destruct (0 <=? e); [reflexivity|]. apply binary_normalize_not_nan.
Qed.

Lemma num_mul_finite_not_nan (x : number) (s : bool) (m : positive) (e : Z) :
  is_nan x = false -> is_nan (num_mul x (S754_finite s m e)) = false.
Proof.
  destruct x; cbn; auto. intros _.
  apply binary_round_aux_not_nan; lia.
Qed.

Lemma num_div_finite_not_nan (x : number) (s : bool) (m : positive) (e : Z) :
  match x with S754_zero _ | S754_finite _ _ _ => True | _ => False end ->
  is_nan (num_div x (S754_finite s m e)) = false.
Proof.
  destruct x as [| | |sx mx ex]; cbn; try tauto. intros _.
  unfold SFdiv_core_binary.
  set (m' := match _ with Z0 => _ | Zpos _ => _ | Zneg _ => _ end).
  assert (0 <= m') as Hm'.
  { subst m'. match goal with |- 0 <= match ?s with _ => _ end =>
      destruct s eqn:Es end; try lia.
    apply Z.shiftl_nonneg; lia. }
  pose proof (Z_div_mod m' (Zpos m) eq_refl) as Hd.
  destruct (Z.div_eucl m' (Zpos m)) as [q r].
  apply binary_round_aux_not_nan. nia.
Qed.

Lemma digits2_pos_size (p : positive) : digits2_pos p = Pos.size p.
Proof. induction p; cbn; congruence. Qed.

Lemma digits2_pos_iter_xO (p k : positive) :
  digits2_pos (Pos.iter xO p k) = (digits2_pos p + k)%positive.
Proof.
  induction k using Pos.peano_ind.
  - cbn. lia.
  - rewrite Pos.iter_succ. cbn. rewrite IHk. lia.
Qed.

Lemma digits2_pos_bound (p : positive) :
  Zpos p < 2 ^ 53 -> Zpos (digits2_pos p) <= 53.
Proof.
  intros H. rewrite digits2_pos_size.
  pose proof (Pos.size_le p) as Hle.
  assert (2 ^ Zpos (Pos.size p) <= 2 * Zpos p) as Hz.
  { change 2 with (Zpos 2) at 1. rewrite <- Pos2Z.inj_pow.
    change (2 * Zpos p) with (Zpos p~0). now apply Pos2Z.pos_le_pos. }
  assert (2 ^ Zpos (Pos.size p) < 2 ^ 54) as Hlt.
  { change (2 ^ 54) with (2 * 2 ^ 53). lia. }
  apply Z.pow_lt_mono_r_iff in Hlt; lia.
Qed.

(** An integer below [2^53] is a Number of its own. *)
Lemma num_of_Z_finite (n : Z) :
  0 < n < 2 ^ 53 -> exists m e, num_of_Z n = S754_finite false m e.
Proof.
  intros [Hpos Hlt]. destruct n as [|p|p]; try lia.
  pose proof (digits2_pos_bound p Hlt) as Hd.
  unfold num_of_Z, binary_normalize, binary_round.
  assert (fexp prec emax (Zpos (digits2_pos p) + 0) = Zpos (digits2_pos p) - 53)
    as ->.
  { unfold fexp, SpecFloat.emin, prec, emax. lia. }
  assert (exists mz ez,
             shl_align p 0 (Zpos (digits2_pos p) - 53) = (mz, ez)
             /\ Zpos (digits2_pos mz) + ez = Zpos (digits2_pos p)
             /\ ez = Zpos (digits2_pos p) - 53) as (mz & ez & -> & Hdig & Hez).
  { unfold shl_align.
    destruct (Zpos (digits2_pos p) - 53 - 0) as [|k|k] eqn:Ek; try lia.
    - exists p, 0. repeat split; lia.
    - exists (Pos.iter xO p k), (Zpos (digits2_pos p) - 53).
      repeat split. rewrite digits2_pos_iter_xO. lia. }
  unfold binary_round_aux.
  assert (forall l, l = loc_Exact ->
            shr_fexp prec emax (Zpos mz) ez l
            = (Build_shr_record (Zpos mz) false false, ez)) as Hshr.
  { intros l ->. unfold shr_fexp, shr. cbn [Zdigits2 shr_record_of_loc].
    replace (fexp prec emax (Zpos (digits2_pos mz) + ez) - ez) with 0;
      [reflexivity|].
    rewrite Hdig. unfold fexp, SpecFloat.emin, prec, emax. lia. }
  rewrite (Hshr _ eq_refl). cbn [shr_m loc_of_shr_record round_nearest_even].
  rewrite (Hshr _ eq_refl). cbn [shr_m].
  replace (ez <=? emax - prec) with true;
    [eauto | symmetry; apply Z.leb_le; unfold emax, prec; lia].
Qed.

(** The adherence rate of counts below [2^53] is not NaN. *)
Lemma rate_not_nan (taken scheduled : Z) :
  0 <= taken < 2 ^ 53 -> 0 < scheduled < 2 ^ 53 ->
  is_nan (Math_round (num_mul (num_div (num_of_Z taken) (num_of_Z scheduled))
                        (num_of_Z 100))) = false.
Proof.
  intros Ht Hs. apply Math_round_not_nan.
  change (num_of_Z 100) with (S754_finite false 7036874417766400 (-46)).
  apply num_mul_finite_not_nan.
  destruct (num_of_Z_finite scheduled Hs) as (ms & es & ->).
  apply num_div_finite_not_nan.
  destruct (Z.eq_dec taken 0) as [->|Hne]; [exact I|].
  destruct (num_of_Z_finite taken ltac:(lia)) as (mt & et & ->). exact I.
Qed.

End NumberFacts.

(* ================================================================== *)
(** * The schema of the server action *)
(* ================================================================== *)

Section ServerAction.

Local Open Scope string_scope.

Lemma accepted_medication (m : value) :
  accepts medication_shape m = true -> Spec.conforms_medication m = true.
Proof.
  unfold medication_shape, Spec.conforms_medication.
  autorewrite with zod. destruct m; try discriminate.
  cbn [forallb Spec.is_object Spec.field andb]. autorewrite with zod.
  rewrite andb_true_r.
  destruct (read "name" fields); try discriminate.
  destruct (read "dosage" fields); try discriminate.
  destruct (read "schedule" fields) as [| | | | | |sched]; try discriminate.
  cbn [forallb Spec.is_object Spec.is_string Spec.field andb Nat.leb].
  autorewrite with zod. rewrite andb_true_r.
  destruct (read "frequency" sched); try discriminate.
  destruct (read "times" sched); try discriminate.
  cbn [Spec.is_string Spec.is_list_of andb Nat.leb].
  apply forallb_impl. intros a. autorewrite with zod. now destruct a.
Qed.

Lemma accepted_log (l : value) :
  accepts log_shape l = true -> Spec.conforms_log l = true.
Proof.
  unfold log_shape, Spec.conforms_log.
  autorewrite with zod. destruct l; try discriminate.
  cbn [forallb Spec.is_object Spec.field andb]. autorewrite with zod.
  rewrite andb_true_r.
  destruct (read "medicationName" fields); try discriminate.
  destruct (read "time" fields); try discriminate.
  cbn [Spec.is_string andb Nat.leb]. auto.
Qed.

Lemma accepted_stats (s : value) :
  accepts stats_shape s = true -> Spec.conforms_stats s = true.
Proof.
  unfold stats_shape, Spec.conforms_stats.
  autorewrite with zod. destruct s; try discriminate.
  cbn [forallb Spec.is_object Spec.field andb]. autorewrite with zod.
  rewrite andb_true_r.
  destruct (read "totalScheduled" fields); try discriminate.
  destruct (read "totalTaken" fields); try (rewrite andb_false_r; discriminate).
  destruct (read "adherenceRate" fields);
    try (rewrite !andb_false_r; discriminate).
  reflexivity.
Qed.

(** What the action's schema accepts has the documented shapes. *)
Lemma accepted_conforms (input : value) :
  accepts GlobalAssistantActionInput input = true -> Spec.conforms input = true.
Proof.
  unfold GlobalAssistantActionInput, Spec.conforms.
  autorewrite with zod. destruct input; try discriminate.
  cbn [forallb Spec.is_object Spec.field andb]. autorewrite with zod.
  rewrite andb_true_r. unfold Spec.optional.
  intros H. repeat (apply andb_true_iff in H as [? H]).
  repeat (apply andb_true_iff; split); auto.
  - match goal with
    | E : match read "userMessage" fields with _ => _ end = true |- _ =>
        destruct (read "userMessage" fields) as [| | | |s| |]; try discriminate;
        now destruct s
    end.
  - destruct (read "medications" fields); try discriminate.
    eapply forallb_impl; [|eassumption]. apply accepted_medication.
  - match goal with
    | E : is_undefined (read "todayLogs" fields) || _ = true |- _ =>
        apply orb_true_iff in E as [E|E]; [now rewrite E|]
    end.
    destruct (read "todayLogs" fields); try discriminate.
    apply orb_true_iff; right.
    eapply forallb_impl; [|eassumption]. apply accepted_log.
  - apply orb_true_iff in H as [H|H]; [now rewrite H|].
    apply orb_true_iff; right. now apply accepted_stats.
Qed.

End ServerAction.


(* ================================================================== *)
(** * The requests that the component builds *)
(* ================================================================== *)

Section Requests.

Local Open Scope string_scope.

Context {RT : DateRuntime}.

(** An object that has the keys of the shape, each with a value that the
    key's schema returns as it is, is parsed to the shape's keys. *)
Lemma safeParse_object_keys (shape : list (string * schema))
    (fields : list (string * value)) :
  Forall (fun '(k, sc) =>
            safeParse sc (read k fields) = Some (read k fields)
            /\ has_key k fields = true) shape ->
  safeParse (z_object shape) (VObj fields)
  = Some (VObj (map (fun '(k, _) => (k, read k fields)) shape)).
Proof.
  intros H. cbn.
  induction H as [|[k sc] shape [Hk Hh] _ IH]; cbn; [reflexivity|].
  rewrite Hk, Hh, andb_false_r.
  match type of IH with
  | option_map VObj ?r = _ => destruct r as [r'|]; [|discriminate]
  end.
  cbn in IH |- *. now inversion IH.
Qed.

Lemma safeParse_array_fixed (item : schema) (items : list value) :
  Forall (fun v => safeParse item v = Some v) items ->
  safeParse (z_array item) (VArr items) = Some (VArr items).
Proof.
  intros H. cbn.
  assert (traverse (safeParse item) items = Some items) as ->; [|reflexivity].
  induction H as [|v items Hv _ IH]; cbn; [reflexivity|].
  now rewrite Hv, IH.
Qed.

Lemma Forall_map_fixed {A} (item : schema) (g : A -> value) (l : list A) :
  (forall a, safeParse item (g a) = Some (g a)) ->
  Forall (fun v => safeParse item v = Some v) (map g l).
Proof. intros H; induction l; cbn; constructor; auto. Qed.

Ltac keys :=
  repeat constructor; cbn [read lookup has_key String.eqb Ascii.eqb Bool.eqb];
  try reflexivity.

Lemma medication_value_fixed (m : Medication) :
  safeParse medication_shape (medication_value m) = Some (medication_value m).
Proof.
  unfold medication_shape, medication_value.
  rewrite safeParse_object_keys; [reflexivity|]. keys.
  rewrite safeParse_object_keys; [reflexivity|]. keys.
  apply safeParse_array_fixed, Forall_map_fixed. reflexivity.
Qed.

Lemma log_value_fixed (l : Log) :
  safeParse log_shape (log_value l) = Some (log_value l).
Proof.
  unfold log_shape, log_value.
  rewrite safeParse_object_keys; [reflexivity|]. keys.
  now destruct (status l).
Qed.

Lemma filter_length_bound {A} (f : A -> bool) (l : list A) :
  (List.length (filter f l) <= List.length l)%nat.
Proof.
  induction l as [|a l IH]; cbn; [lia|]. destruct (f a); cbn; lia.
Qed.

Lemma stats_value_fixed (now : Z) (logs : list Log) :
  Z.of_nat (List.length logs) < 2 ^ 53 ->
  safeParse stats_shape (stats_value (calculateAdherenceStats now logs))
  = Some (stats_value (calculateAdherenceStats now logs)).
Proof.
  intros Hlen. unfold stats_shape, stats_value.
  rewrite safeParse_object_keys; [reflexivity|]. keys.
  - cbn [safeParse]. now rewrite num_of_Z_not_nan.
  - cbn [safeParse]. now rewrite num_of_Z_not_nan.
  - cbn [safeParse]. unfold calculateAdherenceStats. cbn [adherenceRate].
    set (recent := filter _ logs).
    pose proof (filter_length_bound (fun log => is_taken (status log)) recent).
    pose proof (filter_length_bound
                  (is_recent (Date_setDate now (Date_getDate now - 30))) logs).
    fold recent in H0.
    rewrite rate_not_nan; [reflexivity|lia|].
    destruct (Z.eqb_spec (Z.of_nat (List.length recent)) 0); lia.
Qed.

Lemma request_of_fixed (n : nat) (store : MedicationContext) (now : Z)
    (s : State) (text : string) :
  (n <= 1)%nat ->
  truthy_string text = true ->
  Z.of_nat (List.length (ctx_logs store)) < 2 ^ 53 ->
  safeParse (input_schema n) (request_of store now s text)
  = Some (request_of store now s text).
Proof.
  intros Hn Ht Hlen. unfold input_schema, request_of.
  rewrite safeParse_object_keys; [reflexivity|]. keys.
  - now destruct (pageContext (pathname s)).
  - cbn [safeParse]. destruct text; [discriminate|].
    destruct n as [|[|n]]; try lia; reflexivity.
  - apply safeParse_array_fixed, Forall_map_fixed, medication_value_fixed.
  - cbn [safeParse]. unfold getTodayLogs.
    apply safeParse_array_fixed, Forall_map_fixed, log_value_fixed.
  - cbn [safeParse].
    destruct (stats_value (calculateAdherenceStats now (ctx_logs store))) eqn:E;
      try discriminate E.
    rewrite <- E. now apply stats_value_fixed.
Qed.

(** Every request that [handleSend] dispatches passes the schema of the
    action and the schema of the flow, unchanged. *)
Lemma dispatched_request_valid (store : MedicationContext) (now : Z)
    (s s' : State) (messageText : option string) (request : value) :
  Z.of_nat (List.length (ctx_logs store)) < 2 ^ 53 ->
  handleSend store now s messageText = (s', Some request) ->
  safeParse GlobalAssistantActionInput request = Some request
  /\ safeParse GlobalAssistantInputSchema request = Some request
  /\ systemPrompt_for request = VStr (systemPrompts (pageContext (pathname s))).
Proof.
  intros Hlen H. unfold handleSend in H.
  set (text := match messageText with
               | Some m => if truthy_string m then m else trim (input s)
               | None => trim (input s)
               end) in H.
  destruct (truthy_string text) eqn:Et; cbn in H; [|discriminate].
  destruct (isPending s); [discriminate|].
  inversion H; subst s' request; clear H.
  split; [|split].
  - apply (request_of_fixed 1); auto.
  - apply (request_of_fixed 0); auto.
  - cbn. now destruct (pageContext (pathname s)).
Qed.

End Requests.

(* ================================================================== *)
(** * Invalid input (C7) *)
(* ================================================================== *)

Section InvalidInput.

Local Open Scope string_scope.

(** Every request that the component dispatches has the documented
    shapes. *)
Lemma dispatched_request_conforms {RT : DateRuntime}
    (store : MedicationContext) (now : Z) (s s' : State)
    (messageText : option string) (request : value) :
  Z.of_nat (List.length (ctx_logs store)) < 2 ^ 53 ->
  handleSend store now s messageText = (s', Some request) ->
  Spec.conforms request = true.
Proof.
  intros Hlen H. apply accepted_conforms. unfold accepts.
  now destruct (dispatched_request_valid store now s s' messageText request Hlen H)
    as [-> _].
Qed.

(** C7. An input of the inbound call that does not have the documented
    shapes (a page context outside dashboard, medications and reports, an
    empty message, a malformed medication, log or statistics entry) makes
    the call throw the invalid-input error at once: no request goes to the
    provider, and the thrown error is not a returned [{error}] result,
    which is what a provider or runtime failure gives. The action records
    no turn, and a turn that the component records never belongs to such an
    input: every request that it dispatches has the documented shapes. *)
Theorem invalid_input_fails_fast (srv : Server) (input : value) :
  Spec.conforms input = false ->
  getGlobalAssistantResponse srv input
  = (Throw "Invalid input.",
     [ConsoleError "Invalid input for global assistant:" "ZodError"])
  /\ existsb Spec.is_provider_call (snd (getGlobalAssistantResponse srv input)) = false
  /\ (forall error,
        fst (getGlobalAssistantResponse srv input) <> Return (ErrorResult error))
  /\ (forall (RT : DateRuntime) store now s s' messageText,
        Z.of_nat (List.length (ctx_logs store)) < 2 ^ 53 ->
        handleSend store now s messageText <> (s', Some input)).
Proof.
  intros H.
  assert (safeParse GlobalAssistantActionInput input = None) as E.
  { pose proof (accepted_conforms input) as A. unfold accepts in A.
    destruct (safeParse GlobalAssistantActionInput input); [|reflexivity].
    rewrite A in H by reflexivity. discriminate. }
  unfold getGlobalAssistantResponse. rewrite E. cbn.
  repeat split.
  - intros error; discriminate.
  - intros RT store now s s' messageText Hlen Hs.
    rewrite (dispatched_request_conforms store now s s' messageText input Hlen Hs)
      in H.
    discriminate.
Qed.

Lemma invalid_input_fails_fast_witness :
  Spec.conforms Run.input_unknown_page = false
  /\ getGlobalAssistantResponse Run.server Run.input_unknown_page
     = (Throw "Invalid input.",
        [ConsoleError "Invalid input for global assistant:" "ZodError"]).
Proof.
  split; [reflexivity|].
  apply (invalid_input_fails_fast Run.server Run.input_unknown_page).
  reflexivity.
Defined.

(** The empty message and the malformed log entry are refused as well. *)
Lemma invalid_inputs_refused :
  Spec.conforms Run.input_empty_message = false
  /\ Spec.conforms Run.input_malformed_log = false
  /\ fst (getGlobalAssistantResponse Run.server Run.input_empty_message)
     = Throw "Invalid input."
  /\ fst (getGlobalAssistantResponse Run.server Run.input_malformed_log)
     = Throw "Invalid input.".
Proof. repeat split. Qed.

End InvalidInput.

(* ================================================================== *)
(** * The credential (C5) *)
(* ================================================================== *)

Section Credential.

Local Open Scope string_scope.

(** Whatever [askGlobalAssistant] throws, the action returns the same
    [{error}] and writes the thrown message to the console. *)
Lemma action_turns_throw_into_error (srv : Server) (input data : value)
    (e : string) (effects : list effect) :
  safeParse GlobalAssistantActionInput input = Some data ->
  askGlobalAssistant srv data = (Throw e, effects) ->
  getGlobalAssistantResponse srv input
  = (Return (ErrorResult "Failed to get response. Please try again."),
     (effects ++ [ConsoleError "Error getting global assistant response:" e])%list).
Proof.
  intros Hp Ha. unfold getGlobalAssistantResponse. now rewrite Hp, Ha.
Qed.

Lemma missing_key_throws (srv : Server) (data : value) :
  truthy_opt (OPENAI_API_KEY srv) = false ->
  askGlobalAssistant srv data = (Throw "OPENAI_API_KEY is not set.", []).
Proof. intros H; unfold askGlobalAssistant; now rewrite H. Qed.

Lemma failing_provider_throws (srv : Server) (data : value) :
  truthy_opt (OPENAI_API_KEY srv) = true ->
  (forall request,
      exists e, provider srv request = ProviderThrows e) ->
  exists e effects, askGlobalAssistant srv data = (Throw e, effects).
Proof.
  intros Hk Hp. unfold askGlobalAssistant. rewrite Hk. cbn [negb].
  destruct (safeParse GlobalAssistantInputSchema data); [|eauto].
  match goal with |- context [provider srv ?r] => destruct (Hp r) as [e ->] end.
  eauto.
Qed.

(** C5 fails as the specification states it: without the credential the
    action gives
    back what it gives back when the provider is down. *)
Lemma missing_key_is_not_distinct :
  ~ Spec.missing_key_distinct
      Run.server_without_key Run.server_provider_down Run.request.
Proof. intros H; apply H; reflexivity. Qed.

(** C5, amended. When the credential is absent (or empty),
    [askGlobalAssistant] detects it before anything else and throws
    [OPENAI_API_KEY is not set.] without any request to the provider. The
    server action catches that error like every other: for an input that
    it accepts it writes the message to the server console and returns
    [{error: 'Failed to get response. Please try again.'}], which is also
    what it returns when the provider fails. *)
Theorem missing_key_detected_then_generic_error (srv : Server) (input data : value) :
  truthy_opt (OPENAI_API_KEY srv) = false ->
  safeParse GlobalAssistantActionInput input = Some data ->
  askGlobalAssistant srv data = (Throw "OPENAI_API_KEY is not set.", [])
  /\ getGlobalAssistantResponse srv input
     = (Return (ErrorResult "Failed to get response. Please try again."),
        [ConsoleError "Error getting global assistant response:"
           "OPENAI_API_KEY is not set."])
  /\ existsb Spec.is_provider_call (snd (getGlobalAssistantResponse srv input)) = false
  /\ (forall failing : Server,
         truthy_opt (OPENAI_API_KEY failing) = true ->
         (forall request, exists e, provider failing request = ProviderThrows e) ->
         fst (getGlobalAssistantResponse failing input)
         = fst (getGlobalAssistantResponse srv input)).
Proof.
  intros Hk Hp.
  pose proof (missing_key_throws srv data Hk) as Ha.
  pose proof (action_turns_throw_into_error srv input data _ _ Hp Ha) as Hg.
  cbn [app] in Hg.
  split; [exact Ha|]. split; [exact Hg|]. rewrite Hg. split; [reflexivity|].
  intros failing Hk' Hf.
  destruct (failing_provider_throws failing data Hk' Hf) as (e & effects & Hfa).
  now rewrite (action_turns_throw_into_error failing input data _ _ Hp Hfa).
Qed.

Lemma missing_key_detected_then_generic_error_witness :
  truthy_opt (OPENAI_API_KEY Run.server_without_key) = false
  /\ safeParse GlobalAssistantActionInput Run.request = Some Run.request
  /\ getGlobalAssistantResponse Run.server_without_key Run.request
     = (Return (ErrorResult "Failed to get response. Please try again."),
        [ConsoleError "Error getting global assistant response:"
           "OPENAI_API_KEY is not set."]).
Proof.
  split; [reflexivity|]. split; [reflexivity|].
  apply (missing_key_detected_then_generic_error
           Run.server_without_key Run.request Run.request);
    reflexivity.
Defined.

End Credential.

(* ================================================================== *)
(** * The conversation (C2, C3) *)
(* ================================================================== *)

Section ConversationFacts.

Local Open Scope string_scope.

Context {RT : DateRuntime}.
Variable store : MedicationContext.

Lemma handleSend_pending (now : Z) (s : State) (messageText : option string) :
  isPending s = true -> handleSend store now s messageText = (s, None).
Proof. intros H; unfold handleSend; now rewrite H, orb_true_r. Qed.

Lemma handleSend_dispatch (now : Z) (s s' : State)
    (messageText : option string) (request : value) :
  handleSend store now s messageText = (s', Some request) ->
  isPending s = false
  /\ exists text,
       truthy_string text = true
       /\ s' = mkState (pathname s) (messages s ++ [mkMessage user text None])
                 EmptyString true
       /\ request = request_of store now s text.
Proof.
  unfold handleSend.
  set (text := match messageText with
               | Some m => if truthy_string m then m else trim (input s)
               | None => trim (input s)
               end).
  destruct (truthy_string text) eqn:Et; cbn; [|discriminate].
  destruct (isPending s); [discriminate|].
  intros H; inversion H; subst. split; [reflexivity|].
  exists text; auto.
Qed.

Lemma handleSend_outcome (now : Z) (s : State) (messageText : option string) :
  (handleSend store now s messageText = (s, None))
  \/ (exists s' request, handleSend store now s messageText = (s', Some request)).
Proof.
  unfold handleSend.
  match goal with |- context [if ?c then _ else _] => destruct c end; eauto.
Qed.

Lemma single_flight_init (path : string) : single_flight (init path).
Proof. split; cbn; [lia|reflexivity]. Qed.

Lemma single_flight_idle (x : Session) :
  single_flight x -> isPending (ui x) = false -> in_flight x = [].
Proof.
  intros [_ H] Hp. rewrite Hp in H. now destruct (in_flight x).
Qed.

Lemma single_flight_busy (x : Session) :
  single_flight x -> in_flight x <> [] ->
  isPending (ui x) = true /\ exists request, in_flight x = [request].
Proof.
  intros [Hl H] Hne. destruct (in_flight x) as [|r [|r' rest]];
    [congruence| |cbn in Hl; lia].
  split; [exact H|eauto].
Qed.

Lemma submit_step (x : Session) (now : Z) (messageText : option string) :
  single_flight x ->
  let '(s', request) := handleSend store now (ui x) messageText in
  single_flight (mkSession s' (in_flight x ++ dispatched request))
  /\ (isPending (ui x) = true ->
      mkSession s' (in_flight x ++ dispatched request) = x).
Proof.
  intros Hx.
  destruct (handleSend_outcome now (ui x) messageText) as [E|(s' & request & E)];
    rewrite E.
  - cbn [dispatched]. rewrite app_nil_r. destruct x; cbn. auto.
  - apply handleSend_dispatch in E as (Hp & text & _ & -> & _).
    rewrite (single_flight_idle x Hx Hp). cbn.
    split; [split; cbn; [lia|reflexivity]|congruence].
Qed.

Lemma step_single_flight (e : event) (x : Session) :
  single_flight x -> single_flight (step store e x).
Proof.
  intros Hx. destruct e as [text|now|suggestion now|path|reply]; cbn [step].
  - destruct (isPending (ui x)) eqn:Hp; [exact Hx|].
    destruct Hx as [Hl H]. split; cbn; [exact Hl|]. now rewrite <- H.
  - pose proof (submit_step x now None Hx) as H.
    destruct (handleSend store now (ui x) None). apply H.
  - pose proof (submit_step x now (Some suggestion) Hx) as H.
    unfold handleSuggestionClick.
    destruct (handleSend store now (ui x) (Some suggestion)). apply H.
  - destruct (String.eqb path (pathname (ui x))); [exact Hx|].
    destruct Hx as [Hl H]. split; cbn; assumption.
  - destruct Hx as [Hl H].
    destruct (in_flight x) as [|request rest] eqn:E; [split; rewrite ?E; auto|].
    split; cbn; [cbn in Hl; lia|reflexivity].
Qed.

Lemma run_single_flight (es : list event) (x : Session) :
  single_flight x -> single_flight (run store es x).
Proof.
  revert x; induction es as [|e es IH]; intros x Hx; cbn; auto.
  apply IH, step_single_flight, Hx.
Qed.

Lemma reachable_single_flight (x : Session) :
  reachable store x -> single_flight x.
Proof.
  intros (path & es & ->). apply run_single_flight, single_flight_init.
Qed.

(** While a request is in flight, every event but its settling keeps it in
    flight. *)
Lemma step_keeps_request (e : event) (x : Session) (request : value) :
  single_flight x -> in_flight x = [request] -> is_settle e = false ->
  in_flight (step store e x) = [request].
Proof.
  intros Hx E He.
  destruct (single_flight_busy x Hx) as [Hp _]; [congruence|].
  destruct e as [text|now|suggestion now|path|reply]; cbn [step];
    try discriminate.
  - now rewrite Hp.
  - rewrite (handleSend_pending now (ui x) None Hp). cbn. now rewrite app_nil_r.
  - unfold handleSuggestionClick.
    rewrite (handleSend_pending now (ui x) (Some suggestion) Hp). cbn.
    now rewrite app_nil_r.
  - now destruct (String.eqb path (pathname (ui x))).
Qed.

Lemma run_keeps_request (es : list event) (x : Session) (request : value) :
  single_flight x -> in_flight x = [request] -> existsb is_settle es = false ->
  in_flight (run store es x) = [request].
Proof.
  revert x; induction es as [|e es IH]; intros x Hx E Hes; cbn; auto.
  cbn in Hes. apply orb_false_iff in Hes as [He Hes].
  apply IH; auto using step_single_flight, step_keeps_request.
Qed.

Lemma settle_appends (x : Session) (request : value) (reply : server_reply) :
  in_flight x = [request] ->
  step store (Settle reply) x
  = mkSession
      (mkState (pathname (ui x))
         (messages (ui x) ++ [reply_message (call reply request)])
         (input (ui x)) false)
      [].
Proof. intros E; cbn [step]; now rewrite E. Qed.

Lemma reply_message_role (r : outcome action_result) :
  role (reply_message r) = assistant.
Proof. now destruct r as [[]|]. Qed.

Lemma count_role_snoc (r : Role) (ms : list Message) (m : Message) :
  role m = r -> count_role r (ms ++ [m]) = S (count_role r ms).
Proof.
  intros <-. unfold count_role. rewrite filter_app, length_app. cbn.
  destruct (role m); cbn; lia.
Qed.

Lemma count_role_snoc_other (ms : list Message) (m : Message) :
  role m = assistant -> count_role user (ms ++ [m]) = count_role user ms.
Proof.
  intros E. unfold count_role. rewrite filter_app, length_app. cbn.
  rewrite E. cbn. lia.
Qed.

End ConversationFacts.

Section Settlement.

Local Open Scope string_scope.

Context {RT : DateRuntime}.
Variable store : MedicationContext.

Lemma validate_returns (srv : Server) (content : string) :
  exists out, validate srv content = Return out.
Proof.
  unfold validate. destruct (validate_body srv content); cbn; eauto.
Qed.

(** What a server gives back for a request that passes both schemas. *)
Lemma served_valid_request (srv : Server) (request : value) (prompt : string) :
  safeParse GlobalAssistantActionInput request = Some request ->
  safeParse GlobalAssistantInputSchema request = Some request ->
  systemPrompt_for request = VStr prompt ->
  call (Served srv) request =
  if truthy_opt (OPENAI_API_KEY srv) then
    match provider srv (mkRequest "gpt-4o-mini" (VStr prompt) request "json_object") with
    | ProviderThrows _ =>
        Return (ErrorResult "Failed to get response. Please try again.")
    | Completion content =>
        if truthy_opt content then
          match validate srv (match content with Some c => c | None => EmptyString end) with
          | Return out => Return (Output out)
          | Throw _ => Return (ErrorResult "Failed to get response. Please try again.")
          end
        else Return (ErrorResult "Failed to get response. Please try again.")
    end
  else Return (ErrorResult "Failed to get response. Please try again.").
Proof.
  intros Ha Hf Hs. unfold call, getGlobalAssistantResponse. rewrite Ha.
  unfold askGlobalAssistant. rewrite Hf, Hs.
  destruct (truthy_opt (OPENAI_API_KEY srv)); cbn [negb]; [|reflexivity].
  destruct (provider srv _) as [e|content]; [reflexivity|].
  destruct (truthy_opt content); cbn [negb]; [|reflexivity].
  now destruct (validate srv _).
Qed.

(** C2. A dispatched submit (a message that is not empty, no request in
    flight) sets the in-flight flag, and whatever the user does before the
    request settles, its settling appends exactly one turn, of the
    assistant role (and no user turn), and clears the flag: no request
    stays in flight. On
    success the turn carries the validated response and its suggestions.
    When the gateway fails (no credential, the provider call throws, the
    completion has no content) the turn is the fixed message [Sorry, I
    encountered an error. Please try again.]. When the call of the action
    is itself rejected the turn is the distinct fixed message [Sorry,
    something went wrong. Please try again.]. Nothing is thrown to the
    caller: [step] is total. *)
Theorem dispatched_submit_settles_once
    (x : Session) (now : Z) (messageText : option string)
    (s' : State) (request : value) (es : list event) (reply : server_reply) :
  reachable store x ->
  Z.of_nat (List.length (ctx_logs store)) < 2 ^ 53 ->
  handleSend store now (ui x) messageText = (s', Some request) ->
  existsb is_settle es = false ->
  let pending := run store es (mkSession s' (in_flight x ++ [request])) in
  let settled := step store (Settle reply) pending in
  let turn := reply_message (call reply request) in
  isPending (ui pending) = true
  /\ in_flight pending = [request]
  /\ messages (ui settled) = (messages (ui pending) ++ [turn])%list
  /\ role turn = assistant
  /\ count_role assistant (messages (ui settled))
     = S (count_role assistant (messages (ui pending)))
  /\ count_role user (messages (ui settled))
     = count_role user (messages (ui pending))
  /\ isPending (ui settled) = false
  /\ in_flight settled = []
  /\ match reply with
     | CallRejected _ =>
         turn = mkMessage assistant
                  "Sorry, something went wrong. Please try again." None
     | Served srv =>
         if truthy_opt (OPENAI_API_KEY srv) then
           match provider srv
                   (mkRequest "gpt-4o-mini"
                      (VStr (systemPrompts (pageContext (pathname (ui x)))))
                      request "json_object") with
           | ProviderThrows _ =>
               turn = mkMessage assistant
                        "Sorry, I encountered an error. Please try again." None
           | Completion content =>
               if truthy_opt content then
                 exists out,
                   validate srv (match content with
                                 | Some c => c
                                 | None => EmptyString
                                 end) = Return out
                   /\ turn = mkMessage assistant (response out) (Flow.suggestions out)
               else
                 turn = mkMessage assistant
                          "Sorry, I encountered an error. Please try again." None
           end
         else
           turn = mkMessage assistant
                    "Sorry, I encountered an error. Please try again." None
     end.
Proof.
  intros Hr Hlen Hs Hes pending settled turn.
  pose proof (reachable_single_flight store x Hr) as Hx.
  pose proof (submit_step store x now messageText Hx) as Hsub.
  rewrite Hs in Hsub. cbn [dispatched] in Hsub. destruct Hsub as [Hsent _].
  destruct (handleSend_dispatch store now _ _ _ _ Hs) as (Hidle & text & Ht & Es' & Ereq).
  assert (in_flight (mkSession s' (in_flight x ++ [request])) = [request]) as E0.
  { cbn. now rewrite (single_flight_idle x Hx Hidle). }
  pose proof (run_keeps_request store es _ request Hsent E0 Hes) as Ep.
  fold pending in Ep.
  pose proof (run_single_flight store es _ Hsent) as Hpend. fold pending in Hpend.
  destruct (single_flight_busy pending Hpend) as [Hbusy _]; [congruence|].
  pose proof (settle_appends store pending request reply Ep) as Eset.
  fold settled in Eset.
  split; [exact Hbusy|]. split; [exact Ep|].
  split; [now rewrite Eset|]. split; [apply reply_message_role|].
  split; [rewrite Eset; apply count_role_snoc, reply_message_role|].
  split; [rewrite Eset; apply count_role_snoc_other, reply_message_role|].
  split; [now rewrite Eset|]. split; [now rewrite Eset|].
  destruct reply as [srv|reason]; [|reflexivity].
  destruct (dispatched_request_valid store now _ _ _ _ Hlen Hs) as (Ha & Hf & Hp).
  subst turn. rewrite (served_valid_request srv request _ Ha Hf Hp).
  destruct (truthy_opt (OPENAI_API_KEY srv)); [|reflexivity].
  destruct (provider srv _) as [e|content]; [reflexivity|].
  destruct (truthy_opt content); [|reflexivity].
  destruct (validate_returns srv (match content with
                                  | Some c => c
                                  | None => EmptyString
                                  end)) as [out Eo].
  exists out. rewrite Eo. split; reflexivity.
Qed.

(** The two fixed messages differ. *)
Lemma error_turns_distinct :
  reply_message (Return (ErrorResult "Failed to get response. Please try again."))
  <> reply_message (Throw "Invalid input.").
Proof. discriminate. Qed.

(** C3. While a request is in flight, a submit (typed, or the selection of
    a suggestion) changes nothing: the transcript and the draft stay as
    they are and no request is dispatched; and whatever events follow, at
    most one request is in flight. *)
Theorem second_submit_has_no_effect (x : Session) (e : event) :
  reachable store x ->
  in_flight x <> [] ->
  is_submit e = true ->
  step store e x = x
  /\ (forall now messageText,
        handleSend store now (ui x) messageText = (ui x, None))
  /\ (forall es, List.length (in_flight (run store es x)) <= 1)%nat.
Proof.
  intros Hr Hne He.
  pose proof (reachable_single_flight store x Hr) as Hx.
  destruct (single_flight_busy x Hx Hne) as [Hp [request E]].
  assert (step store e x = x) as Es.
  { destruct e as [text|now|suggestion now|path|reply]; try discriminate;
      cbn [step]; unfold handleSuggestionClick;
      rewrite (handleSend_pending store _ (ui x) _ Hp); cbn;
      rewrite app_nil_r; now destruct x. }
  split; [exact Es|]. split.
  - intros now messageText. now apply handleSend_pending.
  - intros es. apply (run_single_flight store es x Hx).
Qed.

(** At every moment at most one request is in flight. *)
Lemma at_most_one_in_flight (x : Session) :
  reachable store x -> (List.length (in_flight x) <= 1)%nat.
Proof. intros Hr; apply (reachable_single_flight store x Hr). Qed.

End Settlement.

Section SettlementRuns.

Local Open Scope string_scope.

Lemma dispatched_submit_settles_once_witness :
  messages
    (ui (@run UTC.runtime Run.store
           [ SuggestionClick "How am I doing with my adherence?" Run.now;
             Send Run.now;
             Settle (Served Run.server) ]
           (init "/dashboard")))
  = [ mkMessage user "How am I doing with my adherence?" None;
      mkMessage assistant "You took 6 of 8 doses." (Some ["How can I improve?"]) ].
Proof.
  pose proof (@dispatched_submit_settles_once UTC.runtime Run.store
                (init "/dashboard") Run.now
                (Some "How am I doing with my adherence?")
                (ui Run.asked) Run.request [Send Run.now] (Served Run.server))
    as H.
  destruct H as (_ & _ & H & _).
  - exists "/dashboard", []. reflexivity.
  - vm_compute. reflexivity.
  - reflexivity.
  - reflexivity.
  - exact H.
Defined.

Lemma second_submit_has_no_effect_witness :
  @step UTC.runtime Run.store (SuggestionClick "How can I improve?" Run.now) Run.asked
  = Run.asked.
Proof.
  apply (@second_submit_has_no_effect UTC.runtime Run.store Run.asked
           (SuggestionClick "How can I improve?" Run.now)).
  - exists "/dashboard",
      [SuggestionClick "How am I doing with my adherence?" Run.now].
    reflexivity.
  - vm_compute. discriminate.
  - reflexivity.
Defined.

End SettlementRuns.

(* ================================================================== *)
(** * Submitting: typed text and suggestions (C6, C9) *)
(* ================================================================== *)

Section Submitting.

Local Open Scope string_scope.

Context {RT : DateRuntime}.
Variable store : MedicationContext.

Lemma trimStart_all_whitespace (s : string) :
  all_whitespace s = true -> trimStart s = EmptyString.
Proof.
  induction s as [|c r IH]; cbn; [reflexivity|].
  intros H; apply andb_true_iff in H as [Hc Hr]. rewrite Hc. auto.
Qed.

Lemma trim_all_whitespace (s : string) :
  all_whitespace s = true -> trim s = EmptyString.
Proof. intros H; unfold trim; now rewrite trimStart_all_whitespace. Qed.

(** A typed draft that is empty or all white space is not submitted. *)
Lemma typed_whitespace_is_noop (now : Z) (s : State) :
  all_whitespace (input s) = true -> Spec.is_noop store now s None.
Proof.
  intros H. unfold Spec.is_noop, handleSend.
  now rewrite (trim_all_whitespace _ H).
Qed.

(** A suggestion that is not the empty string is submitted as it is. *)
Lemma suggestion_is_submitted_verbatim (now : Z) (s : State) (text : string) :
  text <> EmptyString ->
  isPending s = false ->
  handleSuggestionClick store now s text
  = (mkState (pathname s) (messages s ++ [mkMessage user text None])
       EmptyString true,
     Some (request_of store now s text)).
Proof.
  intros Hne Hp. unfold handleSuggestionClick, handleSend.
  destruct text; [congruence|]. cbn. now rewrite Hp.
Qed.

(** C9, amended. For every suggestion text that is not empty and has no
    white space at its ends, selecting the suggestion has the effect of
    typing that text and submitting it: the same user turn is appended and
    the same request is dispatched, and when no request is in flight the
    two resulting states are equal. *)
Theorem trimmed_suggestion_is_typing (now : Z) (s : State) (text : string) :
  text <> EmptyString ->
  trim text = text ->
  Spec.click_is_typing store now s text
  /\ (isPending s = false ->
      handleSuggestionClick store now s text
      = handleSend store now (Spec.typed s text) None).
Proof.
  intros Hne Ht.
  assert (truthy_string text = true) as Htr by (now destruct text).
  unfold Spec.click_is_typing, Spec.same_effect, handleSuggestionClick,
    handleSend, Spec.typed.
  cbn [input isPending pathname messages]. rewrite Ht, Htr.
  cbn [negb orb]. rewrite ?Htr. cbn [negb orb].
  destruct (isPending s); unfold request_of; cbn; repeat split; congruence.
Qed.

End Submitting.

Section SubmittingRuns.

Local Open Scope string_scope.

(** C6 at a failing input: on the dashboard, with no request in flight, a
    suggestion that consists of one space is not a no-op. Its user turn is
    appended, the request is dispatched, and the action accepts it and
    calls the provider. *)
Theorem whitespace_suggestion_is_submitted :
  all_whitespace " " = true
  /\ ~ @Spec.is_noop UTC.runtime Run.store Run.now Run.dashboard_state (Some " ")
  /\ @handleSuggestionClick UTC.runtime Run.store Run.now Run.dashboard_state " "
     = (mkState "/dashboard" [mkMessage user " " None] EmptyString true,
        Some (@request_of UTC.runtime Run.store Run.now Run.dashboard_state " "))
  /\ existsb Spec.is_provider_call
       (snd (getGlobalAssistantResponse Run.server
               (@request_of UTC.runtime Run.store Run.now Run.dashboard_state " ")))
     = true.
Proof.
  split; [reflexivity|]. split; [|split].
  - unfold Spec.is_noop. vm_compute. discriminate.
  - reflexivity.
  - vm_compute. reflexivity.
Qed.

(** An empty suggestion submits the draft instead of doing nothing. *)
Lemma empty_suggestion_submits_draft :
  fst (@handleSuggestionClick UTC.runtime Run.store Run.now
         (Spec.typed Run.dashboard_state "hello") EmptyString)
  = mkState "/dashboard" [mkMessage user "hello" None] EmptyString true.
Proof. reflexivity. Qed.

(** C9 fails as the specification states it: the suggestion [" a"] is not
    empty, and
    selecting it appends the turn [" a"] where typing it appends ["a"]. *)
Lemma padded_suggestion_differs_from_typing :
  ~ @Spec.click_is_typing UTC.runtime Run.store Run.now Run.dashboard_state " a".
Proof.
  unfold Spec.click_is_typing, Spec.same_effect. intros [H _].
  vm_compute in H. discriminate H.
Qed.

Lemma trimmed_suggestion_is_typing_witness :
  @handleSuggestionClick UTC.runtime Run.store Run.now Run.dashboard_state
    "How am I doing with my adherence?"
  = @handleSend UTC.runtime Run.store Run.now
      (Spec.typed Run.dashboard_state "How am I doing with my adherence?") None.
Proof.
  apply (@trimmed_suggestion_is_typing UTC.runtime Run.store Run.now
           Run.dashboard_state "How am I doing with my adherence?").
  - discriminate.
  - reflexivity.
  - reflexivity.
Defined.

End SubmittingRuns.

(* ================================================================== *)
(** * Unknown routes (C10) *)
(* ================================================================== *)

Section Routes.

Local Open Scope string_scope.

(** C10. On every route pathname other than [/dashboard], [/medications]
    and [/reports] the page context is the dashboard: the badge shows the
    dashboard label, the empty transcript offers the dashboard chips, and
    a request sent from there names the dashboard and is answered under
    the dashboard system prompt. *)
Theorem unknown_route_defaults_to_dashboard {RT : DateRuntime} (path : string) :
  path <> "/dashboard" -> path <> "/medications" -> path <> "/reports" ->
  pageContext path = dashboard
  /\ currentPageInfo path = pageInfo dashboard
  /\ label (currentPageInfo path) = "Dashboard"
  /\ defaultSuggestions (pageContext path)
     = [ "What medications do I have today?";
         "How am I doing with my adherence?" ]
  /\ (forall store now s text,
        pathname s = path ->
        Spec.field "pageContext" (request_of store now s text) = VStr "dashboard"
        /\ systemPrompt_for (request_of store now s text)
           = VStr (systemPrompts dashboard)).
Proof.
  intros H1 H2 H3.
  assert (pageContext path = dashboard) as E.
  { unfold pageContext, pageContextMap.
    destruct (String.eqb_spec path "/dashboard"); [congruence|].
    destruct (String.eqb_spec path "/medications"); [congruence|].
    destruct (String.eqb_spec path "/reports"); [congruence|]. reflexivity. }
  unfold currentPageInfo. rewrite E. repeat split; intros; cbn;
    match goal with Hs : pathname _ = path |- _ => rewrite Hs, E end;
    reflexivity.
Qed.

Lemma unknown_route_defaults_to_dashboard_witness :
  pageContext "/settings" = dashboard
  /\ label (currentPageInfo "/settings") = "Dashboard".
Proof.
  destruct (@unknown_route_defaults_to_dashboard UTC.runtime "/settings")
    as (E & _ & L & _); try discriminate.
  split; [exact E|exact L].
Defined.

End Routes.

(* ================================================================== *)
(** * The adherence statistics (C8) *)
(* ================================================================== *)

Section Adherence.

Local Open Scope string_scope.

Lemma count_filter {A} (p : A -> bool) (l : list A) :
  Z.of_nat (List.length (filter p l)) = Spec.count p l.
Proof.
  induction l as [|a l IH]; cbn [filter Spec.count]; [reflexivity|].
  destruct (p a); cbn [List.length]; lia.
Qed.

Lemma count_filter_filter {A} (p q : A -> bool) (l : list A) :
  Z.of_nat (List.length (filter q (filter p l)))
  = Spec.count (fun a => p a && q a) l.
Proof.
  induction l as [|a l IH]; cbn [filter Spec.count]; [reflexivity|].
  destruct (p a); cbn [filter andb]; [|exact IH].
  destruct (q a); cbn [List.length]; lia.
Qed.

Lemma count_nonneg {A} (p : A -> bool) (l : list A) : 0 <= Spec.count p l.
Proof. rewrite <- count_filter. lia. Qed.

Lemma count_pointwise {A} (p q : A -> bool) (l : list A) :
  (forall a, In a l -> p a = q a) -> Spec.count p l = Spec.count q l.
Proof.
  induction l as [|a l IH]; cbn; [reflexivity|]. intros H.
  rewrite (H a (or_introl eq_refl)), IH; auto.
Qed.

(** C8 fails as the specification states it: an entry dated after today
    is outside the
    trailing window that ends today, and the code counts it. *)
Lemma future_entry_is_counted :
  @calculateAdherenceStats UTC.runtime Run.now Run.future_logs
  <> @Spec.adherence_stats UTC.runtime Run.now Run.future_logs.
Proof. vm_compute. discriminate. Qed.

(** The rounding is that of binary64: 23 doses taken out of 40 give 57,
    where the exact quotient 57.5 rounds to 58. *)
Lemma rate_23_of_40 :
  adherenceRate (@calculateAdherenceStats UTC.runtime Run.now Run.logs_23_of_40)
  = num_of_Z 57
  /\ Spec.round_percent 23 40 = 58.
Proof. split; vm_compute; reflexivity. Qed.

Context {RT : DateRuntime}.

Lemma stats_counts (now : Z) (logs : list Log) :
  totalTaken (calculateAdherenceStats now logs)
  = Spec.count (fun log => Spec.not_older_than_30_days now log
                           && is_taken (status log)) logs
  /\ totalScheduled (calculateAdherenceStats now logs)
     = Z.max 1 (Spec.count (Spec.not_older_than_30_days now) logs).
Proof.
  split; cbn [calculateAdherenceStats totalTaken totalScheduled].
  - apply (count_filter_filter
             (is_recent (Date_setDate now (Date_getDate now - 30)))
             (fun log => is_taken (status log))).
  - rewrite (count_filter (is_recent (Date_setDate now (Date_getDate now - 30)))).
    change (is_recent (Date_setDate now (Date_getDate now - 30)))
      with (Spec.not_older_than_30_days now).
    pose proof (count_nonneg (Spec.not_older_than_30_days now) logs).
    destruct (Z.eqb_spec (Spec.count (Spec.not_older_than_30_days now) logs) 0);
      lia.
Qed.

(** C8, amended. The statistics count the entries that are not older than
    30 days: those whose time parses to an instant at or after
    [thirtyDaysAgo], today's date moved back by 30 days; there is no upper
    end, so an entry dated after now is counted too. [totalTaken] is the
    number of those entries with status taken, [totalScheduled] the number
    of those entries, and 1 when there is none, and [adherenceRate] is
    [Math.round((totalTaken / totalScheduled) * 100)] in binary64
    arithmetic. For 8 such entries of which 6 are taken it is 75. *)
Theorem adherence_stats_of_recent_logs (now : Z) (logs : list Log) :
  let stats := calculateAdherenceStats now logs in
  let recent := Spec.count (Spec.not_older_than_30_days now) logs in
  let taken :=
    Spec.count (fun log => Spec.not_older_than_30_days now log
                           && is_taken (status log)) logs in
  totalTaken stats = taken
  /\ totalScheduled stats = Z.max 1 recent
  /\ adherenceRate stats
     = Math_round (num_mul (num_div (num_of_Z taken) (num_of_Z (Z.max 1 recent)))
                     (num_of_Z 100))
  /\ (recent = 8 -> taken = 6 -> adherenceRate stats = num_of_Z 75).
Proof.
  intros stats recent taken.
  destruct (stats_counts now logs) as [Et Es].
  fold stats taken in Et. fold stats recent in Es.
  assert (adherenceRate stats
          = Math_round (num_mul (num_div (num_of_Z (totalTaken stats))
                                   (num_of_Z (totalScheduled stats)))
                          (num_of_Z 100))) as Er by reflexivity.
  rewrite Et, Es in Er.
  repeat split; auto.
  intros H8 H6. rewrite Er, H8, H6. reflexivity.
Qed.

(** When no entry is dated after now, the counts are those of the
    trailing window that ends now. *)
Lemma counts_without_future_entries (now : Z) (logs : list Log) :
  (forall log t, In log logs -> Date_parse (time log) = Some t -> t <= now) ->
  totalTaken (calculateAdherenceStats now logs)
  = totalTaken (Spec.adherence_stats now logs)
  /\ totalScheduled (calculateAdherenceStats now logs)
     = totalScheduled (Spec.adherence_stats now logs).
Proof.
  intros H.
  destruct (stats_counts now logs) as [Et Es].
  rewrite Et, Es. unfold Spec.adherence_stats. cbn [totalTaken totalScheduled].
  assert (forall log, In log logs ->
            Spec.not_older_than_30_days now log = Spec.in_trailing_window now log)
    as E.
  { intros log Hin. unfold Spec.not_older_than_30_days, Spec.in_trailing_window.
    destruct (Date_parse (time log)) as [t|] eqn:Ep; [|reflexivity].
    specialize (H log t Hin Ep). apply Z.leb_le in H. now rewrite H, andb_true_r. }
  split; [|f_equal]; apply count_pointwise; intros log Hin; now rewrite E.
Qed.

End Adherence.

Section AdherenceRuns.

Lemma adherence_stats_of_recent_logs_witness :
  Spec.count (@Spec.not_older_than_30_days UTC.runtime Run.now) Run.logs = 8
  /\ adherenceRate (@calculateAdherenceStats UTC.runtime Run.now Run.logs)
     = num_of_Z 75.
Proof.
  split; [vm_compute; reflexivity|].
  apply (@adherence_stats_of_recent_logs UTC.runtime Run.now Run.logs);
    vm_compute; reflexivity.
Defined.

End AdherenceRuns.

(* ================================================================== *)
(** * Parsed data: its keys, and parsing it again *)
(* ================================================================== *)

Section ParsedData.

Local Open Scope string_scope.

Lemma safeParse_object_parse (shape : list (string * schema))
    (fields : list (string * value)) :
  safeParse (z_object shape) (VObj fields)
  = option_map VObj (Shape.parse safeParse fields shape).
Proof.
  cbn. f_equal. induction shape as [|[k sc] shape IH]; cbn; [reflexivity|].
  now rewrite IH.
Qed.

Lemma parse_kept (p : schema -> value -> option value)
    (fields : list (string * value)) (shape : list (string * schema))
    (r : list (string * value)) :
  Shape.parse p fields shape = Some r ->
  r = Shape.kept p fields shape
  /\ Forall (fun '(k, sc) => exists x, p sc (read k fields) = Some x) shape.
Proof.
  revert r; induction shape as [|[k sc] shape IH]; cbn [Shape.parse];
    intros r H.
  - inversion H. split; [reflexivity|constructor].
  - destruct (p sc (read k fields)) as [x|] eqn:Ex; [|discriminate].
    destruct (Shape.parse p fields shape) as [r'|]; [|discriminate].
    destruct (IH r' eq_refl) as [-> HF].
    split; [|constructor; eauto].
    unfold Shape.kept in *. cbn [flat_map]. rewrite Ex.
    destruct (is_undefined x && negb (has_key k fields)); now inversion H.
Qed.

Lemma kept_keys (p : schema -> value -> option value)
    (fields : list (string * value)) (shape : list (string * schema))
    (k : string) :
  ~ In k (map fst shape) -> lookup k (Shape.kept p fields shape) = None.
Proof.
  unfold Shape.kept.
  induction shape as [|[k0 sc] shape IH]; cbn [flat_map map fst];
    intros H; [reflexivity|].
  assert (k0 <> k /\ ~ In k (map fst shape)) as [Hk Hr].
  { split; intros E; apply H; [left; exact E|right; exact E]. }
  destruct (p sc (read k0 fields)) as [x|]; [|cbn [app]; auto].
  destruct (is_undefined x && negb (has_key k0 fields)); cbn [app lookup];
    [auto|].
  destruct (String.eqb_spec k k0); [congruence|auto].
Qed.

Lemma distinct_cons (k : string) (l : list string) :
  Shape.distinct (k :: l) = true -> ~ In k l /\ Shape.distinct l = true.
Proof.
  cbn. intros H; apply andb_true_iff in H as [Hn Hd]. split; [|exact Hd].
  intros Hin. apply negb_true_iff in Hn.
  assert (existsb (String.eqb k) l = true) as E.
  { apply existsb_exists. exists k. split; [exact Hin|apply String.eqb_refl]. }
  congruence.
Qed.

(** Under distinct keys, the kept entries hold, for every key of the
    shape, the value that the key parsed to. *)
Lemma kept_read (p : schema -> value -> option value)
    (fields : list (string * value)) (shape : list (string * schema))
    (k : string) (sc : schema) (x : value) :
  Shape.distinct (map fst shape) = true ->
  In (k, sc) shape ->
  p sc (read k fields) = Some x ->
  read k (Shape.kept p fields shape) = x
  /\ has_key k (Shape.kept p fields shape)
     = negb (is_undefined x && negb (has_key k fields)).
Proof.
  induction shape as [|[k0 sc0] shape IH]; cbn [map fst]; intros Hd Hin Hp;
    [destruct Hin|].
  apply distinct_cons in Hd as [Hnotin Hd].
  change (Shape.kept p fields ((k0, sc0) :: shape))
    with ((match p sc0 (read k0 fields) with
           | Some x0 =>
               if is_undefined x0 && negb (has_key k0 fields)
               then [] else [(k0, x0)]
           | None => []
           end) ++ Shape.kept p fields shape)%list.
  destruct Hin as [E|Hin].
  - inversion E; subst k0 sc0; clear E. rewrite Hp.
    destruct (is_undefined x && negb (has_key k fields)) eqn:Ec; cbn [app].
    + unfold read at 1, has_key at 1.
      rewrite (kept_keys p fields shape k Hnotin).
      apply andb_true_iff in Ec as [Eu _]. now destruct x.
    + unfold read at 1, has_key at 1. cbn [lookup].
      now rewrite String.eqb_refl.
  - assert (k <> k0) as Hne.
    { intros ->. apply Hnotin. apply (in_map fst) in Hin. exact Hin. }
    specialize (IH Hd Hin Hp).
    destruct (p sc0 (read k0 fields)) as [x0|]; [|exact IH].
    destruct (is_undefined x0 && negb (has_key k0 fields)); cbn [app];
      [exact IH|].
    unfold read at 1, has_key at 1. cbn [lookup].
    destruct (String.eqb_spec k k0); [congruence|exact IH].
Qed.

(** Induction on schemas through the shapes of their objects. *)
Lemma schema_induction (P : schema -> Prop) :
  (forall n, P (z_string n)) ->
  P z_number ->
  (forall options, P (z_enum options)) ->
  (forall item, P item -> P (z_array item)) ->
  (forall shape, Forall (fun '(_, sc) => P sc) shape -> P (z_object shape)) ->
  (forall inner, P inner -> P (z_optional inner)) ->
  forall sc, P sc.
Proof.
  intros Hs Hn He Ha Ho Hopt. fix IH 1. intros [n| |options|item|shape|inner].
  - apply Hs.
  - apply Hn.
  - apply He.
  - apply Ha, IH.
  - apply Ho. induction shape as [|[k sc] shape IHs]; constructor.
    + apply IH.
    + exact IHs.
  - apply Hopt, IH.
Qed.

Lemma well_formed_object (shape : list (string * schema)) :
  Shape.well_formed (z_object shape) = true ->
  Shape.distinct (map fst shape) = true
  /\ Forall (fun '(_, sc) => Shape.well_formed sc = true) shape.
Proof.
  cbn. intros H; apply andb_true_iff in H as [Hd Hall]. split; [exact Hd|].
  clear Hd. induction shape as [|[k sc] shape IH]; constructor.
  - now apply andb_true_iff in Hall as [? _].
  - apply IH. now apply andb_true_iff in Hall as [_ ?].
Qed.

Lemma traverse_again {A} (f : A -> option A) (l l' : list A) :
  (forall a b, f a = Some b -> f b = Some b) ->
  traverse f l = Some l' -> traverse f l' = Some l'.
Proof.
  intros Hf. revert l'; induction l as [|a l IH]; cbn; intros l' H.
  - now inversion H.
  - destruct (f a) as [b|] eqn:Ea; [|discriminate].
    destruct (traverse f l) as [bs|]; [|discriminate].
    inversion H; subst. cbn. now rewrite (Hf a b Ea), (IH bs eq_refl).
Qed.

(** Parsed data parses to itself. *)
Lemma safeParse_idempotent (sc : schema) :
  Shape.well_formed sc = true ->
  forall v data, safeParse sc v = Some data -> safeParse sc data = Some data.
Proof.
  induction sc as [n| |options|item IH|shape IH|inner IH] using schema_induction;
    intros Hwf v data H.
  - destruct v; try discriminate. cbn in H |- *.
    destruct (n <=? String.length s)%nat eqn:E; inversion H; subst.
    cbn. now rewrite E.
  - destruct v; try discriminate. cbn in H |- *.
    destruct (is_nan n) eqn:E; inversion H; subst. cbn. now rewrite E.
  - destruct v; try discriminate. cbn in H |- *.
    destruct (existsb (String.eqb s) options) eqn:E; inversion H; subst.
    cbn. now rewrite E.
  - destruct v; try discriminate. cbn in H.
    destruct (traverse (safeParse item) items) as [items'|] eqn:E;
      [|discriminate].
    inversion H; subst. cbn.
    now rewrite (traverse_again _ _ _ (IH Hwf) E).
  - destruct v; try discriminate.
    rewrite safeParse_object_parse in H.
    destruct (Shape.parse safeParse fields shape) as [r|] eqn:E;
      [|discriminate].
    inversion H; subst data; clear H.
    destruct (parse_kept _ _ _ _ E) as [-> Hall].
    destruct (well_formed_object shape Hwf) as [Hd Hsub].
    rewrite safeParse_object_parse. f_equal.
    set (R := Shape.kept safeParse fields shape).
    assert (forall sh, incl sh shape ->
              Shape.parse safeParse R sh = Some (Shape.kept safeParse fields sh))
      as Hgen.
    { induction sh as [|[k sc] sh IHsh]; intros Hincl; [reflexivity|].
      assert (In (k, sc) shape) as Hin by (apply Hincl; left; reflexivity).
      rewrite Forall_forall in Hall, IH, Hsub.
      destruct (Hall _ Hin) as [x Hx].
      destruct (kept_read safeParse fields shape k sc x Hd Hin Hx) as [Hr Hk].
      fold R in Hr, Hk.
      cbn [Shape.parse]. rewrite Hr, (IH _ Hin (Hsub _ Hin) _ _ Hx).
      rewrite IHsh by (intros a Ha; apply Hincl; right; exact Ha).
      unfold Shape.kept. cbn [flat_map]. rewrite Hx, Hk.
      destruct (is_undefined x); cbn; [|reflexivity].
      now destruct (has_key k fields). }
    rewrite (Hgen shape (incl_refl _)). reflexivity.
  - destruct v; cbn in H;
      try (specialize (IH Hwf _ _ H); destruct data; cbn; auto; fail).
    inversion H; subst. reflexivity.
Qed.

Lemma parsed_object (shape : list (string * schema)) (v data : value) :
  safeParse (z_object shape) v = Some data -> exists r, data = VObj r.
Proof.
  destruct v; try discriminate. rewrite safeParse_object_parse.
  destruct (Shape.parse safeParse fields shape); [|discriminate].
  intros H; inversion H; eauto.
Qed.

(** The top-level keys of parsed data are keys of the shape. *)
Lemma parsed_keys (shape : list (string * schema)) (v : value)
    (r : list (string * value)) (k : string) :
  safeParse (z_object shape) v = Some (VObj r) ->
  has_key k r = true -> In k (map fst shape).
Proof.
  destruct v; try discriminate. rewrite safeParse_object_parse.
  destruct (Shape.parse safeParse fields shape) as [r'|] eqn:E; [|discriminate].
  intros H; inversion H; subst r'; clear H.
  destruct (parse_kept _ _ _ _ E) as [-> _].
  unfold has_key. intros Hk.
  destruct (in_dec string_dec k (map fst shape)) as [Hin|Hnot]; [exact Hin|].
  now rewrite (kept_keys safeParse fields shape k Hnot) in Hk.
Qed.

End ParsedData.

(* ================================================================== *)
(** * The two server actions on accepted and refused inputs *)
(* ================================================================== *)

Section ActionsMore.

Local Open Scope string_scope.

(** What the action's schema accepted passes the schema of the flow. *)
Lemma action_data_passes_flow (input data : value) :
  safeParse GlobalAssistantActionInput input = Some data ->
  safeParse GlobalAssistantInputSchema data = Some data.
Proof.
  intros H.
  pose proof (safeParse_idempotent GlobalAssistantActionInput eq_refl _ _ H) as Hi.
  destruct data; try discriminate Hi.
  unfold GlobalAssistantActionInput, GlobalAssistantInputSchema in *.
  rewrite safeParse_object_parse in Hi |- *.
  cbn [Shape.parse] in Hi |- *.
  destruct (safeParse (z_enum _) (read "pageContext" fields)); [|discriminate].
  destruct (read "userMessage" fields) as [| | | |s| |]; try discriminate.
  cbn [safeParse] in Hi |- *.
  destruct (1 <=? String.length s)%nat; [|discriminate].
  exact Hi.
Qed.

Lemma accepted_page_context (input data : value) :
  safeParse GlobalAssistantActionInput input = Some data ->
  exists c, Prompt.get "pageContext" input = VStr (PageContext_name c)
            /\ Prompt.get "pageContext" data = VStr (PageContext_name c)
            /\ systemPrompt_for data = VStr (systemPrompts c).
Proof.
  unfold GlobalAssistantActionInput.
  intros H. destruct input; try discriminate.
  destruct (parsed_object _ _ _ H) as [r ->].
  pose proof H as Hk. rewrite safeParse_object_parse in Hk.
  destruct (Shape.parse safeParse fields _) as [r'|] eqn:E; [|discriminate].
  inversion Hk; subst r'; clear Hk.
  destruct (parse_kept _ _ _ _ E) as [-> Hall].
  inversion Hall as [|[k sc] rest [x Hx] _]; subst.
  match type of E with
  | Shape.parse _ _ ?sh = _ =>
      destruct (kept_read safeParse fields sh "pageContext" _ x eq_refl
                  (or_introl eq_refl) Hx) as [Hr _]
  end.
  cbn [Prompt.get systemPrompt_for]. rewrite Hr.
  destruct (read "pageContext" fields) as [| | | |s| |]; cbn in Hx;
    try discriminate Hx.
  destruct (PageContext_of_name s) as [c|] eqn:Ec.
  - assert (s = PageContext_name c) as ->.
    { unfold PageContext_of_name in Ec.
      destruct (String.eqb s "dashboard") eqn:E1;
        [apply String.eqb_eq in E1; now inversion Ec|].
      destruct (String.eqb s "medications") eqn:E2;
        [apply String.eqb_eq in E2; now inversion Ec|].
      destruct (String.eqb s "reports") eqn:E3;
        [apply String.eqb_eq in E3; now inversion Ec|discriminate]. }
    assert (x = VStr (PageContext_name c)) as ->
      by (destruct c; cbn in Hx; now inversion Hx).
    exists c. rewrite Ec. auto.
  - exfalso. unfold PageContext_of_name in Ec.
    destruct (String.eqb s "dashboard"); [discriminate|].
    destruct (String.eqb s "medications"); [discriminate|].
    destruct (String.eqb s "reports"); discriminate.
Qed.

Lemma provider_calls_of_action (srv : Server) (input : value) :
  filter Spec.is_provider_call (snd (getGlobalAssistantResponse srv input))
  = match safeParse GlobalAssistantActionInput input with
    | Some data =>
        if truthy_opt (OPENAI_API_KEY srv)
        then [ProviderCall
                (mkRequest "gpt-4o-mini" (systemPrompt_for data) data "json_object")]
        else []
    | None => []
    end.
Proof.
  unfold getGlobalAssistantResponse.
  destruct (safeParse GlobalAssistantActionInput input) as [data|] eqn:E;
    [|reflexivity].
  unfold askGlobalAssistant. rewrite (action_data_passes_flow _ _ E).
  destruct (truthy_opt (OPENAI_API_KEY srv)); cbn [negb]; [|reflexivity].
  destruct (provider srv _) as [e|content]; [reflexivity|].
  destruct (truthy_opt content); cbn [negb]; [|reflexivity].
  destruct (validate srv _); reflexivity.
Qed.

(** X1. [getGlobalAssistantResponse] throws exactly when its schema refuses
    the input, and then it throws [Invalid input.]; on every accepted input
    it returns, an output or an [{error}], whatever the server does. *)
Theorem action_throws_iff_refused (srv : Server) (input : value) :
  (accepts GlobalAssistantActionInput input = false
   <-> fst (getGlobalAssistantResponse srv input) = Throw "Invalid input.")
  /\ (accepts GlobalAssistantActionInput input = true
      <-> exists result, fst (getGlobalAssistantResponse srv input) = Return result).
Proof.
  unfold accepts, getGlobalAssistantResponse.
  destruct (safeParse GlobalAssistantActionInput input) as [data|].
  - destruct (askGlobalAssistant srv data) as [[out|e] effects]; cbn;
      (split; split; [discriminate|discriminate|eauto|reflexivity]).
  - cbn. split; split; try reflexivity; try discriminate.
    intros [result H]; discriminate.
Qed.

(** X2. When the action calls the client, and with what. On an accepted
    input and with a credential, the code of the action and the flow calls
    [openai.chat.completions.create] once, with the model [gpt-4o-mini],
    the forced JSON response format, the parsed data rather than the raw
    input, and as system prompt the template of the input's page context;
    on a refused input or without a credential it does not call it. The
    code has no loop around that call. How many requests the client, built
    with its default options, sends within one call is outside the
    embedding and is not stated. *)
Theorem action_calls_create_once (srv : Server) (input : value) :
  filter Spec.is_provider_call (snd (getGlobalAssistantResponse srv input))
  = match safeParse GlobalAssistantActionInput input with
    | Some data =>
        if truthy_opt (OPENAI_API_KEY srv)
        then [ProviderCall
                (mkRequest "gpt-4o-mini" (systemPrompt_for data) data "json_object")]
        else []
    | None => []
    end
  /\ (forall data,
        safeParse GlobalAssistantActionInput input = Some data ->
        exists c, Prompt.get "pageContext" input = VStr (PageContext_name c)
                  /\ systemPrompt_for data = VStr (systemPrompts c)).
Proof.
  split.
  - apply provider_calls_of_action.
  - intros data E. destruct (accepted_page_context _ _ E) as (c & H1 & _ & H3).
    eauto.
Qed.

(** X3. The keys of the input that the schema does not know never reach
    the provider: the input of every request that the action sends has
    only the five keys of the schema, and it passes the schema as it is. *)
Theorem provider_sees_known_keys_only (srv : Server) (input : value)
    (request : ChatRequest) :
  In (ProviderCall request) (snd (getGlobalAssistantResponse srv input)) ->
  safeParse GlobalAssistantActionInput input = Some (user_input request)
  /\ safeParse GlobalAssistantActionInput (user_input request)
     = Some (user_input request)
  /\ exists fields,
       user_input request = VObj fields
       /\ forall k, has_key k fields = true -> In k Shape.action_keys.
Proof.
  intros Hin.
  assert (safeParse GlobalAssistantActionInput input = Some (user_input request))
    as E.
  { pose proof (provider_calls_of_action srv input) as Hf.
    assert (In (ProviderCall request)
              (filter Spec.is_provider_call
                 (snd (getGlobalAssistantResponse srv input)))) as Hin'
      by (apply filter_In; split; [exact Hin|reflexivity]).
    rewrite Hf in Hin'.
    destruct (safeParse GlobalAssistantActionInput input) as [data|];
      [|destruct Hin'].
    destruct (truthy_opt (OPENAI_API_KEY srv)); [|destruct Hin'].
    destruct Hin' as [E|[]]. now inversion E. }
  split; [exact E|]. split.
  - exact (safeParse_idempotent GlobalAssistantActionInput eq_refl _ _ E).
  - destruct (parsed_object _ _ _ E) as [fields Eu]. rewrite Eu in E.
    exists fields. split; [exact Eu|]. intros k Hk.
    exact (parsed_keys _ _ _ k E Hk).
Qed.

End ActionsMore.

Section ActionResults.

Local Open Scope string_scope.

Lemma action_result_of_accepted (srv : Server) (input data : value) :
  safeParse GlobalAssistantActionInput input = Some data ->
  fst (getGlobalAssistantResponse srv input) =
  if truthy_opt (OPENAI_API_KEY srv) then
    match provider srv
            (mkRequest "gpt-4o-mini" (systemPrompt_for data) data "json_object") with
    | ProviderThrows _ =>
        Return (ErrorResult "Failed to get response. Please try again.")
    | Completion content =>
        if truthy_opt content then
          match validate srv (match content with Some c => c | None => EmptyString end) with
          | Return out => Return (Output out)
          | Throw _ => Return (ErrorResult "Failed to get response. Please try again.")
          end
        else Return (ErrorResult "Failed to get response. Please try again.")
    end
  else Return (ErrorResult "Failed to get response. Please try again.").
Proof.
  intros E. unfold getGlobalAssistantResponse. rewrite E.
  unfold askGlobalAssistant. rewrite (action_data_passes_flow _ _ E).
  destruct (truthy_opt (OPENAI_API_KEY srv)); cbn [negb]; [|reflexivity].
  destruct (provider srv _) as [e|content]; [reflexivity|].
  destruct (truthy_opt content); cbn [negb]; [|reflexivity].
  now destruct (validate srv _).
Qed.

(** X4. On an accepted input the action returns [{error}] exactly when the
    credential is missing, the provider call throws, or the completion has
    no content; the error is always the same fixed text. In particular a
    completion with any text at all, well-formed or not, gives an output
    and never an error. *)
Theorem action_error_causes (srv : Server) (input data : value) :
  safeParse GlobalAssistantActionInput input = Some data ->
  let request :=
    mkRequest "gpt-4o-mini" (systemPrompt_for data) data "json_object" in
  ((exists error, fst (getGlobalAssistantResponse srv input)
                  = Return (ErrorResult error))
   <-> truthy_opt (OPENAI_API_KEY srv) = false
       \/ (exists e, provider srv request = ProviderThrows e)
       \/ (exists content, provider srv request = Completion content
                           /\ truthy_opt content = false))
  /\ (forall error,
        fst (getGlobalAssistantResponse srv input) = Return (ErrorResult error) ->
        error = "Failed to get response. Please try again.")
  /\ (forall text,
        truthy_opt (OPENAI_API_KEY srv) = true ->
        provider srv request = Completion (Some text) ->
        text <> EmptyString ->
        exists out, validate srv text = Return out
                    /\ fst (getGlobalAssistantResponse srv input)
                       = Return (Output out)).
Proof.
  intros E request. rewrite (action_result_of_accepted srv input data E).
  fold request.
  destruct (truthy_opt (OPENAI_API_KEY srv)) eqn:Ek.
  - destruct (provider srv request) as [e|content] eqn:Ep.
    + split; [|split].
      * split; [eauto|eauto].
      * intros error H; now inversion H.
      * intros text _ H; discriminate H.
    + destruct (truthy_opt content) eqn:Ec.
      * destruct (validate_returns srv
                    (match content with Some c => c | None => EmptyString end))
          as [out Eo].
        rewrite Eo. split; [|split].
        -- split; [intros [error H]; discriminate H|].
           intros [H|[[e H]|(c & H & Hc)]]; try discriminate H.
           inversion H; subst c. congruence.
        -- intros error H; discriminate H.
        -- intros text _ H Hne. inversion H; subst content.
           exists out. split; [exact Eo|reflexivity].
      * split; [|split].
        -- split; [|eauto]. intros _. right; right. eauto.
        -- intros error H; now inversion H.
        -- intros text _ H Hne. inversion H; subst content.
           destruct text; [congruence|discriminate Ec].
  - split; [|split].
    + split; [auto|eauto].
    + intros error H; now inversion H.
    + intros text H; discriminate H.
Qed.

Lemma strings_of_strings (l : list string) :
  Spec.strings_of (map VStr l) = l.
Proof.
  unfold Spec.strings_of. induction l as [|a l IH]; cbn; [reflexivity|].
  now rewrite IH.
Qed.

(** X5. The strict check of the output shape never changes the result of
    the validator: for every text that parses, the output is the salvage
    of the parsed value, whether it has the output shape or not. *)
Theorem validate_is_salvage (srv : Server) (content : string) :
  validate srv content =
  Return (match JSON_parse srv content with
          | Some parsed => Spec.salvaged content parsed
          | None => mkOutput content None
          end).
Proof.
  unfold validate, validate_body.
  destruct (JSON_parse srv content) as [parsed|]; [|reflexivity].
  destruct (safeParse GlobalAssistantOutputSchema parsed) as [data|] eqn:E.
  - cbn [try_catch]. f_equal.
    destruct (output_of_data_exact parsed data E) as [Hr Hs].
    destruct (output_of_data data) as [r sg]. cbn [response Flow.suggestions] in *.
    unfold Spec.salvaged. rewrite <- Hr, <- Hs.
    destruct sg as [l|]; cbn; [now rewrite strings_of_strings|reflexivity].
  - apply salvage_path.
Qed.

(** X6. [getSmartScheduleSuggestions], for every flow behind it: a refused
    input makes it throw [Invalid input.] without calling the flow; on an
    accepted input it calls the flow once, with the parsed data, which has
    only the keys of the schema and passes the schema again; it returns
    what the flow returns, and when the flow throws it returns the fixed
    [{error}] and does not throw. *)
Theorem smart_schedule_action
    (suggestOptimalSchedule : value -> outcome value) (input : value) :
  match safeParse SmartSchedule.SmartScheduleActionInput input with
  | None =>
      SmartSchedule.getSmartScheduleSuggestions suggestOptimalSchedule input
      = (Throw "Invalid input.",
         SmartSchedule.mkTrace []
           [ConsoleError "Invalid input for smart schedule:" "ZodError"])
  | Some data =>
      SmartSchedule.flow_calls
        (snd (SmartSchedule.getSmartScheduleSuggestions suggestOptimalSchedule input))
      = [data]
      /\ fst (SmartSchedule.getSmartScheduleSuggestions suggestOptimalSchedule input)
         = match suggestOptimalSchedule data with
           | Return result => Return (SmartSchedule.Suggestions result)
           | Throw _ =>
               Return (SmartSchedule.ScheduleError
                         "Failed to generate suggestions. Please try again.")
           end
      /\ safeParse SmartSchedule.SmartScheduleActionInput data = Some data
      /\ exists fields,
           data = VObj fields
           /\ forall k, has_key k fields = true ->
                        In k ["medicationName"; "dosage"; "currentSchedule";
                              "intakeLogs"; "userNeeds"]
  end.
Proof.
  unfold SmartSchedule.getSmartScheduleSuggestions.
  destruct (safeParse SmartSchedule.SmartScheduleActionInput input)
    as [data|] eqn:E; [|reflexivity].
  split; [now destruct (suggestOptimalSchedule data)|].
  split; [now destruct (suggestOptimalSchedule data)|].
  split.
  - exact (safeParse_idempotent SmartSchedule.SmartScheduleActionInput
             eq_refl _ _ E).
  - destruct (parsed_object _ _ _ E) as [fields ->].
    exists fields. split; [reflexivity|]. intros k Hk.
    exact (parsed_keys _ _ _ k E Hk).
Qed.

End ActionResults.

Section ActionResultsRuns.

Local Open Scope string_scope.

Lemma action_error_causes_witness :
  safeParse GlobalAssistantActionInput Run.request = Some Run.request
  /\ fst (getGlobalAssistantResponse Run.server_provider_down Run.request)
     = Return (ErrorResult "Failed to get response. Please try again.").
Proof.
  split; [reflexivity|].
  destruct (action_error_causes Run.server_provider_down Run.request Run.request
              eq_refl) as ([_ H] & Hmsg & _).
  destruct H as [error H].
  - right; left. exists "Connection error.". reflexivity.
  - rewrite H. f_equal. f_equal. exact (Hmsg error H).
Defined.

Lemma provider_sees_known_keys_only_witness :
  safeParse GlobalAssistantActionInput Run.request = Some Run.request.
Proof.
  apply (provider_sees_known_keys_only Run.server Run.request
           (mkRequest "gpt-4o-mini" (systemPrompt_for Run.request) Run.request
              "json_object")).
  vm_compute. left. reflexivity.
Defined.

End ActionResultsRuns.

(* ================================================================== *)
(** * The user prompt *)
(* ================================================================== *)

Section TypedInput.

Local Open Scope string_scope.

(** An object that parses to itself holds, under every key of the shape,
    a value that parses to itself. *)
Lemma fixed_fields (shape : list (string * schema))
    (fields : list (string * value)) :
  Shape.distinct (map fst shape) = true ->
  safeParse (z_object shape) (VObj fields) = Some (VObj fields) ->
  fields = Shape.kept safeParse fields shape
  /\ Forall (fun '(k, sc) =>
               safeParse sc (read k fields) = Some (read k fields)) shape.
Proof.
  intros Hd H. rewrite safeParse_object_parse in H.
  destruct (Shape.parse safeParse fields shape) as [r|] eqn:E; [|discriminate].
  inversion H; subst r; clear H.
  destruct (parse_kept _ _ _ _ E) as [Hk Hall]. split; [exact Hk|].
  apply Forall_forall. intros [k sc] Hin.
  rewrite Forall_forall in Hall. destruct (Hall _ Hin) as [x Hx].
  destruct (kept_read safeParse fields shape k sc x Hd Hin Hx) as [Hr _].
  rewrite <- Hk in Hr. now rewrite Hr in Hx |- *.
Qed.

Lemma traverse_fixed {A} (f : A -> option A) (l : list A) :
  traverse f l = Some l -> Forall (fun a => f a = Some a) l.
Proof.
  induction l as [|a l IH]; cbn; intros H; constructor;
    destruct (f a) as [b|]; try discriminate;
    destruct (traverse f l) as [bs|]; try discriminate;
    inversion H; subst; auto.
Qed.

Lemma fixed_string (n : nat) (v : value) :
  safeParse (z_string n) v = Some v -> v = VStr (Prompt.string_of v).
Proof. destruct v; try discriminate. reflexivity. Qed.

Lemma fixed_strings (v : value) :
  safeParse (z_array (z_string 0)) v = Some v ->
  v = VArr (map VStr (map Prompt.string_of (Prompt.items_of v))).
Proof.
  destruct v; try discriminate. cbn.
  destruct (traverse _ items) as [l|] eqn:E; [|discriminate].
  intros H; inversion H; subst l; clear H.
  apply traverse_fixed in E. f_equal.
  induction E as [|a l Ha _ IH]; cbn; [reflexivity|].
  rewrite <- IH. destruct a; try discriminate. reflexivity.
Qed.

(** Splits [H], an object that parses to itself, into the equation [Hk]
    of its fields and one fixed point per key of the shape. *)
Ltac fixed_object H Hk :=
  match type of H with
  | safeParse (z_object ?sh) (VObj ?fields) = Some (VObj ?fields) =>
      let Hall := fresh "Hall" in
      destruct (fixed_fields sh fields eq_refl H) as [Hk Hall];
      unfold Shape.kept in Hk; cbn [flat_map] in Hk;
      repeat match goal with
             | F : Forall _ (_ :: _) |- _ =>
                 let F1 := fresh "F" in
                 let F2 := fresh "Hall" in
                 apply Forall_cons_iff in F as [F1 F2];
                 cbn beta iota in F1; rewrite F1 in Hk
             end
  end.

(** Cases on the value of a field by its fixed point [F]. *)
Ltac string_field F :=
  match type of F with
  | safeParse _ ?x = Some ?x =>
      let E := fresh "E" in
      destruct x eqn:E; cbn in F; try discriminate F; clear F
  end.

(** Reading a validated medication at its type and writing it back gives
    the medication; likewise for the log entries and the statistics. *)
Lemma medication_round_trip (v : value) :
  safeParse medication_shape v = Some v ->
  medication_value (Prompt.medication_of_data v) = v.
Proof.
  intros H. destruct (parsed_object _ _ _ H) as [fields ->].
  unfold medication_shape in H. fixed_object H Hk.
  string_field F. string_field F0.
  destruct (parsed_object _ _ _ F1) as [sched Es]. rewrite Es in *.
  fixed_object F1 Hks. string_field F.
  pose proof (fixed_strings _ F0) as Ht.
  destruct (read "times" sched) as [| | | | |items|] eqn:Et;
    try discriminate Ht.
  cbn [is_undefined andb app Prompt.items_of] in Hk, Hks, Ht.
  unfold medication_value, Prompt.medication_of_data.
  cbn [name dosage schedule frequency times Prompt.get].
  rewrite E, E0, Es. cbn [Prompt.get Prompt.string_of]. rewrite E1, Et.
  cbn [Prompt.string_of Prompt.items_of]. rewrite <- Ht.
  rewrite Hk, Hks. reflexivity.
Qed.

Lemma status_round_trip (v : value) :
  safeParse (z_enum ["taken"; "missed"; "skipped"]) v = Some v ->
  v = VStr (LogStatus_name (Prompt.status_of_data v)).
Proof.
  destruct v; try discriminate. cbn. unfold Prompt.status_of_data. cbn.
  destruct (String.eqb_spec s "taken") as [->|]; [reflexivity|].
  destruct (String.eqb_spec s "missed") as [->|]; [reflexivity|].
  destruct (String.eqb_spec s "skipped") as [->|]; [reflexivity|discriminate].
Qed.

Lemma log_round_trip (v : value) :
  safeParse log_shape v = Some v ->
  log_value (Prompt.log_of_data v) = v.
Proof.
  intros H. destruct (parsed_object _ _ _ H) as [fields ->].
  unfold log_shape in H. fixed_object H Hk.
  string_field F. string_field F0.
  pose proof (status_round_trip _ F1) as Hst.
  destruct (read "status" fields) as [| | | |st| |] eqn:Est;
    try discriminate Hst.
  cbn [is_undefined andb app] in Hk.
  unfold log_value, Prompt.log_of_data.
  cbn [Store.medicationName Store.time Store.status Prompt.get].
  rewrite E, E0, Est. cbn [Prompt.string_of]. rewrite <- Hst.
  rewrite Hk. reflexivity.
Qed.

Lemma stats_round_trip (v : value) :
  safeParse stats_shape v = Some v ->
  exists fields,
    v = VObj fields
    /\ v = VObj [ ("totalScheduled", VNum (Prompt.totalScheduled (Prompt.stats_of_data v)));
                  ("totalTaken", VNum (Prompt.totalTaken (Prompt.stats_of_data v)));
                  ("adherenceRate", VNum (Prompt.adherenceRate (Prompt.stats_of_data v))) ].
Proof.
  intros H. destruct (parsed_object _ _ _ H) as [fields ->].
  exists fields. split; [reflexivity|].
  unfold stats_shape in H. fixed_object H Hk.
  string_field F. string_field F0. string_field F1.
  cbn [is_undefined andb app] in Hk.
  unfold Prompt.stats_of_data.
  cbn [Prompt.totalScheduled Prompt.totalTaken Prompt.adherenceRate Prompt.get].
  rewrite E, E0, E1. cbn [Prompt.number_of]. rewrite Hk at 1. reflexivity.
Qed.

Lemma array_round_trip (item : schema) (g : value -> value) (v : value) :
  (forall a, safeParse item a = Some a -> g a = a) ->
  safeParse (z_array item) v = Some v ->
  v = VArr (map g (Prompt.items_of v)).
Proof.
  intros Hg. destruct v; try discriminate. cbn.
  destruct (traverse _ items) as [l|] eqn:E; [|discriminate].
  intros H; inversion H; subst l; clear H.
  apply traverse_fixed in E. f_equal.
  induction E as [|a l Ha _ IH]; cbn; [reflexivity|].
  now rewrite <- IH, (Hg a Ha).
Qed.

(** X7. Data that the input schema accepted has, under each of its keys,
    the value of the type that [buildUserPrompt] reads there: a page
    context, a string, an array of medication objects, an array of log
    entries or nothing, an object of three Numbers or nothing. So the
    prompt builder never meets a missing or ill-typed field on validated
    input. *)
Theorem accepted_input_is_typed (v data : value) :
  safeParse GlobalAssistantInputSchema v = Some data ->
  let input := Prompt.input_of_data data in
  Prompt.get "pageContext" data = VStr (PageContext_name (Prompt.pageContext input))
  /\ Prompt.get "userMessage" data = VStr (Prompt.userMessage input)
  /\ Prompt.get "medications" data
     = VArr (map medication_value (Prompt.medications input))
  /\ Prompt.get "todayLogs" data
     = match Prompt.todayLogs input with
       | Some logs => VArr (map log_value logs)
       | None => VUndefined
       end
  /\ Prompt.get "adherenceStats" data
     = match Prompt.adherenceStats input with
       | Some st =>
           VObj [ ("totalScheduled", VNum (Prompt.totalScheduled st));
                  ("totalTaken", VNum (Prompt.totalTaken st));
                  ("adherenceRate", VNum (Prompt.adherenceRate st)) ]
       | None => VUndefined
       end.
Proof.
  intros H0.
  pose proof (safeParse_idempotent GlobalAssistantInputSchema eq_refl _ _ H0) as H.
  clear H0. destruct (parsed_object _ _ _ H) as [fields ->].
  unfold GlobalAssistantInputSchema in H. fixed_object H Hk. clear Hk.
  unfold Prompt.input_of_data.
  cbn [Prompt.pageContext Prompt.userMessage Prompt.medications
       Prompt.todayLogs Prompt.adherenceStats Prompt.get].
  repeat split.
  - destruct (read "pageContext" fields) as [| | | |s| |]; try discriminate F.
    cbn [Prompt.string_of]. cbn in F. unfold PageContext_of_name.
    destruct (String.eqb s "dashboard") eqn:E1;
      [apply String.eqb_eq in E1; now subst s|].
    destruct (String.eqb s "medications") eqn:E2;
      [apply String.eqb_eq in E2; now subst s|].
    destruct (String.eqb s "reports") eqn:E3;
      [apply String.eqb_eq in E3; now subst s|].
    exfalso. revert F. cbn. discriminate.
  - now apply fixed_string in F0.
  - rewrite map_map.
    apply (array_round_trip medication_shape
             (fun a => medication_value (Prompt.medication_of_data a)));
      [apply medication_round_trip|exact F1].
  - destruct (read "todayLogs" fields) as [| | | | |items|] eqn:Et;
      try discriminate F2; [reflexivity|].
    rewrite map_map.
    apply (array_round_trip log_shape
             (fun a => log_value (Prompt.log_of_data a)) (VArr items));
      [apply log_round_trip|exact F2].
  - destruct (read "adherenceStats" fields) as [| | | | | |st] eqn:Es;
      try discriminate F3; [reflexivity|].
    destruct (stats_round_trip (VObj st) F3) as (? & _ & E). exact E.
Qed.

End TypedInput.

Section TypedInputRuns.

Local Open Scope string_scope.

Lemma accepted_input_is_typed_witness :
  safeParse GlobalAssistantInputSchema Run.request = Some Run.request
  /\ Prompt.get "userMessage" Run.request
     = VStr (Prompt.userMessage (Prompt.input_of_data Run.request)).
Proof.
  split; [reflexivity|].
  exact (proj1 (proj2 (accepted_input_is_typed Run.request Run.request eq_refl))).
Defined.

End TypedInputRuns.

Section Prompts.

Local Open Scope string_scope.

Context {RT : DateRuntime} {FT : Prompt.FormatRuntime}.

Lemma medication_of_value (m : Medication) :
  Prompt.medication_of_data (medication_value m) = m.
Proof.
  destruct m as [n d [f ts]]. unfold Prompt.medication_of_data. cbn.
  rewrite map_map. cbn. now rewrite map_id.
Qed.

Lemma log_of_value (l : Log) : Prompt.log_of_data (log_value l) = l.
Proof. now destruct l as [n t []]. Qed.

Lemma page_of_name (c : PageContext) :
  PageContext_of_name (PageContext_name c) = Some c.
Proof. now destruct c. Qed.

Lemma map_inverse {A B} (f : A -> B) (g : B -> A) (l : list A) :
  (forall a, g (f a) = a) -> map g (map f l) = l.
Proof.
  intros H. rewrite map_map. induction l as [|a l IH]; cbn; [reflexivity|].
  now rewrite H, IH.
Qed.

(** The typed input that the flow reads off a request of the component. *)
Lemma input_of_request (store : MedicationContext) (now : Z) (s : State)
    (text : string) :
  Prompt.input_of_data (request_of store now s text)
  = Prompt.mkInput (pageContext (pathname s)) text (ctx_medications store)
      (Some (filter
               (fun log =>
                  String.eqb (Date_toDateString (Date_parse (time log)))
                    (Date_toDateString (Some now)))
               (ctx_logs store)))
      (Some (let st := calculateAdherenceStats now (ctx_logs store) in
             Prompt.mkStatsInput (num_of_Z (totalScheduled st))
               (num_of_Z (totalTaken st)) (adherenceRate st))).
Proof.
  unfold Prompt.input_of_data, request_of. cbn [Prompt.get].
  cbn -[calculateAdherenceStats getTodayLogs medication_value].
  rewrite page_of_name.
  rewrite (map_inverse _ _ _ medication_of_value).
  unfold getTodayLogs.
  rewrite (map_inverse _ _ _ log_of_value). reflexivity.
Qed.

(** X9. The user prompt does not depend on the page context of the input,
    and an empty list of today's logs gives the prompt of an absent list:
    in both cases the section on today's activity is left out. *)
Theorem prompt_ignores_page_and_empty_logs (c c' : PageContext)
    (text : string) (meds : list Medication)
    (logs : option (list Log)) (stats : option Prompt.StatsInput) :
  Prompt.buildUserPrompt (Prompt.mkInput c text meds logs stats)
  = Prompt.buildUserPrompt (Prompt.mkInput c' text meds logs stats)
  /\ Prompt.buildUserPrompt (Prompt.mkInput c text meds (Some []) stats)
     = Prompt.buildUserPrompt (Prompt.mkInput c text meds None stats)
  /\ Prompt.activity (Prompt.mkInput c text meds (Some []) stats) = EmptyString.
Proof. repeat split. Qed.

(** X26. What the provider is sent for a request of the component, on a
    server with a credential: one request, whose two messages are the
    system prompt of the page of the current path and the user prompt built
    from the store, that is its medications, today's log entries and the
    statistics, followed by the text of the user turn just appended. *)
Theorem provider_prompt_of_component_request (store : MedicationContext)
    (now : Z) (s s' : State) (messageText : option string) (request : value)
    (srv : Server) :
  (Z.of_nat (List.length (ctx_logs store)) < 2 ^ 53)%Z ->
  truthy_opt (OPENAI_API_KEY srv) = true ->
  handleSend store now s messageText = (s', Some request) ->
  exists text sent,
    messages s' = (messages s ++ [mkMessage user text None])%list
    /\ filter Spec.is_provider_call (snd (getGlobalAssistantResponse srv request))
       = [ProviderCall sent]
    /\ Prompt.chat_messages sent
       = [ ("system", VStr (systemPrompts (pageContext (pathname s))));
           ("user",
             VStr (Prompt.buildUserPrompt
                     (Prompt.mkInput (pageContext (pathname s)) text
                        (ctx_medications store)
                        (Some (filter
                                 (fun log =>
                                    String.eqb
                                      (Date_toDateString (Date_parse (time log)))
                                      (Date_toDateString (Some now)))
                                 (ctx_logs store)))
                        (Some (let st :=
                                 calculateAdherenceStats now (ctx_logs store) in
                               Prompt.mkStatsInput (num_of_Z (totalScheduled st))
                                 (num_of_Z (totalTaken st))
                                 (adherenceRate st)))))) ].
Proof.
  intros Hlen Hkey H.
  destruct (dispatched_request_valid store now s s' messageText request Hlen H)
    as (Ha & _ & Hs).
  destruct (handleSend_dispatch store now s s' messageText request H)
    as (_ & text & _ & -> & ->).
  exists text. eexists. split; [reflexivity|].
  rewrite provider_calls_of_action, Ha, Hkey. split; [reflexivity|].
  unfold Prompt.chat_messages. cbn [system_content user_input].
  now rewrite Hs, input_of_request.
Qed.

End Prompts.

Section PromptsRuns.

Local Open Scope string_scope.

Lemma provider_prompt_of_component_request_witness :
  exists sent,
    filter Spec.is_provider_call
      (snd (getGlobalAssistantResponse Run.server Run.request))
    = [ProviderCall sent]
    /\ @Prompt.chat_messages Prompt.utc sent
       = [ ("system", VStr (systemPrompts dashboard));
           ("user",
             VStr ("Current Medications:" ++ Prompt.nl
                   ++ "- Metformin (500mg): 08:00, 20:00" ++ Prompt.nl
                   ++ "- Lisinopril (10mg): 09:00" ++ Prompt.nl ++ Prompt.nl
                   ++ "Today's Activity:" ++ Prompt.nl
                   ++ "- Lisinopril: taken at 08:30" ++ Prompt.nl
                   ++ "- Metformin: taken at 08:01" ++ Prompt.nl ++ Prompt.nl
                   ++ "Adherence Stats:" ++ Prompt.nl
                   ++ "- Total scheduled: 8" ++ Prompt.nl
                   ++ "- Total taken: 6" ++ Prompt.nl
                   ++ "- Adherence rate: 75%" ++ Prompt.nl ++ Prompt.nl
                   ++ "User Question: How am I doing with my adherence?")) ].
Proof.
  destruct (@provider_prompt_of_component_request UTC.runtime Prompt.utc
              Run.store Run.now Run.dashboard_state
              (mkState "/dashboard"
                 [mkMessage user "How am I doing with my adherence?" None]
                 EmptyString true)
              (Some "How am I doing with my adherence?") Run.request Run.server)
    as (text & sent & Hm & Hc & Hp).
  - vm_compute. reflexivity.
  - reflexivity.
  - reflexivity.
  - exists sent. split; [exact Hc|]. rewrite Hp.
    assert (text = "How am I doing with my adherence?") as ->.
    { cbn in Hm. now inversion Hm. }
    vm_compute. reflexivity.
Defined.

End PromptsRuns.

Section Snapshots.

Local Open Scope string_scope.

Context {RT : DateRuntime}.

Lemma get_prop_read (fields : list (string * value)) (k : string) :
  get_prop (VObj fields) k = Return (read k fields).
Proof. unfold get_prop, read. now destruct (lookup k fields). Qed.

(** On an object of the store, the projection of the source gives the
    value that the component's request holds for the medication. *)
Lemma medication_snapshot (o : value) (m : Medication) :
  Snapshot.has_medication o m ->
  Snapshot.medication o = Return (medication_value m).
Proof.
  intros (fields & sched & -> & Hn & Hd & Hs & Hf & Ht).
  unfold Snapshot.medication. rewrite !get_prop_read, Hs. cbn [bind].
  rewrite !get_prop_read. cbn [bind]. now rewrite Hn, Hd, Hf, Ht.
Qed.

Lemma log_snapshot (o : value) (l : Log) :
  Snapshot.has_log o l -> Snapshot.log o = Return (log_value l).
Proof.
  intros (fields & -> & Hn & Ht & Hs).
  unfold Snapshot.log. rewrite !get_prop_read. cbn [bind].
  now rewrite Hn, Ht, Hs.
Qed.

Lemma key_among (keys : list string) (fields : list (string * value)) :
  map fst fields = keys ->
  forall k, has_key k fields = true -> In k keys.
Proof.
  intros <-. induction fields as [|[k0 v] l IH]; intros k;
    unfold has_key; cbn [lookup].
  - discriminate.
  - destruct (String.eqb_spec k k0) as [->|_]; [now left|].
    intros H. right. apply IH. exact H.
Qed.

Lemma medication_value_keys (m : Medication) :
  Snapshot.only_keys ["name"; "dosage"; "schedule"] (medication_value m)
  /\ Snapshot.only_keys ["frequency"; "times"]
       (Prompt.get "schedule" (medication_value m)).
Proof.
  split; eexists; (split; [reflexivity|]); now apply key_among.
Qed.

Lemma log_value_keys (l : Log) :
  Snapshot.only_keys ["medicationName"; "time"; "status"] (log_value l).
Proof. eexists; split; [reflexivity|]. now apply key_among. Qed.

(** X8. Of the records of the store the request carries snapshots only.
    Let the objects of the store have any fields besides those the
    component reads, such as the [schedule.days] that the chart reads.
    Then the medications of the request that [handleSend] dispatches are,
    in the store's order, the objects that the projection of the source
    builds from them, with the keys [name], [dosage] and [schedule], and
    [frequency] and [times] under [schedule], and no other; every entry of
    [todayLogs] is the projection of a log entry of the store, with the keys
    [medicationName], [time] and [status] and no other. Every further field
    of a record of the store is dropped. *)
Theorem request_carries_snapshots (store : MedicationContext)
    (medications logs : list value) (now : Z) (s s' : State)
    (messageText : option string) (request : value) :
  Forall2 Snapshot.has_medication medications (ctx_medications store) ->
  Forall2 Snapshot.has_log logs (ctx_logs store) ->
  handleSend store now s messageText = (s', Some request) ->
  exists ms ls,
    Prompt.get "medications" request = VArr ms
    /\ Prompt.get "todayLogs" request = VArr ls
    /\ Forall2 (fun o snap => Snapshot.medication o = Return snap) medications ms
    /\ Forall (fun snap => exists o, In o logs /\ Snapshot.log o = Return snap) ls
    /\ Forall (fun snap =>
                 Snapshot.only_keys ["name"; "dosage"; "schedule"] snap
                 /\ Snapshot.only_keys ["frequency"; "times"]
                      (Prompt.get "schedule" snap)) ms
    /\ Forall (Snapshot.only_keys ["medicationName"; "time"; "status"]) ls.
Proof.
  intros Hm Hl H.
  destruct (handleSend_dispatch store now s s' messageText request H)
    as (_ & text & _ & _ & ->).
  exists (map medication_value (ctx_medications store)),
         (getTodayLogs now (ctx_logs store)).
  split; [reflexivity|]. split; [reflexivity|]. split; [|split; [|split]].
  - induction Hm as [|o m os ms Ho _ IH]; cbn [map]; constructor;
      [now apply medication_snapshot|exact IH].
  - unfold getTodayLogs. apply Forall_forall. intros snap Hin.
    apply in_map_iff in Hin as (l & <- & Hin). apply filter_In in Hin as [Hin _].
    clear - Hl Hin. induction Hl as [|o l0 os ls Ho _ IH]; [destruct Hin|].
    destruct Hin as [->|Hin].
    + exists o. split; [now left|now apply log_snapshot].
    + destruct (IH Hin) as (o' & Ho' & E). exists o'. split; [now right|exact E].
  - apply Forall_forall. intros snap Hin.
    apply in_map_iff in Hin as (m & <- & _). apply medication_value_keys.
  - unfold getTodayLogs. apply Forall_forall. intros snap Hin.
    apply in_map_iff in Hin as (l & <- & _). apply log_value_keys.
Qed.

End Snapshots.

Section SnapshotsRuns.

Local Open Scope string_scope.

Lemma request_carries_snapshots_witness :
  Prompt.get "medications"
    (@request_of UTC.runtime Snapshot.seen Run.now Run.dashboard_state
       "What medications do I have today?")
  = VArr [ VObj [ ("name", VStr "Metformin");
                  ("dosage", VStr "500mg");
                  ("schedule",
                    VObj [ ("frequency", VStr "weekly");
                           ("times", VArr [VStr "08:00"]) ]) ] ].
Proof.
  destruct (@request_carries_snapshots UTC.runtime Snapshot.seen
              Snapshot.stored_medications Snapshot.stored_logs Run.now
              Run.dashboard_state
              (mkState "/dashboard"
                 [mkMessage user "What medications do I have today?" None]
                 EmptyString true)
              (Some "What medications do I have today?")
              (@request_of UTC.runtime Snapshot.seen Run.now Run.dashboard_state
                 "What medications do I have today?"))
    as (ms & ls & Hm & _ & HF & _).
  - constructor; [|constructor].
    eexists; eexists; repeat split; reflexivity.
  - constructor; [|constructor].
    eexists; repeat split; reflexivity.
  - reflexivity.
  - rewrite Hm. inversion HF as [|o snap os snaps Ho Hs]; subst.
    inversion Hs; subst. vm_compute in Ho. inversion Ho. reflexivity.
Defined.

End SnapshotsRuns.

(* ================================================================== *)
(** * The transcript of a conversation *)
(* ================================================================== *)

Section Trimming.

Lemma trimEnd_idempotent (s : string) : trimEnd (trimEnd s) = trimEnd s.
Proof.
  induction s as [|c r IH]; [reflexivity|]. cbn [trimEnd].
  destruct (is_whitespace c && is_empty (trimEnd r)) eqn:E; [reflexivity|].
  cbn [trimEnd]. now rewrite IH, E.
Qed.

Lemma trimStart_length (s : string) :
  (String.length (trimStart s) <= String.length s)%nat.
Proof.
  induction s as [|a r IH]; [apply Nat.le_refl|].
  cbn [trimStart]. destruct (is_whitespace a); [|apply Nat.le_refl].
  cbn [String.length]. apply Nat.le_trans with (1 := IH), Nat.le_succ_diag_r.
Qed.

(** A string that does not start with white space keeps its first
    character under [trimEnd]. *)
Lemma trimStart_trimEnd (s : string) :
  trimStart s = s -> trimStart (trimEnd s) = trimEnd s.
Proof.
  destruct s as [|c r]; [reflexivity|]. cbn [trimStart trimEnd].
  destruct (is_whitespace c) eqn:E.
  - intros H. exfalso. pose proof (trimStart_length r) as Hl.
    rewrite H in Hl. cbn [String.length] in Hl.
    exact (Nat.nle_succ_diag_l _ Hl).
  - intros _. cbn [andb trimStart]. now rewrite E.
Qed.

Lemma trimStart_idempotent (s : string) : trimStart (trimStart s) = trimStart s.
Proof.
  induction s as [|c r IH]; [reflexivity|]. cbn [trimStart].
  destruct (is_whitespace c) eqn:E; [exact IH|]. cbn [trimStart]. now rewrite E.
Qed.

Lemma trim_idempotent (s : string) : trim (trim s) = trim s.
Proof.
  unfold trim.
  rewrite (trimStart_trimEnd (trimStart s) (trimStart_idempotent s)).
  apply trimEnd_idempotent.
Qed.

End Trimming.

Section Transcript.

Local Open Scope string_scope.

Context {RT : DateRuntime}.
Variable store : MedicationContext.

(** What one call of [handleSend] does to the state. *)
Lemma handleSend_cases (now : Z) (s : State) (messageText : option string) :
  (handleSend store now s messageText = (s, None))
  \/ (isPending s = false
      /\ exists text,
           truthy_string text = true
           /\ handleSend store now s messageText
              = (mkState (pathname s)
                   (messages s ++ [mkMessage user text None]) EmptyString true,
                 Some (request_of store now s text))).
Proof.
  destruct (handleSend_outcome store now s messageText)
    as [E|(s' & request & E)]; [now left|right].
  destruct (handleSend_dispatch store now s s' messageText request E)
    as (Hp & text & Ht & -> & ->).
  split; [exact Hp|]. exists text. split; [exact Ht|exact E].
Qed.

Lemma tidy_submit (x : Session) (now : Z) (messageText : option string) :
  Controls.tidy x ->
  let '(s', request) := handleSend store now (ui x) messageText in
  Controls.tidy (mkSession s' (in_flight x ++ dispatched request)).
Proof.
  intros [Hm Hi].
  destruct (handleSend_cases now (ui x) messageText)
    as [E|(Hp & text & Ht & E)]; rewrite E.
  - split; assumption.
  - split; cbn; [|reflexivity].
    apply Forall_app; split; [exact Hm|].
    constructor; [|constructor]. unfold Controls.user_turn_ok. cbn.
    now rewrite Ht.
Qed.

Lemma reply_turn_ok (r : outcome action_result) :
  Controls.user_turn_ok (reply_message r) = true.
Proof. now destruct r as [[]|]. Qed.

Lemma tidy_step (e : event) (x : Session) :
  single_flight x -> Controls.tidy x -> Controls.tidy (step store e x).
Proof.
  intros Hs Hx. destruct e as [text|now|suggestion now|path|reply]; cbn [step].
  - destruct (isPending (ui x)) eqn:Hp; [exact Hx|].
    destruct Hx as [Hm _]. split; cbn; [exact Hm|discriminate].
  - pose proof (tidy_submit x now None Hx) as H.
    destruct (handleSend store now (ui x) None). exact H.
  - pose proof (tidy_submit x now (Some suggestion) Hx) as H.
    unfold handleSuggestionClick.
    destruct (handleSend store now (ui x) (Some suggestion)). exact H.
  - destruct (String.eqb path (pathname (ui x))); [exact Hx|].
    split; cbn; [constructor|reflexivity].
  - destruct (in_flight x) as [|request rest] eqn:E; [exact Hx|].
    destruct Hx as [Hm Hi].
    destruct (single_flight_busy x Hs) as [Hp (r & Er)]; [congruence|].
    rewrite E in Er. inversion Er; subst. split; cbn.
    + apply Forall_app; split; [exact Hm|].
      constructor; [apply reply_turn_ok|constructor].
    + discriminate.
Qed.

Lemma tidy_run (es : list event) (x : Session) :
  single_flight x -> Controls.tidy x -> Controls.tidy (run store es x).
Proof.
  revert x; induction es as [|e es IH]; intros x Hs Hx; cbn; auto.
  apply IH; [now apply step_single_flight|now apply tidy_step].
Qed.

Lemma tidy_reachable (x : Session) : reachable store x -> Controls.tidy x.
Proof.
  intros (path & es & ->). apply tidy_run; [apply single_flight_init|].
  split; cbn; [constructor|reflexivity].
Qed.

(** X10. End to end, the component never sends the action an input that it
    refuses: for every request that [handleSend] dispatches and every
    server, the awaited call returns and does not throw, so the assistant
    turn is the output's response with its suggestions, or the fixed
    apology for an [{error}] result. The apology for a thrown call is left
    to calls that do not reach the action. *)
Theorem component_requests_are_never_refused (now : Z) (s s' : State)
    (messageText : option string) (request : value) (srv : Server) :
  (Z.of_nat (List.length (ctx_logs store)) < 2 ^ 53)%Z ->
  handleSend store now s messageText = (s', Some request) ->
  accepts GlobalAssistantActionInput request = true
  /\ ((exists out,
         call (Served srv) request = Return (Output out)
         /\ reply_message (call (Served srv) request)
            = mkMessage assistant (response out) (Flow.suggestions out))
      \/ (call (Served srv) request
          = Return (ErrorResult "Failed to get response. Please try again.")
          /\ reply_message (call (Served srv) request)
             = mkMessage assistant
                 "Sorry, I encountered an error. Please try again." None)).
Proof.
  intros Hlen H.
  destruct (dispatched_request_valid store now s s' messageText request Hlen H)
    as (Ha & Hf & Hs).
  split; [unfold accepts; now rewrite Ha|].
  rewrite (served_valid_request srv request _ Ha Hf Hs).
  destruct (truthy_opt (OPENAI_API_KEY srv)); [|now right].
  destruct (provider srv _) as [e|content]; [now right|].
  destruct (truthy_opt content); [|now right].
  destruct (validate_returns srv
              (match content with Some c => c | None => EmptyString end))
    as [out ->].
  left. exists out. split; reflexivity.
Qed.

(** X11. In every reachable state, each turn of the user in the transcript
    has a text that is not empty and carries no suggestions: an empty
    message is never shown, and chips only hang under turns of the
    assistant. *)
Theorem user_turns_carry_text (x : Session) (m : Message) :
  reachable store x ->
  In m (messages (ui x)) ->
  role m = user ->
  content m <> EmptyString /\ Assistant.suggestions m = None.
Proof.
  intros Hx Hin Hr. destruct (tidy_reachable x Hx) as [Hm _].
  rewrite Forall_forall in Hm. specialize (Hm m Hin).
  unfold Controls.user_turn_ok in Hm. rewrite Hr in Hm.
  apply andb_prop in Hm as [Hc Hsug]. split.
  - intros E. rewrite E in Hc. discriminate.
  - now destruct (Assistant.suggestions m).
Qed.

(** X12. While a reply is awaited, in every reachable state, the input is
    empty and stays so: the text area is disabled and a change of its text
    has no effect. *)
Theorem input_is_empty_while_pending (x : Session) :
  reachable store x -> isPending (ui x) = true ->
  input (ui x) = EmptyString
  /\ Controls.textareaDisabled (ui x) = true
  /\ forall text, step store (Change text) x = x.
Proof.
  intros Hx Hp. split; [now apply tidy_reachable|]. split; [exact Hp|].
  intros text. cbn [step]. now rewrite Hp.
Qed.

(** X13. One event changes the transcript in one of two ways only. It
    appends at most one message and keeps the path, or, when the path
    changes to another one, it empties the transcript and the input. No
    event removes or rewrites a single message. *)
Theorem transcript_grows_or_is_cleared (e : event) (x : Session) :
  (exists tail,
      messages (ui (step store e x)) = (messages (ui x) ++ tail)%list
      /\ (List.length tail <= 1)%nat
      /\ pathname (ui (step store e x)) = pathname (ui x))
  \/ (exists path,
        e = Navigate path /\ path <> pathname (ui x)
        /\ messages (ui (step store e x)) = []
        /\ input (ui (step store e x)) = EmptyString
        /\ pathname (ui (step store e x)) = path).
Proof.
  assert (Hsub : forall now mt,
             exists tail,
               messages (fst (handleSend store now (ui x) mt))
               = (messages (ui x) ++ tail)%list
               /\ (List.length tail <= 1)%nat
               /\ pathname (fst (handleSend store now (ui x) mt))
                  = pathname (ui x)).
  { intros now mt.
    destruct (handleSend_cases now (ui x) mt) as [E|(_ & text & _ & E)];
      rewrite E; cbn.
    - exists []. rewrite app_nil_r. repeat split. cbn. apply Nat.le_0_l.
    - exists [mkMessage user text None]. repeat split. apply Nat.le_refl. }
  destruct e as [text|now|suggestion now|path|reply]; cbn [step].
  - left. exists []. rewrite app_nil_r.
    destruct (isPending (ui x)); repeat split; cbn; apply Nat.le_0_l.
  - left. specialize (Hsub now None).
    destruct (handleSend store now (ui x) None). exact Hsub.
  - left. specialize (Hsub now (Some suggestion)). unfold handleSuggestionClick.
    destruct (handleSend store now (ui x) (Some suggestion)). exact Hsub.
  - destruct (String.eqb path (pathname (ui x))) eqn:E.
    + left. exists []. rewrite app_nil_r. repeat split. cbn. apply Nat.le_0_l.
    + right. exists path. apply String.eqb_neq in E. repeat split. exact E.
  - left. destruct (in_flight x) as [|request rest].
    + exists []. rewrite app_nil_r. repeat split. cbn. apply Nat.le_0_l.
    + exists [reply_message (call reply request)]. repeat split.
      apply Nat.le_refl.
Qed.

Lemma in_turn_snoc (ms : list Message) (m : Message) :
  (forall i a, nth_error ms i = Some a -> role a = Controls.turn i) ->
  role m = Controls.turn (List.length ms) ->
  forall i a, nth_error (ms ++ [m]) i = Some a -> role a = Controls.turn i.
Proof.
  intros Hms Hm i a H.
  destruct (Nat.lt_ge_cases i (List.length ms)) as [Hlt|Hge].
  - rewrite nth_error_app1 in H by exact Hlt. now apply Hms.
  - rewrite nth_error_app2 in H by exact Hge.
    destruct (i - List.length ms)%nat as [|k] eqn:E.
    + cbn in H. inversion H; subst a.
      replace i with (List.length ms) by lia. exact Hm.
    + cbn in H. now destruct k.
Qed.

Lemma odd_snoc {A} (l : list A) (a : A) :
  Nat.odd (List.length (l ++ [a])) = Nat.even (List.length l).
Proof.
  rewrite length_app. cbn [List.length]. rewrite Nat.add_1_r.
  apply Nat.odd_succ.
Qed.

Lemma in_turn_submit (x : Session) (now : Z) (messageText : option string) :
  Controls.in_turn x ->
  let '(s', request) := handleSend store now (ui x) messageText in
  Controls.in_turn (mkSession s' (in_flight x ++ dispatched request)).
Proof.
  intros [Hp Hm].
  destruct (handleSend_cases now (ui x) messageText)
    as [E|(Hidle & text & _ & E)]; rewrite E; [now split|].
  rewrite Hidle in Hp. symmetry in Hp.
  assert (He : Nat.even (List.length (messages (ui x))) = true)
    by now rewrite <- Nat.negb_odd, Hp.
  split; cbn [ui isPending messages].
  - now rewrite odd_snoc.
  - apply in_turn_snoc; [exact Hm|]. unfold Controls.turn. now rewrite He.
Qed.

Lemma in_turn_step (e : event) (x : Session) :
  Controls.is_navigate e = false ->
  single_flight x -> Controls.in_turn x -> Controls.in_turn (step store e x).
Proof.
  intros He Hs Hx.
  destruct e as [text|now|suggestion now|path|reply]; cbn [step];
    try discriminate He.
  - destruct (isPending (ui x)) eqn:Hp; [exact Hx|].
    destruct Hx as [Hq Hm]. split; cbn; [|exact Hm]. now rewrite <- Hq.
  - pose proof (in_turn_submit x now None Hx) as H.
    destruct (handleSend store now (ui x) None). exact H.
  - pose proof (in_turn_submit x now (Some suggestion) Hx) as H.
    unfold handleSuggestionClick.
    destruct (handleSend store now (ui x) (Some suggestion)). exact H.
  - destruct (in_flight x) as [|request rest] eqn:E; [exact Hx|].
    destruct Hx as [Hp Hm].
    destruct (single_flight_busy x Hs) as [Hq (r & Er)]; [congruence|].
    rewrite E in Er. inversion Er; subst. rewrite Hq in Hp. symmetry in Hp.
    assert (Hev : Nat.even (List.length (messages (ui x))) = false)
      by now rewrite <- Nat.negb_odd, Hp.
    split; cbn [ui isPending messages is_nil negb].
    + now rewrite odd_snoc.
    + apply in_turn_snoc; [exact Hm|]. unfold Controls.turn.
      now rewrite Hev, reply_message_role.
Qed.

Lemma in_turn_run (es : list event) (x : Session) :
  existsb Controls.is_navigate es = false ->
  single_flight x -> Controls.in_turn x -> Controls.in_turn (run store es x).
Proof.
  revert x; induction es as [|e es IH]; intros x Hes Hs Hx; cbn; auto.
  cbn in Hes. apply orb_false_iff in Hes as [He Hes].
  apply IH; [exact Hes|now apply step_single_flight|now apply in_turn_step].
Qed.

(** X14. As long as the path does not change, the transcript alternates:
    after any events but navigation, from the mounted component, the
    messages of even index are the user's and those of odd index the
    assistant's, and a reply is awaited exactly when the transcript ends
    with a turn of the user. *)
Theorem turns_alternate_without_navigation (path : string) (es : list event) :
  existsb Controls.is_navigate es = false ->
  let s := ui (run store es (init path)) in
  (forall i m,
      nth_error (messages s) i = Some m ->
      role m = if Nat.even i then user else assistant)
  /\ isPending s = Nat.odd (List.length (messages s)).
Proof.
  intros Hes s.
  destruct (in_turn_run es (init path) Hes (single_flight_init path)) as [Hp Hm].
  { split; cbn; [reflexivity|]. intros [|i] m H; discriminate H. }
  split; [exact Hm|exact Hp].
Qed.

End Transcript.

Section TranscriptRuns.

Local Open Scope string_scope.

Lemma component_requests_are_never_refused_witness :
  reply_message (call (Served Run.server) Run.request)
  = mkMessage assistant "You took 6 of 8 doses." (Some ["How can I improve?"]).
Proof.
  destruct (@component_requests_are_never_refused UTC.runtime Run.store Run.now
              Run.dashboard_state
              (mkState "/dashboard"
                 [mkMessage user "How am I doing with my adherence?" None]
                 EmptyString true)
              (Some "How am I doing with my adherence?") Run.request Run.server)
    as [_ [(out & Hc & Hr)|[Hc _]]].
  - vm_compute. reflexivity.
  - reflexivity.
  - rewrite Hr. assert (E : Return (Output out)
                            = call (Served Run.server) Run.request)
      by (symmetry; exact Hc).
    vm_compute in E. inversion E. reflexivity.
  - vm_compute in Hc. discriminate Hc.
Defined.

Lemma user_turns_carry_text_witness :
  content (mkMessage user "How am I doing with my adherence?" None)
  <> EmptyString.
Proof.
  apply (@user_turns_carry_text UTC.runtime Run.store Run.asked
           (mkMessage user "How am I doing with my adherence?" None)).
  - exists "/dashboard",
      [SuggestionClick "How am I doing with my adherence?" Run.now].
    reflexivity.
  - left. reflexivity.
  - reflexivity.
Defined.

Lemma input_is_empty_while_pending_witness :
  @step UTC.runtime Run.store (Change "and then?") Run.asked = Run.asked.
Proof.
  apply (@input_is_empty_while_pending UTC.runtime Run.store Run.asked).
  - exists "/dashboard",
      [SuggestionClick "How am I doing with my adherence?" Run.now].
    reflexivity.
  - reflexivity.
Defined.

Lemma turns_alternate_without_navigation_witness :
  isPending
    (ui (@run UTC.runtime Run.store
           [ SuggestionClick "How am I doing with my adherence?" Run.now;
             Settle (Served Run.server);
             Change "How can I improve?";
             Send Run.now ]
           (init "/dashboard")))
  = Nat.odd
      (List.length
         (messages
            (ui (@run UTC.runtime Run.store
                   [ SuggestionClick "How am I doing with my adherence?" Run.now;
                     Settle (Served Run.server);
                     Change "How can I improve?";
                     Send Run.now ]
                   (init "/dashboard"))))).
Proof.
  apply (@turns_alternate_without_navigation UTC.runtime Run.store "/dashboard"
           [ SuggestionClick "How am I doing with my adherence?" Run.now;
             Settle (Served Run.server);
             Change "How can I improve?";
             Send Run.now ]).
  reflexivity.
Defined.

End TranscriptRuns.

(* ================================================================== *)
(** * The controls *)
(* ================================================================== *)

Section ControlsFacts.

Local Open Scope string_scope.

Context {RT : DateRuntime}.
Variable store : MedicationContext.

(** X15. The send button is enabled exactly when a click on it, or Enter
    without Shift in the text area, dispatches a request; it is disabled
    exactly when they leave the state as it is. *)
Theorem send_button_enabled_iff_dispatch (now : Z) (s : State) :
  (Controls.sendDisabled s = false
   <-> exists s' request, handleSend store now s None = (s', Some request))
  /\ (Controls.sendDisabled s = true
      <-> fst (Controls.handleKeyDown store now s "Enter" false) = (s, None)).
Proof.
  unfold Controls.handleKeyDown, Controls.sendDisabled, handleSend.
  cbn [String.eqb Ascii.eqb Bool.eqb andb negb fst].
  destruct (negb (truthy_string (trim (input s))) || isPending s).
  - split; split; try reflexivity; try discriminate.
    intros (s' & request & H); discriminate H.
  - split; split; try reflexivity; try discriminate; eauto.
Qed.

(** X16. A typed message is sent trimmed: when [handleSend()] dispatches,
    the user turn and the [userMessage] of the request are the input with
    the white space at its two ends removed, a text that is not empty and
    that trimming leaves as it is; the input is emptied. *)
Theorem typed_text_is_sent_trimmed (now : Z) (s s' : State) (request : value) :
  handleSend store now s None = (s', Some request) ->
  exists text,
    text = trim (input s)
    /\ text <> EmptyString
    /\ trim text = text
    /\ messages s' = (messages s ++ [mkMessage user text None])%list
    /\ Prompt.get "userMessage" request = VStr text
    /\ input s' = EmptyString.
Proof.
  unfold handleSend.
  destruct (negb (truthy_string (trim (input s))) || isPending s) eqn:E;
    [discriminate|].
  intros H; inversion H; subst; clear H. exists (trim (input s)).
  apply orb_false_iff in E as [E _]. apply negb_false_iff in E.
  repeat split; try reflexivity.
  - intros H. rewrite H in E. discriminate E.
  - apply trim_idempotent.
Qed.

Lemma default_chips_plain (c : PageContext) (chip : string) :
  In chip (defaultSuggestions c) -> chip <> EmptyString /\ trim chip = chip.
Proof.
  destruct c; cbn [defaultSuggestions In]; intros [<-|[<-|[]]];
    (split; [discriminate|vm_compute; reflexivity]).
Qed.

(** X17. On an empty transcript and with no reply awaited, a click on any
    chip on the screen, which is a default chip of the page, submits the
    chip's text as it is; the effect is that of typing the text and
    sending it. *)
Theorem default_chip_is_submitted (now : Z) (s : State) (chip : string) :
  messages s = [] ->
  isPending s = false ->
  In chip (Controls.visibleChips s) ->
  handleSuggestionClick store now s chip
  = (mkState (pathname s) [mkMessage user chip None] EmptyString true,
     Some (request_of store now s chip))
  /\ handleSuggestionClick store now s chip
     = handleSend store now
         (mkState (pathname s) (messages s) chip (isPending s)) None.
Proof.
  intros Hm Hp Hin. unfold Controls.visibleChips in Hin. rewrite Hm in Hin.
  destruct (default_chips_plain _ _ Hin) as [Hne Htrim].
  rewrite (suggestion_is_submitted_verbatim store now s chip Hne Hp), Hm.
  split; [reflexivity|].
  unfold handleSend. cbn [input isPending pathname messages].
  rewrite Htrim, Hp.
  destruct chip; [congruence|]. reflexivity.
Qed.

End ControlsFacts.

Section ControlsRuns.

Local Open Scope string_scope.

Lemma typed_text_is_sent_trimmed_witness :
  exists text,
    text = "How can I improve?"
    /\ Prompt.get "userMessage"
         (@request_of UTC.runtime Run.store Run.now
            (mkState "/reports" [] "  How can I improve? " false)
            "How can I improve?")
       = VStr text.
Proof.
  destruct (@typed_text_is_sent_trimmed UTC.runtime Run.store Run.now
              (mkState "/reports" [] "  How can I improve? " false)
              (mkState "/reports" [mkMessage user "How can I improve?" None]
                 EmptyString true)
              (@request_of UTC.runtime Run.store Run.now
                 (mkState "/reports" [] "  How can I improve? " false)
                 "How can I improve?")
              eq_refl) as (text & Ht & _ & _ & _ & Hu & _).
  exists text. split; [exact Ht|exact Hu].
Defined.

Lemma default_chip_is_submitted_witness :
  @handleSuggestionClick UTC.runtime Run.store Run.now Run.dashboard_state
    "How am I doing with my adherence?"
  = (mkState "/dashboard"
       [mkMessage user "How am I doing with my adherence?" None]
       EmptyString true,
     Some Run.request).
Proof.
  apply (@default_chip_is_submitted UTC.runtime Run.store Run.now
           Run.dashboard_state "How am I doing with my adherence?").
  - reflexivity.
  - reflexivity.
  - right. left. reflexivity.
Defined.

End ControlsRuns.

(* ================================================================== *)
(** * The statistics and today's logs *)
(* ================================================================== *)

Section Quotients.

Lemma div_eucl_pair (a b : Z) : Z.div_eucl a b = (a / b, a mod b).
Proof. unfold Z.div, Z.modulo. now destruct (Z.div_eucl a b). Qed.

(** A finite Number divided by itself is one. *)
Lemma num_div_same (s : bool) (m : positive) (e : Z) :
  num_div (S754_finite s m e) (S754_finite s m e) = num_of_Z 1.
Proof.
  unfold num_div, SFdiv, SFdiv_core_binary.
  replace (Zdigits2 (Zpos m) + e - (Zdigits2 (Zpos m) + e)) with 0 by lia.
  replace (e - e) with 0 by lia.
  change (Z.min (fexp prec emax 0) 0) with (-53).
  change (0 - -53) with 53. cbv beta iota zeta.
  rewrite Z.shiftl_mul_pow2 by lia.
  rewrite div_eucl_pair, Z.mul_comm, Z.div_mul, Z.mod_mul by lia.
  replace (new_location (Zpos m) 0) with loc_Exact
    by (unfold new_location; now destruct (Z.even (Zpos m))).
  rewrite xorb_nilpotent. vm_compute. reflexivity.
Qed.

End Quotients.

Section Stats.

Context {RT : DateRuntime}.

(** The statistics, from the number of recent entries and the number of
    those that are taken. *)
Lemma stats_of_counts (now : Z) (logs : list Log) :
  let recent := filter (is_recent (Date_setDate now (Date_getDate now - 30))) logs in
  let taken_n :=
    Z.of_nat (List.length (filter (fun log => is_taken (status log)) recent)) in
  let n := Z.of_nat (List.length recent) in
  calculateAdherenceStats now logs
  = mkStats (Z.max 1 n) taken_n
      (Math_round (num_mul (num_div (num_of_Z taken_n) (num_of_Z (Z.max 1 n)))
                     (num_of_Z 100))).
Proof.
  intros recent taken_n n. unfold calculateAdherenceStats.
  fold recent. fold n. fold taken_n.
  replace (if (n =? 0)%Z then 1 else n) with (Z.max 1 n); [reflexivity|].
  destruct (Z.eqb_spec n 0); lia.
Qed.

Lemma length_filter_le {A} (p : A -> bool) (l : list A) :
  (List.length (filter p l) <= List.length l)%nat.
Proof.
  induction l as [|a l IH]; cbn; [lia|]. destruct (p a); cbn; lia.
Qed.

(** X18. The counts of the statistics are bounded, whatever the logs and
    the clock: [totalScheduled] is at least 1, so the rate never divides by
    zero, and it is 1 or the number of recent entries; [totalTaken] lies
    between 0 and [totalScheduled], and is at most the number of taken
    entries of the store. *)
Theorem stats_bounds (now : Z) (logs : list Log) :
  let st := calculateAdherenceStats now logs in
  1 <= totalScheduled st <= Z.max 1 (Z.of_nat (List.length logs))
  /\ 0 <= totalTaken st <= totalScheduled st
  /\ totalTaken st <= Spec.count (fun log => is_taken (status log)) logs
  /\ (totalScheduled st = 1 \/
      totalScheduled st
      = Z.of_nat (List.length
                    (filter (is_recent (Date_setDate now (Date_getDate now - 30)))
                       logs))).
Proof.
  intros st. unfold st. rewrite stats_of_counts. cbn [totalScheduled totalTaken].
  set (recent := filter _ logs).
  pose proof (length_filter_le (is_recent (Date_setDate now (Date_getDate now - 30))) logs).
  pose proof (length_filter_le (fun log => is_taken (status log)) recent).
  assert (Z.of_nat (List.length (filter (fun log => is_taken (status log)) recent))
          <= Spec.count (fun log => is_taken (status log)) logs).
  { unfold recent. rewrite count_filter_filter, <- count_filter.
    rewrite <- (count_filter (fun log => is_taken (status log))).
    apply Nat2Z.inj_le. clear. induction logs as [|a l IH]; cbn; [lia|].
    destruct (is_recent _ a); cbn; destruct (is_taken (status a)); cbn; lia. }
  fold recent in H. lia.
Qed.

(** X19. The two ends of the rate, for fewer than [2^53] entries: when no
    recent entry is taken the rate is 0, and when every recent entry is
    taken, and there is one, the rate is exactly 100. Neither the division
    nor the rounding of binary64 disturbs them. *)
Theorem rate_extremes (now : Z) (logs : list Log) :
  Z.of_nat (List.length logs) < 2 ^ 53 ->
  let st := calculateAdherenceStats now logs in
  (totalTaken st = 0 -> adherenceRate st = num_of_Z 0)
  /\ (totalTaken st = totalScheduled st -> adherenceRate st = num_of_Z 100).
Proof.
  intros Hlen st. unfold st. rewrite stats_of_counts.
  cbn [totalScheduled totalTaken adherenceRate].
  set (recent := filter _ logs).
  set (t := Z.of_nat (List.length (filter _ recent))).
  set (n := Z.max 1 (Z.of_nat (List.length recent))).
  pose proof (length_filter_le (is_recent (Date_setDate now (Date_getDate now - 30))) logs).
  fold recent in H.
  assert (Hn : 0 < n < 2 ^ 53) by (unfold n; lia).
  destruct (num_of_Z_finite n Hn) as (m & e & En).
  split; intros ->.
  - rewrite En. reflexivity.
  - rewrite En, num_div_same. vm_compute. reflexivity.
Qed.

Lemma length_filter_permutation {A} (p : A -> bool) (l l' : list A) :
  Permutation l l' -> List.length (filter p l) = List.length (filter p l').
Proof.
  induction 1 as [|a l l' _ IH|a b l|l l' l'' _ IH1 _ IH2]; cbn.
  - reflexivity.
  - destruct (p a); cbn; now rewrite IH.
  - destruct (p a), (p b); reflexivity.
  - now rewrite IH1.
Qed.

Lemma filter_permutation {A} (p : A -> bool) (l l' : list A) :
  Permutation l l' -> Permutation (filter p l) (filter p l').
Proof.
  induction 1 as [|a l l' _ IH|a b l|l l' l'' _ IH1 _ IH2]; cbn.
  - constructor.
  - destruct (p a); [now constructor|exact IH].
  - destruct (p a), (p b); try apply Permutation_refl. apply perm_swap.
  - now apply perm_trans with (filter p l').
Qed.

(** X20. The statistics do not depend on the order of the log entries of
    the store. *)
Theorem stats_ignore_order (now : Z) (logs logs' : list Log) :
  Permutation logs logs' ->
  calculateAdherenceStats now logs = calculateAdherenceStats now logs'.
Proof.
  intros H. rewrite !stats_of_counts. cbv zeta.
  pose proof (filter_permutation
                (is_recent (Date_setDate now (Date_getDate now - 30))) _ _ H) as Hr.
  rewrite (length_filter_permutation (fun log => is_taken (status log)) _ _ Hr).
  now rewrite (Permutation_length Hr).
Qed.

(** X21. Entries whose time does not parse, or parses to an instant before
    [thirtyDaysAgo], have no effect on the statistics, wherever they stand
    in the store and whatever their status. *)
Theorem stats_ignore_old_entries (now : Z) (old logs : list Log) :
  (forall log, In log old ->
     match Date_parse (time log) with
     | Some t => t < Date_setDate now (Date_getDate now - 30)
     | None => True
     end) ->
  calculateAdherenceStats now (old ++ logs) = calculateAdherenceStats now logs
  /\ calculateAdherenceStats now (logs ++ old) = calculateAdherenceStats now logs.
Proof.
  intros H.
  assert (filter (is_recent (Date_setDate now (Date_getDate now - 30))) old = [])
    as E.
  { induction old as [|a l IH]; [reflexivity|]. cbn [filter].
    assert (is_recent (Date_setDate now (Date_getDate now - 30)) a = false) as ->.
    { specialize (H a (or_introl eq_refl)). unfold is_recent.
      destruct (Date_parse (time a)); [apply Z.leb_gt; exact H|reflexivity]. }
    apply IH. intros log Hin. apply H. now right. }
  rewrite !stats_of_counts. cbv zeta. rewrite !filter_app, E.
  cbn [app filter]. rewrite !app_nil_r. split; reflexivity.
Qed.

Lemma log_value_valid (log : Log) :
  safeParse log_shape (log_value log) = Some (log_value log).
Proof. now destruct log as [n t []]. Qed.

(** X22. [getTodayLogs], on a runtime that does not print an invalid date
    as it prints today: every entry it gives is the snapshot of an entry of
    the store whose time parses to an instant of today's date string, and
    passes the schema of a log entry as it is; it gives no more entries
    than the store has. An entry whose time does not parse is never among
    today's. *)
Theorem today_logs_are_dated_today (now : Z) (logs : list Log) :
  Date_toDateString None <> Date_toDateString (Some now) ->
  (List.length (getTodayLogs now logs) <= List.length logs)%nat
  /\ forall v,
       In v (getTodayLogs now logs) ->
       safeParse log_shape v = Some v
       /\ exists log t,
            In log logs
            /\ v = log_value log
            /\ Date_parse (time log) = Some t
            /\ Date_toDateString (Some t) = Date_toDateString (Some now).
Proof.
  intros Hinv. unfold getTodayLogs. split.
  - rewrite length_map. apply length_filter_le.
  - intros v Hin. apply in_map_iff in Hin as (log & <- & Hin).
    apply filter_In in Hin as [Hin E]. apply String.eqb_eq in E.
    split; [apply log_value_valid|].
    destruct (Date_parse (time log)) as [t|] eqn:Ep; [|congruence].
    exists log, t. repeat split; assumption.
Qed.

End Stats.

Section StatsRuns.

Local Open Scope string_scope.

Lemma rate_extremes_witness :
  adherenceRate
    (@calculateAdherenceStats UTC.runtime Run.now
       [ mkLog "Metformin" "2026-11-02T08:00:00.000Z" taken;
         mkLog "Metformin" "2026-11-03T08:00:00.000Z" taken;
         mkLog "Metformin" "2026-01-03T08:00:00.000Z" missed ])
  = num_of_Z 100.
Proof.
  apply (@rate_extremes UTC.runtime Run.now
           [ mkLog "Metformin" "2026-11-02T08:00:00.000Z" taken;
             mkLog "Metformin" "2026-11-03T08:00:00.000Z" taken;
             mkLog "Metformin" "2026-01-03T08:00:00.000Z" missed ]).
  - vm_compute. reflexivity.
  - vm_compute. reflexivity.
Defined.

Lemma stats_ignore_order_witness :
  @calculateAdherenceStats UTC.runtime Run.now Run.logs
  = @calculateAdherenceStats UTC.runtime Run.now (rev Run.logs).
Proof.
  apply (@stats_ignore_order UTC.runtime Run.now Run.logs (rev Run.logs)).
  apply Permutation_rev.
Defined.

Lemma stats_ignore_old_entries_witness :
  @calculateAdherenceStats UTC.runtime Run.now
    ([ mkLog "Metformin" "2026-09-01T08:00:00.000Z" taken;
       mkLog "Lisinopril" "yesterday" taken ] ++ Run.future_logs)
  = @calculateAdherenceStats UTC.runtime Run.now Run.future_logs.
Proof.
  apply (@stats_ignore_old_entries UTC.runtime Run.now
           [ mkLog "Metformin" "2026-09-01T08:00:00.000Z" taken;
             mkLog "Lisinopril" "yesterday" taken ]
           Run.future_logs).
  intros log [<-|[<-|[]]].
  - vm_compute. reflexivity.
  - exact I.
Defined.

Lemma today_logs_are_dated_today_witness :
  (List.length (@getTodayLogs UTC.runtime Run.now Run.logs)
   <= List.length Run.logs)%nat.
Proof.
  apply (@today_logs_are_dated_today UTC.runtime Run.now Run.logs).
  vm_compute. discriminate.
Defined.

End StatsRuns.

(* ================================================================== *)
(** * The chart *)
(* ================================================================== *)

Section ChartFacts.

Local Open Scope string_scope.

Context {RT : DateRuntime} {CT : Chart.CalendarRuntime}.

Lemma scheduledDoses_from (date : Z) (meds : list Chart.ScheduledMedication)
    (start : Z) :
  fold_left
    (fun total med =>
       if Chart.isScheduledToday date med then total + Chart.doses med else total)
    meds start
  = start + Chart.scheduledDoses date meds.
Proof.
  unfold Chart.scheduledDoses. fold Chart.doses.
  revert start. induction meds as [|m l IH]; intros start; cbn [fold_left].
  - lia.
  - rewrite IH.
    rewrite (IH (if Chart.isScheduledToday date m then 0 + Chart.doses m else 0)).
    destruct (Chart.isScheduledToday date m); lia.
Qed.

Lemma scheduledDoses_cons (date : Z) (m : Chart.ScheduledMedication)
    (meds : list Chart.ScheduledMedication) :
  Chart.scheduledDoses date (m :: meds)
  = (if Chart.isScheduledToday date m then Chart.doses m else 0)
    + Chart.scheduledDoses date meds.
Proof.
  unfold Chart.scheduledDoses at 1. cbn [fold_left]. fold Chart.doses.
  rewrite scheduledDoses_from. now destruct (Chart.isScheduledToday date m).
Qed.

Lemma scheduledDoses_bounds (date : Z) (meds : list Chart.ScheduledMedication) :
  0 <= Chart.scheduledDoses date meds
       <= fold_right Z.add 0 (map Chart.doses meds).
Proof.
  induction meds as [|m l IH]; [cbn; lia|].
  rewrite scheduledDoses_cons. cbn [map fold_right].
  assert (0 <= Chart.doses m) by (unfold Chart.doses; lia).
  destruct (Chart.isScheduledToday date m); lia.
Qed.

Lemma scheduledDoses_daily (date : Z) (meds : list Chart.ScheduledMedication) :
  (forall m, In m meds -> frequency (schedule (Chart.medication m)) = "daily") ->
  Chart.scheduledDoses date meds = fold_right Z.add 0 (map Chart.doses meds).
Proof.
  induction meds as [|m l IH]; intros H; [reflexivity|].
  rewrite scheduledDoses_cons. cbn [map fold_right].
  rewrite IH by (intros a Ha; apply H; now right).
  unfold Chart.isScheduledToday. rewrite (H m (or_introl eq_refl)). reflexivity.
Qed.

(** X23. The chart has 30 bars, oldest first: the bar of index [j] is the
    day [29 - j] days before today, and the last bar is today. *)
Theorem chart_is_thirty_days_oldest_first (now : Z)
    (meds : list Chart.ScheduledMedication) (logs : list Log) :
  List.length (Chart.data now meds logs) = 30%nat
  /\ (forall j, (j < 30)%nat ->
        nth_error (Chart.data now meds logs) j
        = Some (Chart.entry now meds logs (29 - Z.of_nat j)))
  /\ last (Chart.data now meds logs) (Chart.entry now meds logs 0)
     = Chart.entry now meds logs 0.
Proof.
  split; [reflexivity|]. split; [|reflexivity].
  intros j Hj. unfold Chart.data. cbn [seq map rev app].
  do 30 (destruct j as [|j]; [reflexivity|]). lia.
Qed.

(** X24. Every bar of the chart is bounded: its taken count lies between 0
    and the number of taken entries of the store, and its scheduled count
    between 0 and the doses of all medications together, one dose per time
    of a schedule. *)
Theorem chart_bars_are_bounded (now : Z)
    (meds : list Chart.ScheduledMedication) (logs : list Log) (bar : Chart.Bar) :
  In bar (Chart.data now meds logs) ->
  0 <= Chart.taken bar <= Spec.count (fun log => is_taken (status log)) logs
  /\ 0 <= Chart.scheduled bar <= fold_right Z.add 0 (map Chart.doses meds).
Proof.
  unfold Chart.data. rewrite <- in_rev, in_map_iff.
  intros (i & <- & _). unfold Chart.entry. cbn [Chart.taken Chart.scheduled].
  split; [|apply scheduledDoses_bounds].
  unfold Chart.takenDoses. split; [lia|].
  rewrite <- count_filter. apply Nat2Z.inj_le.
  induction logs as [|a l IH]; cbn [filter]; [apply Nat.le_refl|].
  unfold Chart.taken_on at 1.
  destruct (Date_parse (time a)) as [t|].
  - destruct (is_taken (status a)); rewrite ?andb_false_r, ?andb_true_r.
    + match goal with |- context [if ?c then _ else _] => destruct c end;
        cbn [List.length]; lia.
    + exact IH.
  - destruct (is_taken (status a)); cbn [List.length]; lia.
Qed.

(** X25. When every medication is taken daily, all bars show the same
    scheduled count, the doses of all medications together: the days of a
    schedule and the day of the week play no part. *)
Theorem chart_of_daily_medications (now : Z)
    (meds : list Chart.ScheduledMedication) (logs : list Log) (bar : Chart.Bar) :
  (forall m, In m meds -> frequency (schedule (Chart.medication m)) = "daily") ->
  In bar (Chart.data now meds logs) ->
  Chart.scheduled bar = fold_right Z.add 0 (map Chart.doses meds).
Proof.
  intros H. unfold Chart.data. rewrite <- in_rev, in_map_iff.
  intros (i & <- & _). cbn [Chart.entry Chart.scheduled].
  now apply scheduledDoses_daily.
Qed.

End ChartFacts.

Section ChartRuns.

Local Open Scope string_scope.

Lemma chart_bars_are_bounded_witness :
  0 <= Chart.taken
         (@Chart.entry UTC.runtime Chart.utc Run.now
            (map (fun m => Chart.mkScheduled m None) Run.meds) Run.logs 0)
    <= 8.
Proof.
  apply (@chart_bars_are_bounded UTC.runtime Chart.utc Run.now
           (map (fun m => Chart.mkScheduled m None) Run.meds) Run.logs
           (@Chart.entry UTC.runtime Chart.utc Run.now
              (map (fun m => Chart.mkScheduled m None) Run.meds) Run.logs 0)).
  unfold Chart.data. rewrite <- in_rev. cbn [seq map]. left. reflexivity.
Defined.

Lemma chart_of_daily_medications_witness :
  Chart.scheduled
    (@Chart.entry UTC.runtime Chart.utc Run.now
       (map (fun m => Chart.mkScheduled m (Some [1; 3; 5])) Run.meds)
       Run.logs 0)
  = 3.
Proof.
  apply (@chart_of_daily_medications UTC.runtime Chart.utc Run.now
           (map (fun m => Chart.mkScheduled m (Some [1; 3; 5])) Run.meds)
           Run.logs).
  - intros m [<-|[<-|[]]]; reflexivity.
  - unfold Chart.data. rewrite <- in_rev. cbn [seq map]. left. reflexivity.
Defined.

End ChartRuns.
